(** * TraceCam: the capture-and-record pipeline

    A shallow embedding of the TraceCam application script (the most recent
    of the three revisions of app.js, the one with the location decipher
    panel, the debounced reverse geocoder and the quota fallback), with the
    properties its design specification states about it.

    Conventions.
    - A JavaScript Number is a rational.  Comparisons, [Math.floor],
      [Math.abs] and [toFixed] are exact on IEEE doubles, so they are exact
      here.  In the geodetic deriver, where a numeric property is at stake,
      every subtraction and multiplication goes through [fl], the rounding
      of the host arithmetic, about which only the usual error bound is
      assumed; [Js.binary64], rounding to nearest on the binary64 grid,
      meets it.  The geometry of the overlay is written with exact
      operations.
    - Host services the script calls but does not define (the clock, the
      random source, the canvas encoder, [Number.prototype.toString], the
      quota policy of localStorage) are parameters.
    - Arrays are lists; [unshift] is cons, [slice(0, n)] is [take n]. *)

From Stdlib Require Import QArith Qround Qabs Qpower Lqa Lia ZArith String Ascii List.
From stdpp Require Import gmap strings list pretty.
Import ListNotations.

Local Open Scope Q_scope.

(* ===================================================================== *)
(** ** JavaScript values used by the script *)
(* ===================================================================== *)

Module Js.

(** [a >= b] and [a <= b] on Numbers. *)
Definition geb (a b : Q) : bool := Qle_bool b a.
Definition leb (a b : Q) : bool := Qle_bool a b.
Definition ltb (a b : Q) : bool := negb (Qle_bool b a).

(** Rounding to the nearest double, ties to even: 53 significant bits,
    least exponent -1074.  Overflow to infinity is left out; coordinates
    and what is computed from them stay far below it. *)
Definition pow2 (e : Z) : Q := Qpower 2 e.

(** The floor of the binary logarithm of a positive rational. *)
Definition ilog2 (x : Q) : Z :=
  let k := (Z.log2 (Qnum x) - Z.log2 (Zpos (Qden x)))%Z in
  if Qle_bool (pow2 k) x then k else (k - 1)%Z.

Definition roundEven (y : Q) : Z :=
  let f := Qfloor y in
  match Qcompare (y - inject_Z f) (1 # 2) with
  | Lt => f
  | Gt => (f + 1)%Z
  | Eq => if Z.even f then f else (f + 1)%Z
  end.

Definition binary64 (x : Q) : Q :=
  if Qeq_bool x 0 then 0
  else
    let e := Z.max (ilog2 (Qabs x) - 52) (-1074) in
    let m := inject_Z (roundEven (Qabs x / pow2 e)) * pow2 e in
    if Qle_bool 0 x then m else - m.

(** The decimal string returned by [Number.prototype.toFixed], kept as the
    numeral it spells: a sign, a count of units of [10^-places], and the
    number of places. *)
Record Fixed : Type := MkFixed
  { negative : bool;
    units : Z;
    places : nat }.

Definition pow10 (k : nat) : Z := (10 ^ Z.of_nat k)%Z.

(** The integer nearest to [y], the larger one on a tie. *)
Definition roundHalfUp (y : Q) : Z := Qfloor (y + (1 # 2)).

(** [x.toFixed(k)]: a negative [x] is printed as a minus sign followed by
    the digits of [-x]. *)
Definition toFixed (k : nat) (x : Q) : Fixed :=
  if ltb x 0
  then MkFixed true (roundHalfUp (- x * inject_Z (pow10 k))) k
  else MkFixed false (roundHalfUp (x * inject_Z (pow10 k))) k.

(** The number a [Fixed] spells (what [parseFloat] reads back). *)
Definition Fixed_value (f : Fixed) : Q :=
  let v := inject_Z (units f) / inject_Z (pow10 (places f)) in
  if negative f then - v else v.

(** Left padding with zeros up to [k] characters. *)
Fixpoint zeros (k : nat) : string :=
  match k with
  | O => EmptyString
  | S k' => String "0" (zeros k')
  end.

Definition padLeft (k : nat) (s : string) : string :=
  (zeros (k - String.length s) +:+ s)%string.

(** The characters of a [Fixed]. *)
Definition Fixed_toString (f : Fixed) : string :=
  let scale := pow10 (places f) in
  let whole := pretty (units f / scale)%Z in
  let frac :=
    match places f with
    | O => EmptyString
    | S _ => ("." +:+ padLeft (places f) (pretty (units f mod scale)%Z))%string
    end in
  ((if negative f then "-" else "") +:+ whole +:+ frac)%string.

(** A Number-valued property that may be missing or null. *)
Inductive OptNum : Type :=
  | Undefined
  | Null
  | Num (q : Q).

(** The operand kept by [v || ''] when [v] is a Number-valued property:
    0, null and undefined are falsy. *)
Inductive Cell : Type :=
  | CNum (q : Q)
  | CStr (s : string).

Definition truthyNum (v : OptNum) : bool :=
  match v with
  | Undefined | Null => false
  | Num q => negb (Qeq_bool q 0)
  end.

Definition numOrEmpty (v : OptNum) : Cell :=
  match v with
  | Num q => if truthyNum v then CNum q else CStr ""
  | _ => CStr ""
  end.

(** [s || ''] on a string: the empty string is the only falsy string. *)
Definition strOrEmpty (s : string) : string :=
  match s with
  | EmptyString => ""
  | _ => s
  end.

End Js.

(* ===================================================================== *)
(** ** Geodetic deriver: [decimalToDMS] and [decipherLocation] *)
(* ===================================================================== *)

Module Geo.
Import Js.

Record DMS : Type := MkDMS
  { degrees : Z;
    minutes : Z;
    seconds : Fixed;
    direction : string;
    formatted : string }.

Record DMSPair : Type := MkDMSPair
  { latitude : DMS;
    longitude : DMS }.

(** The double-quote character of the formatted string. *)
Definition dquote : string := String (ascii_of_nat 34) EmptyString.

(** The degree sign, as its UTF-8 bytes. *)
Definition degreeSign : string :=
  String (ascii_of_nat 194) (String (ascii_of_nat 176) EmptyString).

Section Arithmetic.

(** Rounding of an arithmetic result to a Number. *)
Variable fl : Q -> Q.

Definition toDMS (decimal : Q) (isLat : bool) : DMS :=
  let absolute := Qabs decimal in
  let degrees := Qfloor absolute in
  let minutesDecimal := fl (fl (absolute - inject_Z degrees) * 60) in
  let minutes := Qfloor minutesDecimal in
  let seconds := toFixed 2 (fl (fl (minutesDecimal - inject_Z minutes) * 60)) in
  let direction :=
    if isLat
    then (if geb decimal 0 then "N" else "S")
    else (if geb decimal 0 then "E" else "W") in
  MkDMS degrees minutes seconds direction
    (pretty degrees +:+ degreeSign +:+ " " +:+ pretty minutes +:+ "' "
       +:+ Fixed_toString seconds +:+ dquote +:+ " " +:+ direction)%string.

Definition decimalToDMS (lat lng : Q) : DMSPair :=
  MkDMSPair (toDMS lat true) (toDMS lng false).

End Arithmetic.

(** Reading a DMS value back as decimal degrees: the sign comes from the
    direction letter. *)
Definition dmsToDecimal (d : DMS) : Q :=
  let magnitude :=
    inject_Z (degrees d) + inject_Z (minutes d) / 60
      + Fixed_value (seconds d) / 3600 in
  if (String.eqb (direction d) "S" || String.eqb (direction d) "W")%bool
  then - magnitude
  else magnitude.

(** One hundredth of an arcsecond, in degrees. *)
Definition centiArcsecond : Q := 1 # 360000.

(** The unit roundoff of double precision, [2^-53]. *)
Definition unitRoundoff : Q := Eval cbv in 1 # (2 ^ 53).

Record Hemisphere : Type := MkHemisphere
  { hemiLat : string;
    hemiLng : string }.

(** The climate band chosen by the chain of comparisons. *)
Definition locationType (lat : Q) : string :=
  if geb lat (133 # 2) then "Arctic region"
  else if leb lat (- (133 # 2)) then "Antarctic region"
  else if (geb lat (47 # 2) && leb lat (133 # 2))%bool then "Northern temperate zone"
  else if (geb lat (- (47 # 2)) && leb lat (47 # 2))%bool then "Tropical zone"
  else if (geb lat (- (133 # 2)) && leb lat (- (47 # 2)))%bool then "Southern temperate zone"
  else "Unknown area".

Definition seasonHint (lat : Q) (month : nat) : string :=
  let isNorthernSummer := ((3 <=? month)%nat && (month <=? 8)%nat)%bool in
  if geb lat 0
  then (if isNorthernSummer then "Northern hemisphere (summer)"
        else "Northern hemisphere (winter)")
  else (if isNorthernSummer then "Southern hemisphere (winter)"
        else "Southern hemisphere (summer)").

Record LocationInfo : Type := MkLocationInfo
  { decimal : Q * Q;
    dms : DMSPair;
    hemisphere : Hemisphere;
    locType : string;
    season : string;
    mapUrl : string;
    osmUrl : string;
    what3wordsUrl : string }.

Section Decipher.

Variable fl : Q -> Q.
(** [String(x)] for a Number. *)
Variable numberToString : Q -> string.
(** [new Date().getMonth()]. *)
Variable month : nat.

(** The value [decipherLocation] stores in [state.locationInfo]. *)
Definition decipherLocation (lat lng : Q) : LocationInfo :=
  let slat := numberToString lat in
  let slng := numberToString lng in
  MkLocationInfo (lat, lng)
    (decimalToDMS fl lat lng)
    (MkHemisphere (if geb lat 0 then "North" else "South")
                  (if geb lng 0 then "East" else "West"))
    (locationType lat)
    (seasonHint lat month)
    ("https://www.google.com/maps?q=" +:+ slat +:+ "," +:+ slng)%string
    ("https://www.openstreetmap.org/?mlat=" +:+ slat +:+ "&mlon=" +:+ slng
       +:+ "#map=16/" +:+ slat +:+ "/" +:+ slng)%string
    ("https://map.what3words.com/?lat=" +:+ slat +:+ "&lng=" +:+ slng)%string.

End Decipher.

(** The band and the side of the equator that a label of [locationType]
    names. *)
Inductive Band : Type := Polar | Temperate | Tropical.
Inductive Side : Type := North | South | Equatorial.

Definition bandOf (label : string) : option (Band * Side) :=
  if String.eqb label "Arctic region" then Some (Polar, North)
  else if String.eqb label "Antarctic region" then Some (Polar, South)
  else if String.eqb label "Northern temperate zone" then Some (Temperate, North)
  else if String.eqb label "Southern temperate zone" then Some (Temperate, South)
  else if String.eqb label "Tropical zone" then Some (Tropical, Equatorial)
  else None.

Definition mirrorSide (s : Side) : Side :=
  match s with
  | North => South
  | South => North
  | Equatorial => Equatorial
  end.

Definition mirror (z : option (Band * Side)) : option (Band * Side) :=
  match z with
  | Some (b, s) => Some (b, mirrorSide s)
  | None => None
  end.

(** The classification the specification words: by absolute latitude. *)
Definition bandBySpec (lat : Q) : Band :=
  if geb (Qabs lat) (133 # 2) then Polar
  else if geb (Qabs lat) (47 # 2) then Temperate
  else Tropical.

End Geo.

(* ===================================================================== *)
(** ** Data model: settings, position fixes, photo and log records *)
(* ===================================================================== *)

Module Model.
Import Js.

Record Settings : Type := MkSettings
  { watermarkEnabled : bool;
    coordsOnImage : bool;
    timestampOnImage : bool;
    autoSave : bool;
    fullResolution : bool;
    showLocationDecipher : bool;
    projectName : string;
    operatorName : string }.

(** [position.coords] of a fix delivered by the location source. *)
Record Coords : Type := MkCoords
  { latitude : Q;
    longitude : Q;
    accuracy : OptNum;
    altitude : OptNum;
    heading : OptNum;
    speed : OptNum }.

(** The [location] object of a photo. *)
Record PhotoLocation : Type := MkPhotoLocation
  { locLatitude : Q;
    locLongitude : Q;
    locAccuracy : OptNum;
    locAltitude : OptNum;
    locHeading : OptNum;
    locSpeed : OptNum;
    locDms : option Geo.DMSPair }.

(** The [locationDecipher] object of a photo. *)
Record Decipher : Type := MkDecipher
  { decHemisphere : Geo.Hemisphere;
    decLocationType : string;
    decSeasonHint : string;
    decMapUrl : string }.

Record Photo : Type := MkPhoto
  { photoId : string;
    photoSessionId : string;
    imageData : string;
    imageWidth : Q;
    imageHeight : Q;
    fileSizeKB : Z;
    quality : string;
    photoTimestamp : string;
    photoTimestampLocal : string;
    photoTimezone : string;
    location : option PhotoLocation;
    photoAddress : string;
    locationDecipher : option Decipher;
    device : string;
    photoSettings : Settings;
    photoProjectName : string;
    photoOperatorName : string }.

Record Log : Type := MkLog
  { logId : string;
    logTimestamp : string;
    logTimestampLocal : string;
    logTimezone : string;
    logLatitude : OptNum;
    logLongitude : OptNum;
    logAccuracy : OptNum;
    logAltitude : OptNum;
    logAddress : string;
    logSessionId : string;
    logProjectName : string;
    logOperatorName : string }.

(** The media stream held in [state.stream]: the settings of its video
    track, either of which may be missing. *)
Record Stream : Type := MkStream
  { trackWidth : OptNum;
    trackHeight : OptNum }.

(** The [state] object. *)
Record State : Type := MkState
  { stream : option Stream;
    facingMode : string;
    position : option Coords;
    photos : list Photo;
    logs : list Log;
    sessionId : string;
    settings : Settings;
    currentPreview : option Photo;
    detailsExpanded : bool;
    locationInfo : option Geo.LocationInfo }.

Definition withPhotos (ps : list Photo) (s : State) : State :=
  MkState (stream s) (facingMode s) (position s) ps (logs s) (sessionId s)
    (settings s) (currentPreview s) (detailsExpanded s) (locationInfo s).

Definition withLogs (ls : list Log) (s : State) : State :=
  MkState (stream s) (facingMode s) (position s) (photos s) ls (sessionId s)
    (settings s) (currentPreview s) (detailsExpanded s) (locationInfo s).

Definition withFix (c : Coords) (info : Geo.LocationInfo) (s : State) : State :=
  MkState (stream s) (facingMode s) (Some c) (photos s) (logs s) (sessionId s)
    (settings s) (currentPreview s) (detailsExpanded s) (Some info).

(** [photo.location?.f]: undefined when the photo has no location. *)
Definition locationField (f : PhotoLocation -> OptNum) (p : Photo) : OptNum :=
  match location p with
  | Some l => f l
  | None => Undefined
  end.

End Model.

(* ===================================================================== *)
(** ** The timer queue and the debounced reverse geocoder *)
(* ===================================================================== *)

Module Timers.

(** A pending [setTimeout]: the callback of [reverseGeocode] closes over
    the coordinates it will look up. *)
Record Timer : Type := MkTimer
  { timerId : nat;
    due : Z;
    target : Q * Q }.

(** The event loop as the geocoder sees it: the clock in milliseconds, the
    pending timers, the module variable [geocodeTimeout], and the lookups
    sent to the geocoding service so far, oldest first. *)
Record Loop : Type := MkLoop
  { clock : Z;
    nextId : nat;
    pending : list Timer;
    geocodeTimeout : option nat;
    requests : list (Q * Q) }.

Definition idle : Loop := MkLoop 0 1 [] None [].

Definition geocodeDelay : Z := 1000.

Definition clearTimeout (handle : option nat) (l : Loop) : Loop :=
  match handle with
  | None => l
  | Some id =>
      MkLoop (clock l) (nextId l)
        (List.filter (fun t => negb (Nat.eqb (timerId t) id)) (pending l))
        (geocodeTimeout l) (requests l)
  end.

Definition setTimeout (tgt : Q * Q) (delay : Z) (l : Loop) : nat * Loop :=
  (nextId l,
   MkLoop (clock l) (S (nextId l))
     (pending l ++ [MkTimer (nextId l) (clock l + delay) tgt])
     (geocodeTimeout l) (requests l)).

(** [reverseGeocode(lat, lng)]: cancel the pending lookup, schedule this
    one. *)
Definition reverseGeocode (lat lng : Q) (l : Loop) : Loop :=
  let l1 := clearTimeout (geocodeTimeout l) l in
  let '(id, l2) := setTimeout (lat, lng) geocodeDelay l1 in
  MkLoop (clock l2) (nextId l2) (pending l2) (Some id) (requests l2).

(** Timers fire in order of due time, and of creation among equal ones. *)
Fixpoint insertTimer (t : Timer) (ts : list Timer) : list Timer :=
  match ts with
  | [] => [t]
  | t' :: rest =>
      if (due t <? due t')%Z then t :: ts
      else if ((due t =? due t')%Z && Nat.ltb (timerId t) (timerId t'))%bool then t :: ts
      else t' :: insertTimer t rest
  end.

Definition firingOrder (ts : list Timer) : list Timer :=
  fold_right insertTimer [] ts.

(** Let the clock reach [t]: every timer due by then runs its callback,
    which sends the lookup for the coordinates it closed over. *)
Definition advanceTo (t : Z) (l : Loop) : Loop :=
  let fired := firingOrder (List.filter (fun x => (due x <=? t)%Z) (pending l)) in
  MkLoop (Z.max (clock l) t) (nextId l)
    (List.filter (fun x => (t <? due x)%Z) (pending l))
    (geocodeTimeout l)
    (requests l ++ map target fired).

(** A fix arriving at time [t]. *)
Definition fixAt (t : Z) (lat lng : Q) (l : Loop) : Loop :=
  reverseGeocode lat lng (advanceTo t l).

(** A run of fixes, each given with its arrival time, oldest first. *)
Definition fixesAt (fs : list (Z * (Q * Q))) (l : Loop) : Loop :=
  fold_left (fun acc f => fixAt (fst f) (fst (snd f)) (snd (snd f)) acc) fs l.

(** Each fix of the run arrives before the delay started by the previous
    one (the first: by the arrival at [t0]) has run out. *)
Fixpoint burst (t0 : Z) (fs : list (Z * (Q * Q))) : Prop :=
  match fs with
  | [] => True
  | f :: rest => (t0 <= fst f < t0 + geocodeDelay)%Z /\ burst (fst f) rest
  end.

(** The first revision of the script looked every fix up at once. *)
Definition reverseGeocodeImmediate (lat lng : Q) (l : Loop) : Loop :=
  MkLoop (clock l) (nextId l) (pending l) (geocodeTimeout l)
    (requests l ++ [(lat, lng)]).

End Timers.

(* ===================================================================== *)
(** ** The capture canvas *)
(* ===================================================================== *)

Module Canvas.

(** The [font] property, kept as its parts: [bold NNpx family]. *)
Record Font : Type := MkFont
  { bold : bool;
    sizePx : Q;
    family : string }.

(** What has been painted, each operation with the context properties in
    effect when it ran. *)
Inductive DrawOp : Type :=
  | DrawImage (frame : nat) (x y w h : Q)
  | FillRect (style : string) (x y w h : Q)
  | FillText (font : Font) (style align baseline text : string) (x y : Q)
  | Stroke (style : string) (width : Q) (path : list (Q * Q)).

Record Ctx : Type := MkCtx
  { fillStyle : string;
    font : Font;
    textAlign : string;
    textBaseline : string;
    strokeStyle : string;
    lineWidth : Q;
    path : list (Q * Q);
    ops : list DrawOp }.

(** The context of a canvas whose size has just been assigned: cleared,
    every property at its default. *)
Definition fresh : Ctx :=
  MkCtx "#000000" (MkFont false 10 "sans-serif") "start" "alphabetic"
    "#000000" 1 [] [].

Definition setFillStyle (s : string) (c : Ctx) : Ctx :=
  MkCtx s (font c) (textAlign c) (textBaseline c) (strokeStyle c) (lineWidth c) (path c) (ops c).
Definition setFont (f : Font) (c : Ctx) : Ctx :=
  MkCtx (fillStyle c) f (textAlign c) (textBaseline c) (strokeStyle c) (lineWidth c) (path c) (ops c).
Definition setTextAlign (s : string) (c : Ctx) : Ctx :=
  MkCtx (fillStyle c) (font c) s (textBaseline c) (strokeStyle c) (lineWidth c) (path c) (ops c).
Definition setTextBaseline (s : string) (c : Ctx) : Ctx :=
  MkCtx (fillStyle c) (font c) (textAlign c) s (strokeStyle c) (lineWidth c) (path c) (ops c).
Definition setStrokeStyle (s : string) (c : Ctx) : Ctx :=
  MkCtx (fillStyle c) (font c) (textAlign c) (textBaseline c) s (lineWidth c) (path c) (ops c).
Definition setLineWidth (w : Q) (c : Ctx) : Ctx :=
  MkCtx (fillStyle c) (font c) (textAlign c) (textBaseline c) (strokeStyle c) w (path c) (ops c).
Definition setPath (p : list (Q * Q)) (c : Ctx) : Ctx :=
  MkCtx (fillStyle c) (font c) (textAlign c) (textBaseline c) (strokeStyle c) (lineWidth c) p (ops c).
Definition paint (o : DrawOp) (c : Ctx) : Ctx :=
  MkCtx (fillStyle c) (font c) (textAlign c) (textBaseline c) (strokeStyle c) (lineWidth c) (path c)
    (ops c ++ [o]).

Definition drawImage (frame : nat) (x y w h : Q) (c : Ctx) : Ctx :=
  paint (DrawImage frame x y w h) c.
Definition fillRect (x y w h : Q) (c : Ctx) : Ctx :=
  paint (FillRect (fillStyle c) x y w h) c.
Definition fillText (text : string) (x y : Q) (c : Ctx) : Ctx :=
  paint (FillText (font c) (fillStyle c) (textAlign c) (textBaseline c) text x y) c.
Definition beginPath (c : Ctx) : Ctx := setPath [] c.
Definition moveTo (x y : Q) (c : Ctx) : Ctx := setPath (path c ++ [(x, y)]) c.
Definition lineTo (x y : Q) (c : Ctx) : Ctx := setPath (path c ++ [(x, y)]) c.
Definition stroke (c : Ctx) : Ctx :=
  paint (Stroke (strokeStyle c) (lineWidth c) (path c)) c.

(** The canvas element: its size and its 2d context. *)
Record Canvas : Type := MkCanvas
  { width : Q;
    height : Q;
    ctx : Ctx }.

End Canvas.

(* ===================================================================== *)
(** ** The application: record store, compositor, capture, export *)
(* ===================================================================== *)

Module App.
Import Js Model.

(** A value under a localStorage key: the collection that was serialized
    into it. *)
Inductive Stored : Type :=
  | StoredPhotos (ps : list Photo)
  | StoredLogs (ls : list Log)
  | StoredSettings (s : Settings).

(** One call of [localStorage.setItem]: what was written where, and the
    name of the error it raised, if any. *)
Record Attempt : Type := MkAttempt
  { key : string;
    value : Stored;
    rejection : option string }.

Definition PHOTOS_KEY : string := "tracecam-photos".
Definition LOGS_KEY : string := "tracecam-logs".
Definition SETTINGS_KEY : string := "tracecam-settings".

(** Services of the host. *)
Record Host : Type := MkHost
  { (** whether [setItem] raises on this write, and the error name *)
    quotaPolicy : gmap string Stored -> string -> Stored -> option string;
    (** [canvas.toDataURL('image/jpeg', quality)] *)
    toDataURL : Canvas.Canvas -> Q -> string;
    (** [String(x)] for a Number *)
    numberToString : Q -> string;
    (** rounding of an arithmetic result to a Number *)
    fl : Q -> Q;
    (** [new Date().getMonth()] *)
    month : nat;
    (** whether [navigator.vibrate] exists *)
    canVibrate : bool }.

(** What one capture reads from the host: the video frame and the size of
    the video element, the clock readings, the two parts of the new id, and
    the device label. *)
Record Shot : Type := MkShot
  { frame : nat;
    videoWidth : Q;
    videoHeight : Q;
    overlayLocal : string;
    overlayISO : string;
    recordISO : string;
    recordLocal : string;
    timeZone : string;
    idTimestamp : string;
    idRandom : string;
    deviceInfo : string }.

Inductive Effect : Type :=
  | Toast (message kind : string)
  | ConsoleError (message : string)
  | Flash
  | SaveToDevice (p : Photo)
  | Vibrate
  | Download (filename content : string).

(** Everything the script can read or change. *)
Record World : Type := MkWorld
  { app : State;
    localStorage : gmap string Stored;
    attempts : list Attempt;
    addressText : string;
    canvas : Canvas.Canvas;
    timers : Timers.Loop;
    effects : list Effect }.

Definition withApp (s : State) (w : World) : World :=
  MkWorld s (localStorage w) (attempts w) (addressText w) (canvas w) (timers w) (effects w).
Definition withStorage (m : gmap string Stored) (a : Attempt) (w : World) : World :=
  MkWorld (app w) m (attempts w ++ [a]) (addressText w) (canvas w) (timers w) (effects w).
Definition withAddress (s : string) (w : World) : World :=
  MkWorld (app w) (localStorage w) (attempts w) s (canvas w) (timers w) (effects w).
Definition withCanvas (c : Canvas.Canvas) (w : World) : World :=
  MkWorld (app w) (localStorage w) (attempts w) (addressText w) c (timers w) (effects w).
Definition withTimers (l : Timers.Loop) (w : World) : World :=
  MkWorld (app w) (localStorage w) (attempts w) (addressText w) (canvas w) l (effects w).
Definition emit (e : Effect) (w : World) : World :=
  MkWorld (app w) (localStorage w) (attempts w) (addressText w) (canvas w) (timers w)
    (effects w ++ [e]).

Definition showToast (message kind : string) (w : World) : World :=
  emit (Toast message kind) w.

(** How a statement ends: normally, or by raising an error. *)
Inductive Completion : Type :=
  | Normal (w : World)
  | Thrown (errorName : string) (w : World).

(** [localStorage.setItem(k, JSON.stringify(v))]. *)
Definition setItem (h : Host) (k : string) (v : Stored) (w : World) : Completion :=
  match quotaPolicy h (localStorage w) k v with
  | None => Normal (withStorage (<[k := v]> (localStorage w)) (MkAttempt k v None) w)
  | Some e => Thrown e (withStorage (localStorage w) (MkAttempt k v (Some e)) w)
  end.

Definition savePhotos (h : Host) (w : World) : Completion :=
  let photosToSave := take 50 (photos (app w)) in
  match setItem h PHOTOS_KEY (StoredPhotos photosToSave) w with
  | Normal w1 => Normal w1
  | Thrown error w1 =>
      let w2 := emit (ConsoleError "Failed to save photos:") w1 in
      if String.eqb error "QuotaExceededError"
      then
        let w3 := withApp (withPhotos (take 20 (photos (app w2))) (app w2)) w2 in
        setItem h PHOTOS_KEY (StoredPhotos (photos (app w3))) w3
      else Normal w2
  end.

Definition saveLogs (h : Host) (w : World) : World :=
  match setItem h LOGS_KEY (StoredLogs (logs (app w))) w with
  | Normal w1 => w1
  | Thrown _ w1 => emit (ConsoleError "Failed to save logs:") w1
  end.

(** Loading at startup: a missing value, or one that does not parse to the
    collection, leaves the collection as it is. *)
Definition loadPhotos (w : World) : World :=
  match localStorage w !! PHOTOS_KEY with
  | Some (StoredPhotos ps) => withApp (withPhotos ps (app w)) w
  | _ => w
  end.

Definition loadLogs (w : World) : World :=
  match localStorage w !! LOGS_KEY with
  | Some (StoredLogs ls) => withApp (withLogs ls (app w)) w
  | _ => w
  end.

(** The log entry [addLog] derives from a photo. *)
Definition logOf (photo : Photo) : Log :=
  MkLog (photoId photo) (photoTimestamp photo) (photoTimestampLocal photo)
    (photoTimezone photo)
    (locationField (fun l => Num (locLatitude l)) photo)
    (locationField (fun l => Num (locLongitude l)) photo)
    (locationField locAccuracy photo)
    (locationField locAltitude photo)
    (photoAddress photo) (photoSessionId photo)
    (photoProjectName photo) (photoOperatorName photo).

Definition addLog (h : Host) (photo : Photo) (w : World) : World :=
  let log := logOf photo in
  saveLogs h (withApp (withLogs (log :: logs (app w)) (app w)) w).

(** The store's append of a photo: the two statements of [capturePhoto]
    under its comment on saving the photo. *)
Definition appendPhoto (h : Host) (photo : Photo) (w : World) : Completion :=
  savePhotos h (withApp (withPhotos (photo :: photos (app w)) (app w)) w).

(** The first revision of [savePhotos] had no quota fallback. *)
Definition savePhotosNoFallback (h : Host) (w : World) : World :=
  match setItem h PHOTOS_KEY (StoredPhotos (take 50 (photos (app w)))) w with
  | Normal w1 => w1
  | Thrown _ w1 => emit (ConsoleError "Failed to save photos:") w1
  end.

(** [Math.max(a, b)]. *)
Definition mathMax (a b : Q) : Q := if Qle_bool a b then b else a.

(** [accuracy?.toFixed(0) || '?']: the digits are never the empty string. *)
Definition accuracyLabel (a : OptNum) : string :=
  match a with
  | Num q => Fixed_toString (toFixed 0 q)
  | _ => "?"
  end.

(** The overlay pass over the captured frame.  It reads the settings and
    the latest fix from [state]. *)
Definition addMetadataOverlay (shot : Shot) (st : State) (width height : Q)
    (c0 : Canvas.Ctx) : Canvas.Ctx :=
  let scale := height / 1080 in
  let padding := 20 * scale in
  let fontSize := mathMax 14 (18 * scale) in
  let lineHeight := fontSize * (16 # 10) in
  (* semi-transparent background at the bottom *)
  let bgHeight := lineHeight * 4 in
  let c1 := Canvas.setFillStyle "rgba(0, 0, 0, 0.6)" c0 in
  let c2 := Canvas.fillRect 0 (height - bgHeight) width bgHeight c1 in
  (* text settings *)
  let c3 := Canvas.setFont (Canvas.MkFont false fontSize "monospace") c2 in
  let c4 := Canvas.setFillStyle "white" c3 in
  let c5 := Canvas.setTextBaseline "bottom" c4 in
  let y0 := height - padding in
  (* timestamp *)
  let '(c6, y1) :=
    if timestampOnImage (settings st)
    then
      let a := Canvas.fillText
                 ("📅 " +:+ overlayLocal shot +:+ " (" +:+ timeZone shot +:+ ")")%string
                 padding y0 c5 in
      let b := Canvas.fillText ("UTC: " +:+ overlayISO shot)%string
                 padding (y0 - lineHeight) a in
      (b, y0 - lineHeight - lineHeight)
    else (c5, y0) in
  (* coordinates *)
  let c7 :=
    match coordsOnImage (settings st), position st with
    | true, Some p =>
        Canvas.fillText
          ("📍 " +:+ Fixed_toString (toFixed 6 (latitude p)) +:+ ", "
             +:+ Fixed_toString (toFixed 6 (longitude p))
             +:+ " (±" +:+ accuracyLabel (accuracy p) +:+ "m)")%string
          padding y1 c6
    | _, _ => c6
    end in
  (* watermark, big and prominent *)
  if watermarkEnabled (settings st)
  then
    let watermarkFontSize := fontSize * (25 # 10) in
    let watermarkBarHeight := watermarkFontSize * (18 # 10) in
    let d1 := Canvas.setFillStyle "rgba(0, 0, 0, 0.7)" c7 in
    let d2 := Canvas.fillRect 0 0 width watermarkBarHeight d1 in
    let d3 := Canvas.setFont (Canvas.MkFont true watermarkFontSize "sans-serif") d2 in
    let d4 := Canvas.setFillStyle "rgba(255, 255, 255, 0.95)" d3 in
    let d5 := Canvas.setTextAlign "center" d4 in
    let d6 := Canvas.setTextBaseline "middle" d5 in
    let d7 := Canvas.fillText "📍 TraceCam" (width / 2) (watermarkBarHeight / 2) d6 in
    let d8 := Canvas.setStrokeStyle "rgba(16, 185, 129, 0.8)" d7 in
    let d9 := Canvas.setLineWidth (3 * scale) d8 in
    let d10 := Canvas.beginPath d9 in
    let d11 := Canvas.moveTo (width * (3 # 10)) (watermarkBarHeight - 5) d10 in
    let d12 := Canvas.lineTo (width * (7 # 10)) (watermarkBarHeight - 5) d11 in
    let d13 := Canvas.stroke d12 in
    let d14 := Canvas.setTextAlign "left" d13 in
    Canvas.setTextBaseline "bottom" d14
  else c7.

Definition generatePhotoId (shot : Shot) : string :=
  ("IMG-" +:+ idTimestamp shot +:+ "-" +:+ idRandom shot)%string.

(** [v || d] with [v] a track setting and [d] a Number. *)
Definition numOr (v : OptNum) (d : Q) : Q :=
  match v with
  | Num q => if truthyNum v then q else d
  | _ => d
  end.

Definition qOr (a d : Q) : Q := if Qeq_bool a 0 then d else a.

(** The frame as composed on the capture canvas. *)
Definition compose (shot : Shot) (s : Stream) (st : State) : Canvas.Canvas :=
  let actualWidth := numOr (trackWidth s) (qOr (videoWidth shot) 1920) in
  let actualHeight := numOr (trackHeight s) (qOr (videoHeight shot) 1080) in
  let c0 := Canvas.drawImage (frame shot) 0 0 actualWidth actualHeight Canvas.fresh in
  let c1 :=
    if (timestampOnImage (settings st) || coordsOnImage (settings st))%bool
    then addMetadataOverlay shot st actualWidth actualHeight c0
    else c0 in
  Canvas.MkCanvas actualWidth actualHeight c1.

Definition encodeQuality (st : State) : Q :=
  if fullResolution (settings st) then 1 else 85 # 100.

(** The photo record assembled from the composed canvas. *)
Definition makePhoto (h : Host) (shot : Shot) (w : World) (cv : Canvas.Canvas) : Photo :=
  let st := app w in
  let quality := encodeQuality st in
  let imageData := toDataURL h cv quality in
  let fileSizeKB :=
    roundHalfUp (inject_Z (Z.of_nat (String.length imageData)) * 3 / 4 / 1024) in
  MkPhoto (generatePhotoId shot) (sessionId st) imageData
    (Canvas.width cv) (Canvas.height cv) fileSizeKB
    (if Qeq_bool quality 1 then "Full" else "High")
    (recordISO shot) (recordLocal shot) (timeZone shot)
    (match position st with
     | Some p =>
         Some (MkPhotoLocation (latitude p) (longitude p) (accuracy p)
                 (altitude p) (heading p) (speed p)
                 (match locationInfo st with
                  | Some info => Some (Geo.dms info)
                  | None => None
                  end))
     | None => None
     end)
    (addressText w)
    (match locationInfo st with
     | Some info =>
         Some (MkDecipher (Geo.hemisphere info) (Geo.locType info)
                 (Geo.season info) (Geo.mapUrl info))
     | None => None
     end)
    (deviceInfo shot) (settings st)
    (projectName (settings st)) (operatorName (settings st)).

(** How a capture attempt ended. *)
Inductive Outcome : Type :=
  | NotReady
  | Recorded (photo : Photo)
  | Aborted (photo : Photo) (errorName : string).

Definition capturePhoto (h : Host) (shot : Shot) (w : World) : Outcome * World :=
  match stream (app w) with
  | None => (NotReady, showToast "Camera not ready" "error" w)
  | Some s =>
      let cv := compose shot s (app w) in
      let w1 := emit Flash (withCanvas cv w) in
      let photo := makePhoto h shot w1 cv in
      match appendPhoto h photo w1 with
      | Thrown e w2 => (Aborted photo e, w2)
      | Normal w2 =>
          let w3 := addLog h photo w2 in
          let resInfo :=
            (numberToString h (Canvas.width cv) +:+ "×"
               +:+ numberToString h (Canvas.height cv))%string in
          let w4 :=
            if autoSave (settings (app w3))
            then emit (SaveToDevice photo) w3
            else showToast ("Photo captured! 📸 (" +:+ resInfo +:+ ")")%string
                   "success" w3 in
          (Recorded photo, if canVibrate h then emit Vibrate w4 else w4)
      end
  end.

(** The outcome of a lookup: a reply, which may or may not carry a display
    name, or a failure of the request. *)
Inductive GeocodeReply : Type :=
  | Reply (displayName : option string)
  | Failed.

(** The end of the timer callback of [reverseGeocode]: what it writes into
    the address element. *)
Definition onGeocodeReply (r : GeocodeReply) (w : World) : World :=
  match r with
  | Reply (Some name) =>
      match name with
      | EmptyString => w
      | _ => withAddress name w
      end
  | Reply None => w
  | Failed => withAddress "Address unavailable" w
  end.

(** A fix from the location source. *)
Definition updatePosition (h : Host) (c : Coords) (w : World) : World :=
  let info :=
    Geo.decipherLocation (fl h) (numberToString h) (month h)
      (latitude c) (longitude c) in
  let w1 := withApp (withFix c info (app w)) w in
  withTimers (Timers.reverseGeocode (latitude c) (longitude c) (timers w1)) w1.

(** *** CSV export of the log collection *)

Definition headers : list string :=
  [ "ID"; "Timestamp (UTC)"; "Timestamp (Local)"; "Timezone";
    "Latitude"; "Longitude"; "Accuracy (m)"; "Altitude (m)";
    "Address"; "Session ID"; "Project"; "Operator" ].

Definition quoteChar : ascii := ascii_of_nat 34.
Definition newline : string := String (ascii_of_nat 10) EmptyString.

(** [s.replace(/quote/g, two quotes)]. *)
Fixpoint doubleQuotes (s : string) : string :=
  match s with
  | EmptyString => EmptyString
  | String c rest =>
      if Ascii.eqb c quoteChar
      then String quoteChar (String quoteChar (doubleQuotes rest))
      else String c (doubleQuotes rest)
  end.

Definition quoted (s : string) : string :=
  String quoteChar (doubleQuotes s +:+ String quoteChar EmptyString).

(** The array [exportLogs] builds for one log. *)
Definition row (log : Log) : list Cell :=
  [ CStr (logId log);
    CStr (logTimestamp log);
    CStr (logTimestampLocal log);
    CStr (logTimezone log);
    numOrEmpty (logLatitude log);
    numOrEmpty (logLongitude log);
    numOrEmpty (logAccuracy log);
    numOrEmpty (logAltitude log);
    CStr (quoted (strOrEmpty (logAddress log)));
    CStr (logSessionId log);
    CStr (strOrEmpty (logProjectName log));
    CStr (strOrEmpty (logOperatorName log)) ].

(** What [join] makes of an element. *)
Definition cellText (h : Host) (c : Cell) : string :=
  match c with
  | CNum q => numberToString h q
  | CStr s => s
  end.

Definition joinRow (h : Host) (r : list Cell) : string :=
  String.concat "," (map (cellText h) r).

(** The lines of the file: the header line, then one line per row. *)
Definition csvLines (h : Host) (ls : list Log) : list string :=
  String.concat "," headers :: map (joinRow h) (map row ls).

Definition csvOf (h : Host) (ls : list Log) : string :=
  String.concat newline (csvLines h ls).

(** [today] is the date part of [new Date().toISOString()]. *)
Definition exportLogs (h : Host) (today : string) (w : World) : World :=
  match logs (app w) with
  | [] => showToast "No logs to export" "error" w
  | ls =>
      let w1 := emit (Download ("tracecam-logs-" +:+ today +:+ ".csv")%string
                        (csvOf h ls)) w in
      showToast "Logs exported!" "success" w1
  end.

End App.

(* ===================================================================== *)
(** ** Reading the export back *)
(* ===================================================================== *)

(** A reader of one CSV record in the usual convention: fields are
    separated by commas; a field that opens with a quote runs to its
    closing quote, and two quotes inside it stand for one. *)
Module Csv.

Inductive Mode : Type :=
  | FieldStart
  | Bare
  | InQuotes
  | QuoteSeen.

Definition comma : ascii := ascii_of_nat 44.

Definition snoc (s : string) (c : ascii) : string :=
  (s +:+ String c EmptyString)%string.

Fixpoint scan (m : Mode) (cur : string) (s : string) : list string :=
  match s with
  | EmptyString => [cur]
  | String c rest =>
      match m with
      | FieldStart =>
          if Ascii.eqb c App.quoteChar then scan InQuotes cur rest
          else if Ascii.eqb c comma then cur :: scan FieldStart EmptyString rest
          else scan Bare (snoc cur c) rest
      | Bare =>
          if Ascii.eqb c comma then cur :: scan FieldStart EmptyString rest
          else scan Bare (snoc cur c) rest
      | InQuotes =>
          if Ascii.eqb c App.quoteChar then scan QuoteSeen cur rest
          else scan InQuotes (snoc cur c) rest
      | QuoteSeen =>
          if Ascii.eqb c App.quoteChar then scan InQuotes (snoc cur c) rest
          else if Ascii.eqb c comma then cur :: scan FieldStart EmptyString rest
          else scan Bare (snoc cur c) rest
      end
  end.

Definition readRow (line : string) : list string :=
  scan FieldStart EmptyString line.

(** A text that can stand unquoted in a record: no comma in it, and no
    quote either. *)
Fixpoint plain (s : string) : bool :=
  match s with
  | EmptyString => true
  | String c rest =>
      (negb (Ascii.eqb c comma) && negb (Ascii.eqb c App.quoteChar) && plain rest)%bool
  end.

(** The lines of a text, as [text.split] on the newline gives them. *)
Definition lineFeed : ascii := ascii_of_nat 10.

Fixpoint splitLines (cur : string) (s : string) : list string :=
  match s with
  | EmptyString => [cur]
  | String c rest =>
      if Ascii.eqb c lineFeed then cur :: splitLines EmptyString rest
      else splitLines (snoc cur c) rest
  end.

Definition lines (text : string) : list string := splitLines EmptyString text.

(** A text on one line. *)
Fixpoint oneLine (s : string) : bool :=
  match s with
  | EmptyString => true
  | String c rest => (negb (Ascii.eqb c lineFeed) && oneLine rest)%bool
  end.

End Csv.

(* ===================================================================== *)
(** ** Observations on runs of the script *)
(* ===================================================================== *)

Module Observe.
Import Js Model App.

(** The world a statement leaves behind, however it ended. *)
Definition worldOf (c : Completion) : World :=
  match c with
  | Normal w => w
  | Thrown _ w => w
  end.

(** Appending photos one after the other, oldest first. *)
Fixpoint appendAll (h : Host) (ps : list Photo) (w : World) : World :=
  match ps with
  | [] => w
  | p :: rest => appendAll h rest (worldOf (appendPhoto h p w))
  end.

(** A host whose store accepts every write. *)
Definition accepting (h : Host) : Prop :=
  forall m k v, quotaPolicy h m k v = None.

(** The three parts of the watermark banner among the painted operations:
    the backing band across the top, the bold brand text, the accent line. *)
Definition isBand (o : Canvas.DrawOp) : bool :=
  match o with
  | Canvas.FillRect style x y _ _ =>
      (String.eqb style "rgba(0, 0, 0, 0.7)" && Qeq_bool x 0 && Qeq_bool y 0)%bool
  | _ => false
  end.

Definition isBrandText (o : Canvas.DrawOp) : bool :=
  match o with
  | Canvas.FillText f _ _ _ text _ _ =>
      (Canvas.bold f && String.eqb text "📍 TraceCam")%bool
  | _ => false
  end.

Definition isAccentLine (o : Canvas.DrawOp) : bool :=
  match o with
  | Canvas.Stroke style _ _ => String.eqb style "rgba(16, 185, 129, 0.8)"
  | _ => false
  end.

Definition hasBanner (cv : Canvas.Canvas) : bool :=
  let painted := Canvas.ops (Canvas.ctx cv) in
  (existsb isBand painted && existsb isBrandText painted
     && existsb isAccentLine painted)%bool.

(** The font size of the metadata lines for a frame of a given height. *)
Definition metadataFontSize (height : Q) : Q :=
  mathMax 14 (18 * (height / 1080)).

(** The banner as painted on a frame of a given size: a band across the
    top, the brand text in bold at two and a half times the size of the
    metadata lines, and an accent line under it. *)
Definition banner (width height : Q) : list Canvas.DrawOp :=
  let scale := height / 1080 in
  let size := metadataFontSize height * (25 # 10) in
  let bar := size * (18 # 10) in
  [ Canvas.FillRect "rgba(0, 0, 0, 0.7)" 0 0 width bar;
    Canvas.FillText (Canvas.MkFont true size "sans-serif")
      "rgba(255, 255, 255, 0.95)" "center" "middle" "📍 TraceCam"
      (width / 2) (bar / 2);
    Canvas.Stroke "rgba(16, 185, 129, 0.8)" (3 * scale)
      [(width * (3 # 10), bar - 5); (width * (7 # 10), bar - 5)] ].

(** The log a capture writes when the photo has no location. *)
Definition withoutFix (l : Log) : Log :=
  MkLog (logId l) (logTimestamp l) (logTimestampLocal l) (logTimezone l)
    Undefined Undefined Undefined Undefined
    (logAddress l) (logSessionId l) (logProjectName l) (logOperatorName l).

(** A Number-valued property that holds zero. *)
Definition zeroNum (v : OptNum) : Prop :=
  match v with
  | Num q => q == 0
  | _ => False
  end.

(** The twelve values a row is meant to carry, as texts. *)
Definition fieldsOf (h : Host) (l : Log) : list string :=
  [ logId l; logTimestamp l; logTimestampLocal l; logTimezone l;
    cellText h (numOrEmpty (logLatitude l));
    cellText h (numOrEmpty (logLongitude l));
    cellText h (numOrEmpty (logAccuracy l));
    cellText h (numOrEmpty (logAltitude l));
    logAddress l; logSessionId l; logProjectName l; logOperatorName l ].

(** The eleven texts a row writes as they are, without quoting. *)
Definition unquotedTexts (h : Host) (l : Log) : list string :=
  [ logId l; logTimestamp l; logTimestampLocal l; logTimezone l;
    cellText h (numOrEmpty (logLatitude l));
    cellText h (numOrEmpty (logLongitude l));
    cellText h (numOrEmpty (logAccuracy l));
    cellText h (numOrEmpty (logAltitude l));
    logSessionId l; logProjectName l; logOperatorName l ].

End Observe.

(* ===================================================================== *)
(** ** Sample hosts and records *)
(* ===================================================================== *)

Module Sample.
Import Js Model App.

(** A store with room for everything. *)
Definition roomy : gmap string Stored -> string -> Stored -> option string :=
  fun _ _ _ => None.

(** A store that has room for at most [n] photos and for any log. *)
Definition tight (n : nat) : gmap string Stored -> string -> Stored -> option string :=
  fun _ _ v =>
    match v with
    | StoredPhotos ps =>
        if (length ps <=? n)%nat then None else Some "QuotaExceededError"
    | _ => None
    end.

Definition encoder : Canvas.Canvas -> Q -> string :=
  fun _ _ => "data:image/jpeg;base64,AAAA".

(** Integers print as their digits; enough for the samples. *)
Definition printNumber (q : Q) : string := pretty (Qfloor q).

Definition host (policy : gmap string Stored -> string -> Stored -> option string) : Host :=
  MkHost policy encoder printNumber binary64 10 true.

Definition defaults : Settings :=
  MkSettings false true true true true true "" "".

Definition bannerOnly : Settings :=
  MkSettings true false false true true true "" "".

Definition initial (s : option Stream) (cfg : Settings) : State :=
  MkState s "environment" None [] [] "TC-MHJ2K4A0-7F3K" cfg None false None.

Definition world (st : State) : World :=
  MkWorld st ∅ [] "" (Canvas.MkCanvas 0 0 Canvas.fresh) Timers.idle [].

Definition camera : Stream := MkStream (Num 1920) (Num 1080).

Definition shot (n : nat) : Shot :=
  MkShot n 1920 1080 "11/2/2026, 9:45:00 PM" "2026-11-03T02:45:00.000Z"
    "2026-11-03T02:45:00.000Z" "11/2/2026, 9:45:00 PM" "America/New_York"
    "MHJ2K4A0" (pretty n) "Linux".

(** A log as a capture in an en-US locale writes it, without a fix. *)
Definition localeLog : Log :=
  MkLog "IMG-MHJ2K4A0-1" "2026-11-03T02:45:00.000Z" "11/2/2026, 9:45:00 PM"
    "America/New_York" Undefined Undefined Undefined Undefined
    "Main St" "TC-MHJ2K4A0-7F3K" "" "".

(** A log taken where the equator meets the prime meridian, at sea level,
    and the same capture with no fix. *)
Definition nullIsland : Log :=
  MkLog "IMG-MHJ2K4A0-2" "2026-11-03T02:45:00.000Z" "2026-11-03 02:45"
    "UTC" (Num 0) (Num 0) (Num 0) (Num 0) "" "TC-MHJ2K4A0-7F3K" "" "".

Definition photoNamed (id : string) : Photo :=
  MkPhoto id "TC-MHJ2K4A0-7F3K" "data:" 1920 1080 0 "Full" "" "" "UTC" None ""
    None "Linux" defaults "" "".

(** A batch of [n] photos, oldest first. *)
Definition batchOf (n : nat) : list Photo :=
  map (fun i => photoNamed (pretty i)) (seq 1 n).

Definition ready : World := world (initial (Some camera) defaults).

(** Watermark on, timestamp and coordinates off. *)
Definition brandedOnly : World := world (initial (Some camera) bannerOnly).

(** Watermark on, with the default timestamp and coordinate lines. *)
Definition branded : World :=
  world (initial (Some camera) (MkSettings true true true true true true "" "")).
Definition noCamera : World := world (initial None defaults).

(** The first capture of a session on a roomy store. *)
Definition firstCapture : Outcome * World :=
  capturePhoto (host roomy) (shot 1) ready.

Definition firstPhoto : Photo :=
  makePhoto (host roomy) (shot 1) ready (compose (shot 1) camera (app ready)).

(** A world holding twenty-one photos, on a store with room for twenty. *)
Definition crowded : World :=
  withApp (withPhotos (rev (batchOf 21)) (app ready)) ready.

End Sample.

(* ===================================================================== *)
(** ** Identifiers of sessions and photos *)
(* ===================================================================== *)

Module Ids.

(** The digit of [toString(36)] for a value below 36. *)
Definition digit36 (k : N) : ascii :=
  if (k <? 10)%N then ascii_of_N (48 + k) else ascii_of_N (87 + k).

(** The digits of [n], most significant first, in front of [acc]. *)
Fixpoint digits36 (fuel : nat) (n : N) (acc : string) : string :=
  match fuel with
  | O => acc
  | S f =>
      let acc' := String (digit36 (n mod 36)) acc in
      if (n / 36 =? 0)%N then acc' else digits36 f (n / 36) acc'
  end.

(** [n.toString(36)] for a non-negative integer: a number has no more
    digits in base 36 than in base 2. *)
Definition toString36 (n : N) : string :=
  digits36 (S (N.to_nat (N.log2 n))) n EmptyString.

Definition upper (c : ascii) : ascii :=
  let n := N_of_ascii c in
  if ((97 <=? n)%N && (n <=? 122)%N)%bool then ascii_of_N (n - 32) else c.

(** [s.toUpperCase()], on the letters of the ASCII range. *)
Fixpoint toUpperCase (s : string) : string :=
  match s with
  | EmptyString => EmptyString
  | String c rest => String (upper c) (toUpperCase rest)
  end.

(** [s.substring(i, j)] for [i <= j]. *)
Definition substring (i j : nat) (s : string) : string :=
  String.substring i (j - i) s.

(** The two parts of an id: [now] is [Date.now()], [random] is
    [Math.random().toString(36)]. *)
Definition stampOf (now : N) : string := toUpperCase (toString36 now).
Definition randomOf (len : nat) (random : string) : string :=
  toUpperCase (substring 2 (2 + len) random).

Definition generateSessionId (now : N) (random : string) : string :=
  ("TC-" +:+ stampOf now +:+ "-" +:+ randomOf 4 random)%string.

Definition generatePhotoId (now : N) (random : string) : string :=
  ("IMG-" +:+ stampOf now +:+ "-" +:+ randomOf 3 random)%string.

(** The value of a digit, and of a numeral in base 36. *)
Definition digitValue (c : ascii) : N :=
  let n := N_of_ascii c in
  if ((48 <=? n)%N && (n <=? 57)%N)%bool then (n - 48)%N
  else if ((65 <=? n)%N && (n <=? 90)%N)%bool then (n - 55)%N
  else if ((97 <=? n)%N && (n <=? 122)%N)%bool then (n - 87)%N
  else 0%N.

Fixpoint valueFrom (v : N) (s : string) : N :=
  match s with
  | EmptyString => v
  | String c rest => valueFrom (v * 36 + digitValue c)%N rest
  end.

Definition dash : ascii := ascii_of_nat 45.

Fixpoint dashFree (s : string) : bool :=
  match s with
  | EmptyString => true
  | String c rest => (negb (Ascii.eqb c dash) && dashFree rest)%bool
  end.

End Ids.

(* ===================================================================== *)
(** ** Handing photos to the device *)
(* ===================================================================== *)

Module Device.
Import Js Model App.

(** What the platform offers and how its calls end: [None] is success,
    [Some name] the name of the error raised. *)
Record Platform : Type := MkPlatform
  { (** ['showSaveFilePicker' in window] *)
    hasSaveFilePicker : bool;
    (** the picker, or the write that follows it *)
    pickerError : option string;
    (** [navigator.share && navigator.canShare] *)
    hasShare : bool;
    (** [navigator.canShare({ files })] *)
    canShareFiles : bool;
    (** [navigator.share] *)
    shareError : option string }.

(** Where the image went. *)
Inductive Delivery : Type :=
  | Written (suggestedName data : string)
  | Shared (fileName title data : string)
  | Downloaded (fileName data : string)
  | Undelivered (errorName : string).

Definition jpgName (photo : Photo) : string := (photoId photo +:+ ".jpg")%string.

Definition downloadPhotoDirect (photo : Photo) (w : World) : World :=
  showToast "Photo downloaded! 📥" "success"
    (emit (Download (jpgName photo) (imageData photo)) w).

(** The [catch] of [saveToDevice]. *)
Definition saveFailed (e : string) (w : World) : Delivery * World :=
  if String.eqb e "AbortError"
  then (Undelivered e, showToast "Photo captured! 📸" "success" w)
  else (Undelivered e,
        showToast "Photo captured (saved to app)" "success"
          (emit (ConsoleError "Save error:") w)).

Definition saveToDevice (pf : Platform) (photo : Photo) (w : World) : Delivery * World :=
  if hasSaveFilePicker pf
  then
    match pickerError pf with
    | None =>
        (Written (jpgName photo) (imageData photo),
         showToast "Photo saved! 💾" "success" w)
    | Some e => saveFailed e w
    end
  else if (hasShare pf && canShareFiles pf)%bool
  then
    match shareError pf with
    | None =>
        (Shared (jpgName photo) ("TraceCam " +:+ photoId photo)%string (imageData photo),
         showToast "Photo saved! 📸" "success" w)
    | Some e => saveFailed e w
    end
  else (Downloaded (jpgName photo) (imageData photo), downloadPhotoDirect photo w).

(** [saveAllPhotos] between two of its pauses: the loop is at an index, or
    the function has returned. *)
Inductive SaveAll : Type :=
  | Running (i : nat)
  | Finished.

Definition countText (h : Host) (w : World) : string :=
  numberToString h (inject_Z (Z.of_nat (length (photos (app w))))).

(** One turn of the loop: the test at index [i], the download, and the
    pause of 400 ms that lets other events run. *)
Definition saveAllTurn (h : Host) (i : nat) (w : World) : SaveAll * World :=
  match photos (app w) !! i with
  | Some p => (Running (S i), downloadPhotoDirect p w)
  | None =>
      (Finished,
       showToast ("Saved " +:+ countText h w +:+ " photos! 📥")%string "success" w)
  end.

(** The call, up to its first pause. *)
Definition saveAllPhotos (h : Host) (w : World) : SaveAll * World :=
  match photos (app w) with
  | [] => (Finished, showToast "No photos to save" "error" w)
  | _ =>
      saveAllTurn h 0
        (showToast ("Saving " +:+ countText h w +:+ " photos...")%string "info" w)
  end.

(** The turns that follow when nothing else runs in the pauses. *)
Fixpoint saveAllResume (h : Host) (fuel : nat) (s : SaveAll * World) : SaveAll * World :=
  match fuel with
  | O => s
  | S f =>
      match s with
      | (Running i, w) => saveAllResume h f (saveAllTurn h i w)
      | (Finished, w) => s
      end
  end.

(** Anything in the trace but a toast. *)
Definition notToast (e : Effect) : Prop :=
  match e with
  | Toast _ _ => False
  | _ => True
  end.

(** What one download leaves in the trace. *)
Definition downloadTrace (p : Photo) : list Effect :=
  [Download (jpgName p) (imageData p); Toast "Photo downloaded! 📥" "success"].

End Device.

(* ===================================================================== *)
(** ** Gallery preview, and clearing the logs *)
(* ===================================================================== *)

Module Gallery.
Import Js Model App.

Definition withPreview (p : option Photo) (s : State) : State :=
  MkState (stream s) (facingMode s) (position s) (photos s) (logs s) (sessionId s)
    (settings s) p (detailsExpanded s) (locationInfo s).

(** [state.photos.find(p => p.id === photoId)]. *)
Definition findPhoto (id : string) (ps : list Photo) : option Photo :=
  List.find (fun p => String.eqb (photoId p) id) ps.

Definition previewPhoto (id : string) (w : World) : World :=
  match findPhoto id (photos (app w)) with
  | None => w
  | Some photo => withApp (withPreview (Some photo) (app w)) w
  end.

Definition closePreview (w : World) : World :=
  withApp (withPreview None (app w)) w.

Definition downloadPhoto (w : World) : World :=
  match currentPreview (app w) with
  | None => w
  | Some photo => Device.downloadPhotoDirect photo w
  end.

(** [clearLogs]: [confirmed] is the answer to the confirmation dialog. *)
Definition clearLogs (confirmed : bool) (h : Host) (w : World) : World :=
  if confirmed
  then showToast "Logs cleared" "success"
         (saveLogs h (withApp (withLogs [] (app w)) w))
  else w.

End Gallery.

(* ===================================================================== *)
(** ** Settings: the form, saving and loading *)
(* ===================================================================== *)

Module Prefs.
Import Js Model App.

(** The controls of the settings form.  The two newer checkboxes may be
    missing from the page. *)
Record Form : Type := MkForm
  { watermarkBox : bool;
    coordsBox : bool;
    timestampBox : bool;
    autoSaveBox : bool;
    fullResolutionBox : option bool;
    showLocationDecipherBox : option bool;
    projectField : string;
    operatorField : string }.

Definition withSettings (cfg : Settings) (s : State) : State :=
  MkState (stream s) (facingMode s) (position s) (photos s) (logs s) (sessionId s)
    cfg (currentPreview s) (detailsExpanded s) (locationInfo s).

(** [box?.checked ?? true]. *)
Definition checkedOrTrue (box : option bool) : bool :=
  match box with
  | Some b => b
  | None => true
  end.

Section Trim.

(** [String.prototype.trim]. *)
Variable trim : string -> string.

(** The object [saveSettings] reads off the form. *)
Definition readForm (f : Form) : Settings :=
  MkSettings (watermarkBox f) (coordsBox f) (timestampBox f) (autoSaveBox f)
    (checkedOrTrue (fullResolutionBox f))
    (checkedOrTrue (showLocationDecipherBox f))
    (trim (projectField f)) (trim (operatorField f)).

(** [saveSettings]: the write is not guarded, so its error ends the
    function after [state.settings] has been replaced. *)
Definition saveSettings (f : Form) (h : Host) (w : World) : Completion :=
  let w1 := withApp (withSettings (readForm f) (app w)) w in
  match setItem h SETTINGS_KEY (StoredSettings (settings (app w1))) w1 with
  | Normal w2 => Normal (showToast "Settings saved" "success" w2)
  | Thrown e w2 => Thrown e w2
  end.

End Trim.

(** The form as [loadSettings] fills it from the settings; a checkbox
    missing from the page stays missing. *)
Definition showForm (cfg : Settings) (page : Form) : Form :=
  MkForm (watermarkEnabled cfg) (coordsOnImage cfg) (timestampOnImage cfg)
    (autoSave cfg)
    (match fullResolutionBox page with
     | Some _ => Some (fullResolution cfg)
     | None => None
     end)
    (match showLocationDecipherBox page with
     | Some _ => Some (showLocationDecipher cfg)
     | None => None
     end)
    (strOrEmpty (projectName cfg)) (strOrEmpty (operatorName cfg)).

Definition checkAutoSave (page : Form) : Form :=
  MkForm (watermarkBox page) (coordsBox page) (timestampBox page) true
    (fullResolutionBox page) (showLocationDecipherBox page)
    (projectField page) (operatorField page).

(** [loadSettings]: a value that is not a settings object makes the
    parse fail, and the [catch] only ticks the auto-save box. *)
Definition loadSettings (page : Form) (w : World) : World * Form :=
  match localStorage w !! SETTINGS_KEY with
  | None => (w, showForm (settings (app w)) page)
  | Some (StoredSettings cfg) =>
      (withApp (withSettings cfg (app w)) w, showForm cfg page)
  | Some _ => (emit (ConsoleError "Failed to load settings:") w, checkAutoSave page)
  end.

End Prefs.

(* ===================================================================== *)
(** ** Starting and switching the camera *)
(* ===================================================================== *)

Module Camera.
Import Js Model App.

(** How [getUserMedia] ends. *)
Inductive MediaResult : Type :=
  | Granted (s : Stream)
  | Refused (errorName message : string).

(** The page around the application state: the status line, the fallback
    panel, and the streams whose tracks have been stopped. *)
Record Page : Type := MkPage
  { world : World;
    statusText : string;
    statusType : string;
    fallbackHidden : bool;
    stopped : list Stream }.

Definition withWorld (w : World) (pg : Page) : Page :=
  MkPage w (statusText pg) (statusType pg) (fallbackHidden pg) (stopped pg).

Definition updateStatus (text type : string) (pg : Page) : Page :=
  MkPage (world pg) text type (fallbackHidden pg) (stopped pg).

(** The colour class [updateStatus] gives the status dot. *)
Definition dotClass (type : string) : string :=
  if String.eqb type "ready" then "bg-green-500"
  else if String.eqb type "error" then "bg-red-500"
  else "bg-yellow-500".

Definition withStream (s : option Stream) (st : State) : State :=
  MkState s (facingMode st) (position st) (photos st) (logs st) (sessionId st)
    (settings st) (currentPreview st) (detailsExpanded st) (locationInfo st).

Definition withFacing (mode : string) (st : State) : State :=
  MkState (stream st) mode (position st) (photos st) (logs st) (sessionId st)
    (settings st) (currentPreview st) (detailsExpanded st) (locationInfo st).

Definition stopTracks (pg : Page) : Page :=
  match stream (app (world pg)) with
  | Some s =>
      MkPage (world pg) (statusText pg) (statusType pg) (fallbackHidden pg)
        (stopped pg ++ [s])
  | None => pg
  end.

Definition showFallback (hidden : bool) (pg : Page) : Page :=
  MkPage (world pg) (statusText pg) (statusType pg) hidden (stopped pg).

Definition initCamera (r : MediaResult) (pg : Page) : Page :=
  let pg1 := stopTracks (updateStatus "Starting camera..." "loading" pg) in
  match r with
  | Granted s =>
      withWorld (withApp (withStream (Some s) (app (world pg1))) (world pg1)) pg1
  | Refused name message =>
      let pg2 := withWorld (emit (ConsoleError "Camera error:") (world pg1)) pg1 in
      let pg3 := showFallback false (updateStatus "Camera unavailable" "error" pg2) in
      let text :=
        if String.eqb name "NotAllowedError" then "Camera permission denied"
        else if String.eqb name "NotFoundError" then "No camera found"
        else ("Camera error: " +:+ message)%string in
      withWorld (showToast text "error" (world pg3)) pg3
  end.

(** The [onloadedmetadata] handler that [initCamera] installs. *)
Definition onLoadedMetadata (pg : Page) : Page :=
  let pg1 := updateStatus "Camera ready" "ready" (showFallback true pg) in
  withWorld (showToast "Camera initialized" "success" (world pg1)) pg1.

Definition toggled (mode : string) : string :=
  if String.eqb mode "environment" then "user" else "environment".

Definition switchCamera (r : MediaResult) (pg : Page) : Page :=
  let w := world pg in
  let pg1 := withWorld (withApp (withFacing (toggled (facingMode (app w))) (app w)) w) pg in
  let pg2 := initCamera r pg1 in
  let side :=
    if String.eqb (facingMode (app (world pg2))) "environment" then "back" else "front" in
  withWorld (showToast ("Switched to " +:+ side +:+ " camera")%string "info" (world pg2)) pg2.

End Camera.

(* ===================================================================== *)
(** ** Reading traces *)
(* ===================================================================== *)

Module Trace.
Import Js Model App.

Definition isToast (e : Effect) : bool :=
  match e with
  | Toast _ _ => true
  | _ => false
  end.

(** The hand-over of a photo to the device save. *)
Definition isHandOver (e : Effect) : bool :=
  match e with
  | SaveToDevice _ => true
  | _ => false
  end.

(** The texts painted on a canvas, in the order they were painted. *)
Definition textsOf (painted : list Canvas.DrawOp) : list string :=
  flat_map (fun o => match o with
                     | Canvas.FillText _ _ _ _ text _ _ => [text]
                     | _ => []
                     end) painted.

(** The filled rectangles, each with its style and height. *)
Definition rectsOf (painted : list Canvas.DrawOp) : list (string * Q) :=
  flat_map (fun o => match o with
                     | Canvas.FillRect style _ _ _ h => [(style, h)]
                     | _ => []
                     end) painted.

(** The three metadata lines of the overlay. *)
Definition localLine (shot : Shot) : string :=
  ("📅 " +:+ overlayLocal shot +:+ " (" +:+ timeZone shot +:+ ")")%string.

Definition utcLine (shot : Shot) : string :=
  ("UTC: " +:+ overlayISO shot)%string.

Definition coordsLine (p : Coords) : string :=
  ("📍 " +:+ Fixed_toString (toFixed 6 (latitude p)) +:+ ", "
     +:+ Fixed_toString (toFixed 6 (longitude p))
     +:+ " (±" +:+ accuracyLabel (accuracy p) +:+ "m)")%string.

(** The world a capture works on once the frame is composed, and the
    photo it assembles there. *)
Definition composed (shot : Shot) (s : Stream) (w : World) : World :=
  emit Flash (withCanvas (compose shot s (app w)) w).

Definition photoOf (h : Host) (shot : Shot) (s : Stream) (w : World) : Photo :=
  makePhoto h shot (composed shot s w) (compose shot s (app w)).

(** Each fix of the run arrives after the delay started by the previous
    one (the first: by the arrival at [t0]) has run out. *)
Fixpoint spaced (t0 : Z) (fs : list (Z * (Q * Q))) : Prop :=
  match fs with
  | [] => True
  | f :: rest => (t0 + Timers.geocodeDelay < fst f)%Z /\ spaced (fst f) rest
  end.

(** The column titles of the export as the specification lists them. *)
Definition headersAsListed : list string :=
  [ "ID"; "Timestamp(UTC)"; "Timestamp(Local)"; "Timezone";
    "Latitude"; "Longitude"; "Accuracy(m)"; "Altitude(m)";
    "Address"; "SessionID"; "Project"; "Operator" ].

(** What the specification asks of an exported row: under each column
    title, the text of that field of the log.  A reading that is missing
    or zero is the empty text, the address stands between quotes. *)
Definition readingText (h : Host) (v : OptNum) : string :=
  match v with
  | Num q => if Qeq_bool q 0 then "" else numberToString h q
  | _ => ""
  end.

Definition columnsOf (h : Host) (l : Log) : list (string * string) :=
  [ ("ID", logId l);
    ("Timestamp (UTC)", logTimestamp l);
    ("Timestamp (Local)", logTimestampLocal l);
    ("Timezone", logTimezone l);
    ("Latitude", readingText h (logLatitude l));
    ("Longitude", readingText h (logLongitude l));
    ("Accuracy (m)", readingText h (logAccuracy l));
    ("Altitude (m)", readingText h (logAltitude l));
    ("Address", quoted (logAddress l));
    ("Session ID", logSessionId l);
    ("Project", logProjectName l);
    ("Operator", logOperatorName l) ].

(** The months [seasonHint] counts as northern summer, by the index
    [getMonth] gives them, January being 0: the indices 3 to 8, which are
    April to September. *)
Definition summerMonth (month : nat) : bool :=
  ((3 <=? month)%nat && (month <=? 8)%nat)%bool.

End Trace.

(* ===================================================================== *)
(** ** Sharing the previewed photo *)
(* ===================================================================== *)

Module Sharing.
Import Js Model App.

(** What the platform offers to [sharePhoto] and how its calls end:
    [None] is success, [Some name] the name of the error raised. *)
Record Channel : Type := MkChannel
  { (** [navigator.share] *)
    hasShare : bool;
    (** the [try] block: fetching the image, building the file, sharing *)
    shareError : option string;
    (** [navigator.clipboard.writeText] *)
    clipboardError : option string }.

(** What left the page. *)
Inductive Act : Type :=
  | Offered (title text fileName data : string)
  | Copied (text : string).

(** [photo.location?.latitude.toFixed(6)] inside a template: the text of
    the number, or of [undefined] when the photo has no location. *)
Definition coordText (f : PhotoLocation -> Q) (photo : Photo) : string :=
  match location photo with
  | Some l => Fixed_toString (toFixed 6 (f l))
  | None => "undefined"
  end.

Definition shareText (photo : Photo) : string :=
  ("TraceCam Photo" +:+ newline +:+ photoId photo +:+ newline
     +:+ photoTimestampLocal photo +:+ newline
     +:+ coordText locLatitude photo +:+ ", " +:+ coordText locLongitude photo)%string.

(** The two statements that copy the text and confirm it. *)
Definition copyText (ch : Channel) (text : string) (w : World) : list Act * Completion :=
  match clipboardError ch with
  | None => ([Copied text], Normal (showToast "Copied to clipboard" "success" w))
  | Some e => ([], Thrown e w)
  end.

Definition sharePhoto (ch : Channel) (w : World) : list Act * Completion :=
  match currentPreview (app w) with
  | None => ([], Normal w)
  | Some photo =>
      let text := shareText photo in
      if hasShare ch
      then
        match shareError ch with
        | None =>
            ([Offered "TraceCam Photo" text (photoId photo +:+ ".jpg")%string
                (imageData photo)],
             Normal w)
        | Some e =>
            if negb (String.eqb e "AbortError")
            then copyText ch text w
            else ([], Normal w)
        end
      else copyText ch text w
  end.

End Sharing.

(* ===================================================================== *)
(** ** The clock line *)
(* ===================================================================== *)

Module Clock.

Definition slash : ascii := ascii_of_nat 47.
Definition underscore : ascii := ascii_of_nat 95.
Definition blank : ascii := ascii_of_nat 32.

(** [s.split('/').pop()]: the text after the last slash. *)
Fixpoint lastSegment (cur : string) (s : string) : string :=
  match s with
  | EmptyString => cur
  | String c rest =>
      if Ascii.eqb c slash then lastSegment EmptyString rest
      else lastSegment (cur +:+ String c EmptyString)%string rest
  end.

(** [s.replace(from, to)] with a one-character string pattern: only the
    first occurrence is replaced. *)
Fixpoint replaceFirst (from to : ascii) (s : string) : string :=
  match s with
  | EmptyString => EmptyString
  | String c rest =>
      if Ascii.eqb c from then String to rest
      else String c (replaceFirst from to rest)
  end.

(** The text [updateLiveTime] writes into the time zone badge. *)
Definition timezoneBadge (timezone : string) : string :=
  replaceFirst underscore blank (lastSegment EmptyString timezone).

(** How often a character occurs in a text. *)
Fixpoint count (a : ascii) (s : string) : nat :=
  match s with
  | EmptyString => O
  | String c rest => (if Ascii.eqb c a then 1 else 0) + count a rest
  end.

End Clock.

(* ===================================================================== *)
(** ** The location panel *)
(* ===================================================================== *)

Module Gps.
Import Js Model App.

(** [error.code] of a geolocation error. *)
Inductive GeoError : Type :=
  | PermissionDenied
  | PositionUnavailable
  | GpsTimeout
  | OtherCode.

(** The elements the location callbacks write. *)
Record Panel : Type := MkPanel
  { gpsStatus : string;
    gpsText : string;
    coordsText : string;
    latitudeText : string;
    longitudeText : string;
    accuracyText : string;
    altitudeText : string }.

Definition dash : string := "—".

(** [v ? prefix + v.toFixed(1) + 'm' : 'N/A']. *)
Definition metres (prefix : string) (v : OptNum) : string :=
  match v with
  | Num q =>
      if truthyNum v
      then (prefix +:+ Fixed_toString (toFixed 1 q) +:+ "m")%string
      else "N/A"
  | _ => "N/A"
  end.

(** What [updatePosition] writes on the page. *)
Definition showFix (c : Coords) : Panel :=
  let lat := Fixed_toString (toFixed 6 (latitude c)) in
  let lng := Fixed_toString (toFixed 6 (longitude c)) in
  MkPanel "w-2 h-2 bg-green-500 rounded-full" "GPS locked"
    (lat +:+ ", " +:+ lng)%string
    (lat +:+ Geo.degreeSign)%string (lng +:+ Geo.degreeSign)%string
    (metres "±" (accuracy c)) (metres "" (altitude c)).

(** [updatePosition]: the page and the state. *)
Definition onPosition (h : Host) (c : Coords) (v : Panel * World) : Panel * World :=
  (showFix c, updatePosition h c (snd v)).

Definition handleGeoError (e : GeoError) (v : Panel * World) : Panel * World :=
  (MkPanel "w-2 h-2 bg-yellow-500 rounded-full"
     (match e with
      | PermissionDenied => "GPS denied"
      | PositionUnavailable => "GPS unavailable"
      | GpsTimeout => "GPS timeout"
      | OtherCode => "GPS error"
      end)
     "Location unavailable" dash dash dash dash,
   emit (ConsoleError "Geolocation error:") (snd v)).

End Gps.

(* ===================================================================== *)
(** ** The logs panel *)
(* ===================================================================== *)

Module LogsPanel.
Import Js Model App.

(** What [showLogs] writes for one log: the location line is absent when
    the entry says No location, the project and operator lines when the
    names are empty. *)
Record Entry : Type := MkEntry
  { entryId : string;
    entryTime : string;
    entryLocation : option string;
    entryZone : string;
    entryProject : option string;
    entryOperator : option string }.

(** [s ? line(s) : ''] on a string. *)
Definition shown (s : string) : option string :=
  match s with
  | EmptyString => None
  | _ => Some s
  end.

(** One card of the list; [None] when building it raises a TypeError,
    which is when the latitude is a number other than zero and the
    longitude is not a number. *)
Definition entryOf (log : Log) : option Entry :=
  let card := fun where_ =>
    MkEntry (logId log) (logTimestampLocal log) where_ (logTimezone log)
      (shown (logProjectName log)) (shown (logOperatorName log)) in
  match logLatitude log with
  | Num lat =>
      if truthyNum (logLatitude log)
      then
        match logLongitude log with
        | Num lng =>
            Some (card (Some ("📍 " +:+ Fixed_toString (toFixed 6 lat) +:+ ", "
                               +:+ Fixed_toString (toFixed 6 lng)
                               +:+ " (±" +:+ accuracyLabel (logAccuracy log)
                               +:+ "m)")%string))
        | _ => None
        end
      else Some (card None)
  | _ => Some (card None)
  end.

(** The cards of the panel, in the order of the collection; [None] when
    building one of them raises. *)
Fixpoint cards (ls : list Log) : option (list Entry) :=
  match ls with
  | [] => Some []
  | l :: rest =>
      match entryOf l, cards rest with
      | Some e, Some es => Some (e :: es)
      | _, _ => None
      end
  end.

Definition showLogs (w : World) : option (list Entry) := cards (logs (app w)).

End LogsPanel.

(* ===================================================================== *)
(** ** More sample runs *)
(* ===================================================================== *)

Module Cases.
Import Js Model App.

(** The world after the first sample capture, and a second capture. *)
Definition afterFirst : World := snd Sample.firstCapture.

Definition secondCapture : Outcome * World :=
  capturePhoto (Sample.host Sample.roomy) (Sample.shot 2) afterFirst.

Definition secondPhoto : Photo :=
  Trace.photoOf (Sample.host Sample.roomy) (Sample.shot 2) Sample.camera afterFirst.

(** A fix in Bangkok. *)
Definition bangkok : Coords :=
  MkCoords (13756331 # 1000000) (100501762 # 1000000) (Num 12) Null Null Null.

(** A store that rejects every write of photos with an error that is not
    the quota error, and one that rejects everything with the quota
    error. *)
Definition broken : gmap string Stored -> string -> Stored -> option string :=
  fun _ k _ => if String.eqb k PHOTOS_KEY then Some "SecurityError" else None.

Definition full : gmap string Stored -> string -> Stored -> option string :=
  fun _ _ _ => Some "QuotaExceededError".

Definition sampleForm : Prefs.Form :=
  Prefs.MkForm true true false true None (Some false) " Bridge 12 " "Ada".

(** The page opened again on the store the first capture left. *)
Definition reopened : World :=
  MkWorld (app Sample.ready) (localStorage afterFirst) [] "" (canvas Sample.ready)
    Timers.idle [].

(** A log with a fix and an address that holds a comma. *)
Definition surveyed : Log :=
  MkLog "IMG-MHJ2K4A0-3" "2026-11-03T02:45:00.000Z" "2026-11-03 02:45" "UTC"
    (Num 13) (Num 100) (Num 12) Undefined "Main St, Springfield"
    "TC-MHJ2K4A0-7F3K" "Bridge" "Ada".

(** The first sample photo open in the preview. *)
Definition previewing : World :=
  Gallery.previewPhoto (photoId Sample.firstPhoto) afterFirst.

(** A platform without the share sheet. *)
Definition clipboardOnly : Sharing.Channel := Sharing.MkChannel false None None.

(** The sample world with the hand-over to the device save switched
    off. *)
Definition manual : World :=
  Sample.world
    (Sample.initial (Some Sample.camera)
       (MkSettings false true true false true true "" "")).

(** A capture on a store that is full, and the next capture once the
    store has room again. *)
Definition lostCapture : Outcome * World :=
  capturePhoto (Sample.host full) (Sample.shot 1) Sample.ready.

Definition lostPhoto : Photo :=
  Trace.photoOf (Sample.host full) (Sample.shot 1) Sample.camera Sample.ready.

Definition nextCapture : Outcome * World :=
  capturePhoto (Sample.host Sample.roomy) (Sample.shot 2) (snd lostCapture).

Definition nextPhoto : Photo :=
  Trace.photoOf (Sample.host Sample.roomy) (Sample.shot 2) Sample.camera
    (snd lostCapture).

(** A page opened on a given store, with nothing in memory yet. *)
Definition freshOn (store : gmap string Stored) : World :=
  MkWorld (app Sample.ready) store [] "" (canvas Sample.ready) Timers.idle [].

(** An empty location panel. *)
Definition blankPanel : Gps.Panel := Gps.MkPanel "" "" "" "" "" "" "".

End Cases.

(* ===================================================================== *)
(** * Properties *)
(* ===================================================================== *)

Import Js Model App Observe.

(** ** The record store *)

Lemma setItem_cases (h : Host) (k : string) (v : Stored) (w : World) :
  (quotaPolicy h (localStorage w) k v = None /\
   setItem h k v w =
     Normal (withStorage (<[k := v]> (localStorage w)) (MkAttempt k v None) w))
  \/ (exists e, quotaPolicy h (localStorage w) k v = Some e /\
      setItem h k v w =
        Thrown e (withStorage (localStorage w) (MkAttempt k v (Some e)) w)).
Proof.
  unfold setItem. destruct (quotaPolicy h (localStorage w) k v) as [e|].
  - right. exists e. split; reflexivity.
  - left. split; reflexivity.
Qed.

(** [saveLogs] never raises and never touches the collections; it offers
    the whole log collection to the store. *)
Lemma saveLogs_spec (h : Host) (w : World) :
  app (saveLogs h w) = app w /\
  exists r,
    attempts (saveLogs h w) =
      attempts w ++ [MkAttempt LOGS_KEY (StoredLogs (logs (app w))) r] /\
    (r = None ->
     localStorage (saveLogs h w) !! LOGS_KEY = Some (StoredLogs (logs (app w)))).
Proof.
  unfold saveLogs.
  destruct (setItem_cases h LOGS_KEY (StoredLogs (logs (app w))) w)
    as [[_ ->] | (e & _ & ->)]; cbn.
  - split; [reflexivity|]. exists None. split; [reflexivity|].
    intros _. apply lookup_insert_eq.
  - split; [reflexivity|]. exists (Some e). split; [reflexivity|]. discriminate.
Qed.

Lemma addLog_spec (h : Host) (photo : Photo) (w : World) :
  photos (app (addLog h photo w)) = photos (app w) /\
  logs (app (addLog h photo w)) = logOf photo :: logs (app w) /\
  settings (app (addLog h photo w)) = settings (app w) /\
  exists r,
    attempts (addLog h photo w) =
      attempts w ++ [MkAttempt LOGS_KEY (StoredLogs (logOf photo :: logs (app w))) r] /\
    (r = None ->
     localStorage (addLog h photo w) !! LOGS_KEY =
       Some (StoredLogs (logOf photo :: logs (app w)))).
Proof.
  unfold addLog.
  set (w1 := withApp (withLogs (logOf photo :: logs (app w)) (app w)) w).
  destruct (saveLogs_spec h w1) as (Happ & r & Hatt & Hsto).
  rewrite Happ. repeat split; try reflexivity.
  exists r. split; [exact Hatt | exact Hsto].
Qed.

(** What [savePhotos] does, by the answer of the store to the first
    write. *)
Lemma savePhotos_accepted (h : Host) (w : World) :
  quotaPolicy h (localStorage w) PHOTOS_KEY
    (StoredPhotos (take 50 (photos (app w)))) = None ->
  exists w',
    savePhotos h w = Normal w' /\
    app w' = app w /\
    localStorage w' !! PHOTOS_KEY = Some (StoredPhotos (take 50 (photos (app w)))) /\
    attempts w' =
      attempts w ++ [MkAttempt PHOTOS_KEY (StoredPhotos (take 50 (photos (app w)))) None].
Proof.
  intros Hq. unfold savePhotos, setItem. rewrite Hq.
  eexists. split; [reflexivity|]. cbn. repeat split. apply lookup_insert_eq.
Qed.

Lemma savePhotos_quota (h : Host) (w : World) :
  quotaPolicy h (localStorage w) PHOTOS_KEY
    (StoredPhotos (take 50 (photos (app w)))) = Some "QuotaExceededError" ->
  let w' := worldOf (savePhotos h w) in
  photos (app w') = take 20 (photos (app w)) /\
  logs (app w') = logs (app w) /\
  exists r,
    attempts w' =
      attempts w
        ++ [MkAttempt PHOTOS_KEY (StoredPhotos (take 50 (photos (app w))))
              (Some "QuotaExceededError");
            MkAttempt PHOTOS_KEY (StoredPhotos (take 20 (photos (app w)))) r] /\
    match r with
    | None =>
        savePhotos h w = Normal w' /\
        localStorage w' !! PHOTOS_KEY = Some (StoredPhotos (take 20 (photos (app w))))
    | Some e =>
        savePhotos h w = Thrown e w' /\ localStorage w' = localStorage w
    end.
Proof.
  intros Hq w'. subst w'.
  set (w1 := withStorage (localStorage w)
               (MkAttempt PHOTOS_KEY (StoredPhotos (take 50 (photos (app w))))
                  (Some "QuotaExceededError")) w).
  set (w2 := emit (ConsoleError "Failed to save photos:") w1).
  set (w3 := withApp (withPhotos (take 20 (photos (app w2))) (app w2)) w2).
  assert (E : savePhotos h w =
              setItem h PHOTOS_KEY (StoredPhotos (photos (app w3))) w3).
  { unfold savePhotos. unfold setItem at 1. rewrite Hq. reflexivity. }
  rewrite E.
  destruct (setItem_cases h PHOTOS_KEY (StoredPhotos (photos (app w3))) w3)
    as [[_ ->] | (e & _ & ->)]; cbn.
  - repeat split. exists None. rewrite <- app_assoc. cbn. repeat split.
    apply lookup_insert_eq.
  - repeat split. exists (Some e). rewrite <- app_assoc. cbn. repeat split.
Qed.

Lemma savePhotos_other_error (h : Host) (w : World) (e : string) :
  quotaPolicy h (localStorage w) PHOTOS_KEY
    (StoredPhotos (take 50 (photos (app w)))) = Some e ->
  String.eqb e "QuotaExceededError" = false ->
  exists w',
    savePhotos h w = Normal w' /\
    app w' = app w /\
    localStorage w' = localStorage w /\
    attempts w' =
      attempts w ++ [MkAttempt PHOTOS_KEY (StoredPhotos (take 50 (photos (app w)))) (Some e)].
Proof.
  intros Hq He. unfold savePhotos, setItem. rewrite Hq, He.
  eexists. split; [reflexivity|]. cbn. repeat split.
Qed.

(** Whatever the store answers, [savePhotos] leaves the logs and the
    settings alone, and the photos either as they were or cut to the
    twenty newest. *)
Lemma savePhotos_frame (h : Host) (w : World) :
  let w' := worldOf (savePhotos h w) in
  logs (app w') = logs (app w) /\
  settings (app w') = settings (app w) /\
  sessionId (app w') = sessionId (app w) /\
  (photos (app w') = photos (app w) \/
   photos (app w') = take 20 (photos (app w))).
Proof.
  intros w'. subst w'. unfold savePhotos.
  destruct (setItem_cases h PHOTOS_KEY (StoredPhotos (take 50 (photos (app w)))) w)
    as [[_ ->] | (e & _ & ->)]; cbn.
  - repeat split. left. reflexivity.
  - destruct (String.eqb e "QuotaExceededError"); cbn.
    + match goal with |- context [setItem h PHOTOS_KEY ?v ?x] =>
        destruct (setItem_cases h PHOTOS_KEY v x) as [[_ ->] | (e' & _ & ->)] end;
        cbn; repeat split; right; reflexivity.
    + repeat split. left. reflexivity.
Qed.

Lemma appendPhoto_frame (h : Host) (p : Photo) (w : World) :
  let w' := worldOf (appendPhoto h p w) in
  logs (app w') = logs (app w) /\
  settings (app w') = settings (app w) /\
  sessionId (app w') = sessionId (app w) /\
  exists older, photos (app w') = p :: older.
Proof.
  intros w'. subst w'. unfold appendPhoto.
  set (w0 := withApp (withPhotos (p :: photos (app w)) (app w)) w).
  destruct (savePhotos_frame h w0) as (Hl & Hs & Hi & Hp).
  rewrite Hl, Hs, Hi. repeat split.
  destruct Hp as [-> | ->]; cbn; eexists; reflexivity.
Qed.

Lemma appendPhoto_accepting (h : Host) (p : Photo) (w : World) :
  accepting h ->
  exists w',
    appendPhoto h p w = Normal w' /\
    photos (app w') = p :: photos (app w) /\
    localStorage w' !! PHOTOS_KEY =
      Some (StoredPhotos (take 50 (p :: photos (app w)))).
Proof.
  intros Hacc. unfold appendPhoto.
  set (w0 := withApp (withPhotos (p :: photos (app w)) (app w)) w).
  destruct (savePhotos_accepted h w0 (Hacc _ _ _)) as (w' & E & Happ & Hsto & _).
  exists w'. split; [exact E|]. rewrite Happ. split; [reflexivity | exact Hsto].
Qed.

(** After a run of appends into a store with room, the collection holds
    the batch newest first, and the snapshot is its first fifty. *)
Lemma appendAll_accepting (h : Host) (batch : list Photo) :
  accepting h ->
  forall w,
    photos (app (appendAll h batch w)) = rev batch ++ photos (app w) /\
    (batch <> [] ->
     localStorage (appendAll h batch w) !! PHOTOS_KEY =
       Some (StoredPhotos (take 50 (rev batch ++ photos (app w))))).
Proof.
  intros Hacc. induction batch as [|p rest IH]; intros w.
  - split; [reflexivity | congruence].
  - destruct (appendPhoto_accepting h p w Hacc) as (w1 & E & Hp & Hsto).
    cbn [appendAll]. rewrite E. cbn [worldOf].
    destruct (IH w1) as [IHp IHs]. rewrite Hp in IHp, IHs.
    cbn [rev]. rewrite <- app_assoc. cbn [List.app app].
    split; [exact IHp|]. intros _.
    destruct rest as [|q rest'].
    + cbn. exact Hsto.
    + apply IHs. discriminate.
Qed.

(** The first fifty of a batch listed newest first are its last fifty. *)
Lemma newest_fifty (batch : list Photo) :
  take 50 (rev batch) = rev (drop (length batch - 50) batch) /\
  length (take 50 (rev batch)) = Nat.min (length batch) 50.
Proof.
  split.
  - apply firstn_rev.
  - rewrite length_take, length_rev. lia.
Qed.

(** The collection in memory is cut to the snapshot only by the next
    load. *)
Lemma loadPhotos_after_save (h : Host) (w w' : World) :
  savePhotos h w = Normal w' ->
  quotaPolicy h (localStorage w) PHOTOS_KEY
    (StoredPhotos (take 50 (photos (app w)))) = None ->
  photos (app w') = photos (app w) /\
  photos (app (loadPhotos w')) = take 50 (photos (app w)).
Proof.
  intros E Hq. destruct (savePhotos_accepted h w Hq) as (w1 & E1 & Happ & Hsto & _).
  rewrite E in E1. injection E1 as <-.
  split; [now rewrite Happ|]. unfold loadPhotos. rewrite Hsto. reflexivity.
Qed.

(** The first revision writes once and never retries. *)
Lemma savePhotosNoFallback_single_attempt (h : Host) (w : World) :
  let w' := savePhotosNoFallback h w in
  app w' = app w /\
  exists r,
    attempts w' =
      attempts w
        ++ [MkAttempt PHOTOS_KEY (StoredPhotos (take 50 (photos (app w)))) r].
Proof.
  intros w'. subst w'. unfold savePhotosNoFallback.
  destruct (setItem_cases h PHOTOS_KEY (StoredPhotos (take 50 (photos (app w)))) w)
    as [[_ ->] | (e & _ & ->)]; cbn; (split; [reflexivity|]); eexists; reflexivity.
Qed.

(** C2. Persisting the photo collection stores its first fifty entries,
    which after N appends into an empty collection are the min(N, 50) most
    recently appended photos, newest first, while the collection in memory
    keeps them all; when the store rejects the write with
    QuotaExceededError, the collection is cut to its twenty newest and the
    write is attempted once more, and only once. *)
Theorem persisted_photos_capped_with_quota_fallback
    (h : Host) (w : World) (batch : list Photo) :
  let ps := photos (app w) in
  (quotaPolicy h (localStorage w) PHOTOS_KEY (StoredPhotos (take 50 ps)) = None ->
   exists w',
     savePhotos h w = Normal w' /\
     localStorage w' !! PHOTOS_KEY = Some (StoredPhotos (take 50 ps)) /\
     length (take 50 ps) = Nat.min (length ps) 50 /\
     photos (app w') = ps /\
     attempts w' = attempts w ++ [MkAttempt PHOTOS_KEY (StoredPhotos (take 50 ps)) None])
  /\
  (accepting h -> ps = [] -> batch <> [] ->
   let w' := appendAll h batch w in
   localStorage w' !! PHOTOS_KEY =
     Some (StoredPhotos (rev (drop (length batch - 50) batch))) /\
   length (rev (drop (length batch - 50) batch)) = Nat.min (length batch) 50 /\
   photos (app w') = rev batch)
  /\
  (quotaPolicy h (localStorage w) PHOTOS_KEY (StoredPhotos (take 50 ps))
     = Some "QuotaExceededError" ->
   let w' := worldOf (savePhotos h w) in
   photos (app w') = take 20 ps /\
   exists r,
     attempts w' =
       attempts w
         ++ [MkAttempt PHOTOS_KEY (StoredPhotos (take 50 ps)) (Some "QuotaExceededError");
             MkAttempt PHOTOS_KEY (StoredPhotos (take 20 ps)) r] /\
     match r with
     | None =>
         savePhotos h w = Normal w' /\
         localStorage w' !! PHOTOS_KEY = Some (StoredPhotos (take 20 ps))
     | Some e => savePhotos h w = Thrown e w' /\ localStorage w' = localStorage w
     end).
Proof.
  intros ps. split; [|split].
  - intros Hq. destruct (savePhotos_accepted h w Hq) as (w' & E & Happ & Hsto & Hatt).
    exists w'. rewrite Happ. repeat split; try assumption.
    rewrite length_take. lia.
  - intros Hacc Hempty Hne w'. subst w'.
    destruct (appendAll_accepting h batch Hacc w) as [Hp Hs].
    fold ps in Hp, Hs. rewrite Hempty, app_nil_r in Hp, Hs.
    destruct (newest_fifty batch) as [Ht Hl].
    rewrite <- Ht. repeat split; [apply Hs, Hne | exact Hl | exact Hp].
  - intros Hq w'. destruct (savePhotos_quota h w Hq) as (Hp & _ & r & Hatt & Hr).
    split; [exact Hp|]. exists r. split; [exact Hatt | exact Hr].
Qed.

(** The path on which a capture runs to its end: it puts, at the head of
    the log collection, a log with the id and the session id of its
    photo; nothing is dropped from the log collection, whatever its
    length, and the whole of it is what [saveLogs] offers to the store. *)
Theorem capture_appends_matching_log
    (h : Host) (shot : Shot) (w w' : World) (photo : Photo) :
  capturePhoto h shot w = (Recorded photo, w') ->
  (exists older, photos (app w') = photo :: older) /\
  exists log,
    logs (app w') = log :: logs (app w) /\
    logId log = photoId photo /\
    logSessionId log = photoSessionId photo /\
    logSessionId log = sessionId (app w) /\
    length (logs (app w')) = S (length (logs (app w))) /\
    exists front r,
      attempts w' = front ++ [MkAttempt LOGS_KEY (StoredLogs (logs (app w'))) r] /\
      (r = None -> localStorage w' !! LOGS_KEY = Some (StoredLogs (logs (app w')))).
Proof.
  unfold capturePhoto. destruct (stream (app w)) as [s|] eqn:Hs; [|discriminate].
  set (cv := compose shot s (app w)).
  set (w1 := emit Flash (withCanvas cv w)).
  set (p := makePhoto h shot w1 cv).
  pose proof (appendPhoto_frame h p w1) as Hframe.
  destruct (appendPhoto h p w1) as [w2|e w2] eqn:E; [|discriminate].
  cbn [worldOf] in Hframe. destruct Hframe as (Hl & _ & _ & older & Hp).
  intros H. injection H as Hphoto Hw'. subst photo.
  destruct (addLog_spec h p w2) as (Hp3 & Hl3 & _ & r & Hatt & Hsto).
  set (w3 := addLog h p w2) in *.
  assert (Happ : app w' = app w3 /\ attempts w' = attempts w3 /\
                 localStorage w' = localStorage w3).
  { subst w'. destruct (autoSave (settings (app w3))), (canVibrate h);
      repeat split. }
  destruct Happ as (Ha & Hb & Hc). rewrite Ha, Hb, Hc, Hp3, Hl3, Hp, Hl.
  split; [exists older; reflexivity|].
  exists (logOf p). repeat split.
  exists (attempts w2), r. rewrite <- Hl. split; [exact Hatt|].
  intros Hr. exact (Hsto Hr).
Qed.

(** A capture ends as [Recorded] exactly when the append of its photo
    returned normally. *)
Lemma capture_recorded_iff (h : Host) (shot : Shot) (w : World) (s : Stream) :
  stream (app w) = Some s ->
  let w1 := emit Flash (withCanvas (compose shot s (app w)) w) in
  let p := makePhoto h shot w1 (compose shot s (app w)) in
  (exists w2, appendPhoto h p w1 = Normal w2) <->
  (exists w', capturePhoto h shot w = (Recorded p, w')).
Proof.
  intros Hs w1 p. unfold capturePhoto. rewrite Hs. fold w1. fold p.
  destruct (appendPhoto h p w1) as [w2|e w2]; split.
  - intros _. eexists. reflexivity.
  - intros _. exists w2. reflexivity.
  - intros [w3 H]. discriminate.
  - intros [w3 H]. discriminate.
Qed.

(** The one way a capture leaves a photo in memory without a log: the
    store rejected the snapshot for quota and rejected the retry as well,
    so the error of the retry ends the capture before [addLog] runs. *)
Lemma capture_aborted_by_retry (h : Host) (shot : Shot) (w w' : World)
    (photo : Photo) (e : string) :
  capturePhoto h shot w = (Aborted photo e, w') ->
  logs (app w') = logs (app w) /\
  exists older, photos (app w') = photo :: older.
Proof.
  unfold capturePhoto. destruct (stream (app w)) as [s|]; [|discriminate].
  set (cv := compose shot s (app w)).
  set (w1 := emit Flash (withCanvas cv w)).
  set (p := makePhoto h shot w1 cv).
  pose proof (appendPhoto_frame h p w1) as Hframe.
  destruct (appendPhoto h p w1) as [w2|e2 w2]; [|].
  - destruct (autoSave _), (canVibrate h); discriminate.
  - intros H. injection H as -> -> ->. cbn [worldOf] in Hframe.
    destruct Hframe as (Hl & _ & _ & Hp). split; [exact Hl | exact Hp].
Qed.

(** An error that ends a capture comes from the retry of [savePhotos]:
    the store is as it was. *)
Lemma capture_aborted_store (h : Host) (shot : Shot) (w w' : World)
    (photo : Photo) (e : string) :
  capturePhoto h shot w = (Aborted photo e, w') ->
  localStorage w' = localStorage w /\
  forall a, In a (attempts w') -> In a (attempts w) \/ key a = PHOTOS_KEY.
Proof.
  unfold capturePhoto. destruct (stream (app w)) as [s|]; [|discriminate].
  set (cv := compose shot s (app w)).
  set (w1 := emit Flash (withCanvas cv w)).
  set (p := makePhoto h shot w1 cv).
  unfold appendPhoto, savePhotos, setItem.
  set (w0 := withApp (withPhotos (p :: photos (app w1)) (app w1)) w1).
  destruct (quotaPolicy h (localStorage w0) PHOTOS_KEY _) as [e1|].
  - destruct (String.eqb e1 "QuotaExceededError").
    + match goal with
      | |- context [quotaPolicy h ?m ?k ?v] => destruct (quotaPolicy h m k v) as [e2|]
      end.
      * intros H. injection H as <- <- <-. split; [reflexivity|].
        cbn [attempts withStorage withApp emit]. intros a Ha.
        rewrite <- app_assoc in Ha. apply in_app_or in Ha as [Ha|Ha];
          [left; exact Ha|].
        right. destruct Ha as [<-|[<-|[]]]; reflexivity.
      * match goal with
        | |- context [autoSave ?x] => destruct (autoSave x)
        end; destruct (canVibrate h); discriminate.
    + match goal with
      | |- context [autoSave ?x] => destruct (autoSave x)
      end; destruct (canVibrate h); discriminate.
  - match goal with
    | |- context [autoSave ?x] => destruct (autoSave x)
    end; destruct (canVibrate h); discriminate.
Qed.

(** C1. A photo can be appended and stored without a log of its id.  When
    the store rejects the photos for quota and rejects the retry too, the
    error of the retry ends the capture after the photo was put at the
    head of the photo collection and before [addLog] runs: the photo is
    in memory, no log was added and none was offered to the store.  The
    next capture that the store accepts persists the collection with that
    photo in it, beside a log collection that holds no log of its id.
    The sample run: a capture on a full store, then one on a store with
    room. *)
Theorem capture_error_leaves_photo_without_log :
  (forall (h : Host) (shot : Shot) (w w' : World) (photo : Photo) (e : string),
     capturePhoto h shot w = (Aborted photo e, w') ->
     (exists older, photos (app w') = photo :: older) /\
     logs (app w') = logs (app w) /\
     localStorage w' = localStorage w /\
     forall a, In a (attempts w') -> In a (attempts w) \/ key a = PHOTOS_KEY) /\
  fst Cases.lostCapture = Aborted Cases.lostPhoto "QuotaExceededError" /\
  photos (app (snd Cases.lostCapture)) = [Cases.lostPhoto] /\
  logs (app (snd Cases.lostCapture)) = [] /\
  fst Cases.nextCapture = Recorded Cases.nextPhoto /\
  photos (app (snd Cases.nextCapture)) = [Cases.nextPhoto; Cases.lostPhoto] /\
  localStorage (snd Cases.nextCapture) !! PHOTOS_KEY =
    Some (StoredPhotos [Cases.nextPhoto; Cases.lostPhoto]) /\
  logs (app (snd Cases.nextCapture)) = [logOf Cases.nextPhoto] /\
  localStorage (snd Cases.nextCapture) !! LOGS_KEY =
    Some (StoredLogs [logOf Cases.nextPhoto]) /\
  photoId Cases.lostPhoto = "IMG-MHJ2K4A0-1" /\
  photoSessionId Cases.lostPhoto = sessionId (app Sample.ready) /\
  (forall l, In l (logs (app (snd Cases.nextCapture))) ->
     logId l <> photoId Cases.lostPhoto) /\
  let reloaded := loadLogs (loadPhotos (Cases.freshOn (localStorage (snd Cases.nextCapture)))) in
  In Cases.lostPhoto (photos (app reloaded)) /\
  (forall l, In l (logs (app reloaded)) -> logId l <> photoId Cases.lostPhoto).
Proof.
  split.
  { intros h shot w w' photo e H.
    destruct (capture_aborted_by_retry h shot w w' photo e H) as (Hl & Hp).
    destruct (capture_aborted_store h shot w w' photo e H) as (Hs & Ha).
    split; [exact Hp|]. split; [exact Hl|]. split; [exact Hs | exact Ha]. }
  assert (L : logs (app (snd Cases.nextCapture)) = [logOf Cases.nextPhoto])
    by (vm_compute; reflexivity).
  assert (R : logs (app (loadLogs (loadPhotos
                (Cases.freshOn (localStorage (snd Cases.nextCapture)))))) =
              [logOf Cases.nextPhoto]) by (vm_compute; reflexivity).
  assert (P : photos (app (loadLogs (loadPhotos
                (Cases.freshOn (localStorage (snd Cases.nextCapture)))))) =
              [Cases.nextPhoto; Cases.lostPhoto]) by (vm_compute; reflexivity).
  split; [vm_compute; reflexivity|]. split; [vm_compute; reflexivity|].
  split; [vm_compute; reflexivity|]. split; [vm_compute; reflexivity|].
  split; [vm_compute; reflexivity|]. split; [vm_compute; reflexivity|].
  split; [exact L|]. split; [vm_compute; reflexivity|].
  split; [vm_compute; reflexivity|]. split; [vm_compute; reflexivity|].
  split.
  { intros l Hin. rewrite L in Hin. destruct Hin as [<-|[]].
    vm_compute. discriminate. }
  cbv zeta. rewrite P, R. split.
  - right. left. reflexivity.
  - intros l [<-|[]]. vm_compute. discriminate.
Qed.

(** C3. A capture triggered while there is no camera stream reports
    Camera not ready as an error and ends there: the photo and log
    collections, the store and the canvas are as they were. *)
Theorem capture_without_stream_is_refused (h : Host) (shot : Shot) (w : World) :
  stream (app w) = None ->
  fst (capturePhoto h shot w) = NotReady /\
  let w' := snd (capturePhoto h shot w) in
  effects w' = effects w ++ [Toast "Camera not ready" "error"] /\
  photos (app w') = photos (app w) /\
  logs (app w') = logs (app w) /\
  app w' = app w /\
  localStorage w' = localStorage w /\
  attempts w' = attempts w /\
  canvas w' = canvas w.
Proof.
  intros Hs. unfold capturePhoto. rewrite Hs. cbn. repeat split.
Qed.

(** The first capture of a session, on a store with room: its photo is
    recorded and the one log carries its id. *)
Lemma capture_appends_matching_log_witness :
  Sample.firstCapture = (Recorded Sample.firstPhoto, snd Sample.firstCapture) /\
  exists log,
    logs (app (snd Sample.firstCapture)) = [log] /\
    logId log = "IMG-MHJ2K4A0-1" /\
    logSessionId log = "TC-MHJ2K4A0-7F3K".
Proof.
  assert (H : capturePhoto (Sample.host Sample.roomy) (Sample.shot 1) Sample.ready
              = (Recorded Sample.firstPhoto, snd Sample.firstCapture))
    by (vm_compute; reflexivity).
  split; [exact H|].
  destruct (capture_appends_matching_log _ _ _ _ _ H)
    as (_ & log & Hl & Hid & _ & Hsid & _).
  exists log. split; [exact Hl|]. split; [rewrite Hid | rewrite Hsid]; reflexivity.
Defined.

(** Fifty-one appends into an empty collection on a roomy store leave the
    fifty newest in the snapshot; on a store with room for twenty photos,
    saving twenty-one makes exactly two writes. *)
Lemma persisted_photos_capped_with_quota_fallback_witness :
  (exists snapshot,
     localStorage (appendAll (Sample.host Sample.roomy) (Sample.batchOf 51) Sample.ready)
       !! PHOTOS_KEY = Some (StoredPhotos snapshot) /\
     length snapshot = 50%nat) /\
  length (attempts (worldOf (savePhotos (Sample.host (Sample.tight 20)) Sample.crowded)))
    = 2%nat.
Proof.
  split.
  - destruct (persisted_photos_capped_with_quota_fallback
                (Sample.host Sample.roomy) Sample.ready (Sample.batchOf 51))
      as (_ & H & _).
    destruct H as (Hs & Hl & _).
    + intros m k v. reflexivity.
    + reflexivity.
    + discriminate.
    + eexists. split; [exact Hs | exact Hl].
  - destruct (persisted_photos_capped_with_quota_fallback
                (Sample.host (Sample.tight 20)) Sample.crowded [])
      as (_ & _ & H).
    destruct H as (_ & r & Hatt & _).
    + reflexivity.
    + rewrite Hatt. reflexivity.
Defined.

(** With no camera, the sample capture is refused. *)
Lemma capture_without_stream_is_refused_witness :
  stream (app Sample.noCamera) = None /\
  fst (capturePhoto (Sample.host Sample.roomy) (Sample.shot 1) Sample.noCamera) = NotReady /\
  logs (app (snd (capturePhoto (Sample.host Sample.roomy) (Sample.shot 1) Sample.noCamera)))
    = [].
Proof.
  assert (H : stream (app Sample.noCamera) = None) by reflexivity.
  split; [exact H|].
  destruct (capture_without_stream_is_refused
              (Sample.host Sample.roomy) (Sample.shot 1) Sample.noCamera H)
    as (Ho & _ & _ & Hl & _).
  split; [exact Ho | exact Hl].
Defined.

(** ** CSV export *)

Lemma text_app_assoc (a b c : string) :
  ((a +:+ b) +:+ c = a +:+ (b +:+ c))%string.
Proof.
  induction a as [|x a IH]; [reflexivity|].
  change (String x ((a +:+ b) +:+ c) = String x (a +:+ (b +:+ c)))%string.
  f_equal. exact IH.
Qed.

Lemma text_app_nil_r (a : string) : (a +:+ "" = a)%string.
Proof.
  induction a as [|x a IH]; [reflexivity|].
  change (String x (a +:+ "") = String x a)%string. f_equal. exact IH.
Qed.

Lemma text_app_cons (c : ascii) (s t : string) :
  (String c s +:+ t = String c (s +:+ t))%string.
Proof. reflexivity. Qed.

Lemma text_app_nil_l (t : string) : ("" +:+ t = t)%string.
Proof. reflexivity. Qed.

Lemma snoc_app (cur : string) (c : ascii) (s : string) :
  (Csv.snoc cur c +:+ s = cur +:+ String c s)%string.
Proof. unfold Csv.snoc. now rewrite text_app_assoc. Qed.

(** Splitting at line feeds undoes joining with line feeds, for texts
    that hold none. *)
Lemma splitLines_one (s : string) :
  Csv.oneLine s = true ->
  forall cur,
    Csv.splitLines cur s = [(cur +:+ s)%string] /\
    forall rest,
      Csv.splitLines cur (s +:+ String Csv.lineFeed rest) =
        (cur +:+ s)%string :: Csv.splitLines EmptyString rest.
Proof.
  induction s as [|c s IH]; intros Hp cur.
  - rewrite text_app_nil_r. split; [reflexivity|]. intros rest.
    rewrite text_app_nil_l. cbn [Csv.splitLines]. rewrite Ascii.eqb_refl. reflexivity.
  - cbn in Hp. apply andb_prop in Hp as [Hc Hs]. apply negb_true_iff in Hc.
    destruct (IH Hs (Csv.snoc cur c)) as [IH1 IH2]. split.
    + cbn [Csv.splitLines]. rewrite Hc, IH1, snoc_app. reflexivity.
    + intros rest. rewrite text_app_cons. cbn [Csv.splitLines].
      rewrite Hc, IH2, snoc_app. reflexivity.
Qed.

Lemma lines_concat (xs : list string) :
  xs <> [] ->
  forallb Csv.oneLine xs = true ->
  Csv.lines (String.concat newline xs) = xs.
Proof.
  unfold Csv.lines. induction xs as [|x rest IH]; [congruence|]. intros _ H.
  cbn [forallb] in H. apply andb_prop in H as [Hx Hrest].
  destruct rest as [|y rest'].
  - cbn [String.concat]. exact (proj1 (splitLines_one x Hx EmptyString)).
  - change (String.concat newline (x :: y :: rest'))
      with (x +:+ (newline +:+ String.concat newline (y :: rest')))%string.
    change (newline +:+ String.concat newline (y :: rest'))%string
      with (String Csv.lineFeed (String.concat newline (y :: rest'))).
    rewrite (proj2 (splitLines_one x Hx EmptyString)).
    rewrite IH by (try discriminate; assumption). reflexivity.
Qed.

Lemma csvLines_lookup (h : Host) (ls : list Log) (i : nat) (log : Log) :
  ls !! i = Some log -> csvLines h ls !! S i = Some (joinRow h (row log)).
Proof.
  intros H. unfold csvLines. cbn [lookup list_lookup].
  change ((map (joinRow h) (map row ls)) !! i = Some (joinRow h (row log))).
  rewrite !list_lookup_fmap, H. reflexivity.
Qed.

(** What [x || ''] leaves of a reading, as a text. *)
Lemma cellText_numOrEmpty (h : Host) (v : OptNum) :
  cellText h (numOrEmpty v) = Trace.readingText h v.
Proof.
  destruct v as [| |q]; [reflexivity | reflexivity |].
  unfold numOrEmpty, truthyNum, Trace.readingText.
  destruct (Qeq_bool q 0); reflexivity.
Qed.

(** The twelve texts of a row stand under the twelve titles, in the order
    of the header. *)
Lemma row_columns (h : Host) (log : Log) :
  combine headers (map (cellText h) (row log)) = Trace.columnsOf h log /\
  map fst (Trace.columnsOf h log) = headers /\
  joinRow h (row log) = String.concat "," (map snd (Trace.columnsOf h log)).
Proof.
  assert (E : map (cellText h) (row log) = map snd (Trace.columnsOf h log)).
  { assert (S : forall s, strOrEmpty s = s) by (intros []; reflexivity).
    unfold row, Trace.columnsOf. cbn [map snd cellText].
    rewrite !cellText_numOrEmpty, !S. reflexivity. }
  split; [|split].
  - rewrite E. reflexivity.
  - reflexivity.
  - unfold joinRow. rewrite E. reflexivity.
Qed.

(** C4, with the titles as the script spells them.  Exporting an empty
    log collection only reports the error No logs to export: no file is
    produced.  Exporting a non-empty collection downloads one file whose
    lines are the header line, with the twelve column titles in their
    fixed order, followed by one line per log, in the order of the
    collection.  The line of a log is its twelve texts joined by commas,
    each under the title of its column: the id, the two timestamps, the
    time zone, the four readings (empty when missing or zero), the
    address between quotes, the session id, the project and the operator.
    When no row holds a line feed, these are the lines of the text of
    the file. *)
Theorem exportLogs_header_then_one_row_per_log (h : Host) (today : string) (w : World) :
  String.concat "," headers =
    "ID,Timestamp (UTC),Timestamp (Local),Timezone,Latitude,Longitude,Accuracy (m),Altitude (m),Address,Session ID,Project,Operator"
  /\ length headers = 12%nat
  /\ app (exportLogs h today w) = app w
  /\ match logs (app w) with
     | [] =>
         effects (exportLogs h today w) =
           effects w ++ [Toast "No logs to export" "error"]
     | ls =>
         effects (exportLogs h today w) =
           effects w
             ++ [Download ("tracecam-logs-" +:+ today +:+ ".csv")%string (csvOf h ls);
                 Toast "Logs exported!" "success"]
         /\ csvOf h ls = String.concat newline (csvLines h ls)
         /\ length (csvLines h ls) = S (length ls)
         /\ csvLines h ls !! 0%nat = Some (String.concat "," headers)
         /\ (forall i log,
               ls !! i = Some log ->
               csvLines h ls !! S i = Some (joinRow h (row log))
               /\ length (row log) = 12%nat)
         /\ (forallb Csv.oneLine (map (joinRow h) (map row ls)) = true ->
             Csv.lines (csvOf h ls) = csvLines h ls)
         /\ (forall i log,
               ls !! i = Some log ->
               csvLines h ls !! S i =
                 Some (String.concat "," (map snd (Trace.columnsOf h log)))
               /\ combine headers (map (cellText h) (row log)) = Trace.columnsOf h log
               /\ map fst (Trace.columnsOf h log) = headers
               /\ row log !! 0%nat = Some (CStr (logId log)))
         /\ (forall i, csvLines h ls !! S i = None <-> ls !! i = None)
     end.
Proof.
  split; [reflexivity|]. split; [reflexivity|].
  unfold exportLogs. destruct (logs (app w)) as [|l ls] eqn:E.
  - split; reflexivity.
  - split; [reflexivity|]. split.
    + cbn. rewrite <- app_assoc. reflexivity.
    + split; [reflexivity|]. split.
      * unfold csvLines. cbn [length]. rewrite !length_map. reflexivity.
      * split; [reflexivity|]. split.
        -- intros i log H. split; [apply csvLines_lookup, H | reflexivity].
        -- split.
           ++ intros H. apply lines_concat; [discriminate|].
              unfold csvLines. cbn [forallb]. rewrite H. reflexivity.
           ++ split.
              ** intros i log H. destruct (row_columns h log) as (Hc & Ht & Hj).
                 split; [rewrite (csvLines_lookup h (l :: ls) i log H), Hj; reflexivity|].
                 split; [exact Hc|]. split; [exact Ht | reflexivity].
              ** intros i. unfold csvLines.
                 change ((String.concat "," headers
                            :: map (joinRow h) (map row (l :: ls))) !! S i)
                   with (map (joinRow h) (map row (l :: ls)) !! i).
                 rewrite !list_lookup_fmap.
                 destruct ((l :: ls) !! i); cbn; split; intros; congruence.
Qed.

(** The header line is not spelled as the specification lists the titles:
    five of them are written with a blank. *)
Lemma export_header_is_not_spelled_as_listed :
  ~ (forall (h : Host) (ls : list Log),
       csvLines h ls !! 0%nat = Some (String.concat "," Trace.headersAsListed)).
Proof.
  intros H. specialize (H (Sample.host Sample.roomy) [Sample.localeLog]).
  vm_compute in H. discriminate.
Qed.

(** The cell of a Number-valued property that holds zero is the empty
    text, as is the cell of one that is missing or null. *)
Lemma numOrEmpty_zero (v : OptNum) : zeroNum v -> numOrEmpty v = CStr "".
Proof.
  destruct v as [| |q]; cbn; try contradiction.
  intros Hq. apply Qeq_bool_iff in Hq. rewrite Hq. reflexivity.
Qed.

Lemma numOrEmpty_absent : numOrEmpty Undefined = CStr "" /\ numOrEmpty Null = CStr "".
Proof. split; reflexivity. Qed.

(** C10. In the exported row, a latitude, longitude, accuracy or altitude
    that is exactly zero is written as the empty text, the very cell
    written for a capture that had no fix; so a log whose four readings
    are zero exports to the same line as the same log without a fix. *)
Theorem export_writes_zero_as_blank (h : Host) (log : Log) :
  (zeroNum (logLatitude log) ->
   map (cellText h) (row log) !! 4%nat = Some "" /\
   row log !! 4%nat = row (withoutFix log) !! 4%nat)
  /\ (zeroNum (logLongitude log) ->
      map (cellText h) (row log) !! 5%nat = Some "" /\
      row log !! 5%nat = row (withoutFix log) !! 5%nat)
  /\ (zeroNum (logAccuracy log) ->
      map (cellText h) (row log) !! 6%nat = Some "" /\
      row log !! 6%nat = row (withoutFix log) !! 6%nat)
  /\ (zeroNum (logAltitude log) ->
      map (cellText h) (row log) !! 7%nat = Some "" /\
      row log !! 7%nat = row (withoutFix log) !! 7%nat)
  /\ (zeroNum (logLatitude log) -> zeroNum (logLongitude log) ->
      zeroNum (logAccuracy log) -> zeroNum (logAltitude log) ->
      joinRow h (row log) = joinRow h (row (withoutFix log))).
Proof.
  repeat split; intros; unfold joinRow, row; cbn;
    repeat match goal with
           | H : zeroNum _ |- _ => rewrite (numOrEmpty_zero _ H); clear H
           end; reflexivity.
Qed.

(** The sample log taken at latitude 0, longitude 0. *)
Lemma export_writes_zero_as_blank_witness :
  zeroNum (logLatitude Sample.nullIsland) /\
  map (cellText (Sample.host Sample.roomy)) (row Sample.nullIsland) !! 4%nat = Some "" /\
  joinRow (Sample.host Sample.roomy) (row Sample.nullIsland) =
    joinRow (Sample.host Sample.roomy) (row (withoutFix Sample.nullIsland)).
Proof.
  assert (Z : zeroNum (Num 0)) by reflexivity.
  split; [exact Z|].
  destruct (export_writes_zero_as_blank (Sample.host Sample.roomy) Sample.nullIsland)
    as (Hlat & _ & _ & _ & Hall).
  split; [exact (proj1 (Hlat Z)) | exact (Hall Z Z Z Z)].
Defined.

(** *** Reading a row back *)

Lemma strOrEmpty_id (s : string) : strOrEmpty s = s.
Proof. destruct s; reflexivity. Qed.

(** An unquoted field without comma or quote is read up to the next
    comma, or to the end of the line. *)
Lemma scan_bare (s : string) :
  Csv.plain s = true ->
  forall cur rest,
    Csv.scan Csv.Bare cur (s +:+ String Csv.comma rest) =
      (cur +:+ s)%string :: Csv.scan Csv.FieldStart EmptyString rest.
Proof.
  induction s as [|c s IH]; intros Hp cur rest.
  - rewrite ?text_app_nil_l, text_app_nil_r. cbn [Csv.scan].
    rewrite ?Ascii.eqb_refl. reflexivity.
  - cbn in Hp. apply andb_prop in Hp as [Hc Hs]. apply andb_prop in Hc as [Hc Hq].
    rewrite ?text_app_cons, ?text_app_nil_l; cbn [Csv.scan].
    apply negb_true_iff in Hc. rewrite Hc.
    rewrite (IH Hs), snoc_app. reflexivity.
Qed.

Lemma scan_bare_end (s : string) :
  Csv.plain s = true ->
  forall cur, Csv.scan Csv.Bare cur s = [(cur +:+ s)%string].
Proof.
  induction s as [|c s IH]; intros Hp cur.
  - rewrite ?text_app_nil_l, text_app_nil_r. cbn [Csv.scan].
    rewrite ?Ascii.eqb_refl. reflexivity.
  - cbn in Hp. apply andb_prop in Hp as [Hc Hs]. apply andb_prop in Hc as [Hc Hq].
    cbn [Csv.scan]. apply negb_true_iff in Hc. rewrite Hc.
    rewrite (IH Hs), snoc_app. reflexivity.
Qed.

Lemma scan_field (s rest : string) :
  Csv.plain s = true ->
  Csv.scan Csv.FieldStart EmptyString (s +:+ String Csv.comma rest) =
    s :: Csv.scan Csv.FieldStart EmptyString rest.
Proof.
  destruct s as [|c s]; intros Hp.
  - reflexivity.
  - cbn in Hp. apply andb_prop in Hp as [Hc Hs]. apply andb_prop in Hc as [Hc Hq].
    rewrite ?text_app_cons, ?text_app_nil_l; cbn [Csv.scan].
    apply negb_true_iff in Hc, Hq. rewrite Hc, Hq.
    now rewrite (scan_bare s Hs).
Qed.

Lemma scan_field_end (s : string) :
  Csv.plain s = true -> Csv.scan Csv.FieldStart EmptyString s = [s].
Proof.
  destruct s as [|c s]; intros Hp.
  - reflexivity.
  - cbn in Hp. apply andb_prop in Hp as [Hc Hs]. apply andb_prop in Hc as [Hc Hq].
    cbn [Csv.scan]. apply negb_true_iff in Hc, Hq. rewrite Hc, Hq.
    now rewrite (scan_bare_end s Hs).
Qed.

(** Inside quotes, the doubled text is read back as the text itself, up
    to the closing quote. *)
Lemma scan_in_quotes (a : string) :
  forall cur rest,
    Csv.scan Csv.InQuotes cur (doubleQuotes a +:+ String quoteChar rest) =
      Csv.scan Csv.QuoteSeen (cur +:+ a)%string rest.
Proof.
  induction a as [|c a IH]; intros cur rest.
  - cbn [doubleQuotes]. rewrite text_app_nil_l. cbn [Csv.scan].
    rewrite Ascii.eqb_refl.
    now rewrite text_app_nil_r.
  - cbn [doubleQuotes]. destruct (Ascii.eqb c quoteChar) eqn:E.
    + apply Ascii.eqb_eq in E. subst c.
      rewrite ?text_app_cons, ?text_app_nil_l; cbn [Csv.scan]. rewrite !Ascii.eqb_refl.
      rewrite IH, snoc_app. reflexivity.
    + rewrite ?text_app_cons, ?text_app_nil_l; cbn [Csv.scan]. rewrite E.
      rewrite IH, snoc_app. reflexivity.
Qed.

(** The address cell reads back as the address, whatever it contains. *)
Lemma scan_quoted_field (a rest : string) :
  Csv.scan Csv.FieldStart EmptyString (quoted a +:+ String Csv.comma rest) =
    a :: Csv.scan Csv.FieldStart EmptyString rest.
Proof.
  unfold quoted. rewrite text_app_cons. cbn [Csv.scan]. rewrite Ascii.eqb_refl.
  rewrite text_app_assoc, text_app_cons, text_app_nil_l.
  rewrite scan_in_quotes. reflexivity.
Qed.

Lemma comma_app (t : string) : ("," +:+ t = String Csv.comma t)%string.
Proof. reflexivity. Qed.

(** A row reads back to the twelve values of its log when the eleven
    texts written without quoting hold neither a comma nor a quote; the
    address may hold anything. *)
Lemma export_row_reads_back (h : Host) (log : Log) :
  forallb Csv.plain (unquotedTexts h log) = true ->
  Csv.readRow (joinRow h (row log)) = fieldsOf h log.
Proof.
  unfold unquotedTexts. cbn [forallb]. intros H.
  repeat (apply andb_prop in H; destruct H as [? H]).
  unfold Csv.readRow, joinRow, row, fieldsOf.
  cbn [map cellText String.concat]. rewrite !strOrEmpty_id, !comma_app.
  repeat (rewrite scan_field by assumption; f_equal).
  rewrite scan_quoted_field. f_equal.
  repeat (rewrite scan_field by assumption; f_equal).
  apply scan_field_end. assumption.
Qed.

(** C5. Only the address cell of a row is quoted: the other texts are
    written as they are.  The sample log carries the local time an en-US
    locale prints, which holds a comma; its row reads back as thirteen
    fields, the local time split in two, and not as the twelve values of
    the log. *)
Theorem export_quotes_only_the_address :
  let h := Sample.host Sample.roomy in
  let line := joinRow h (row Sample.localeLog) in
  row Sample.localeLog !! 2%nat = Some (CStr "11/2/2026, 9:45:00 PM") /\
  row Sample.localeLog !! 8%nat = Some (CStr (quoted "Main St")) /\
  length (Csv.readRow line) = 13%nat /\
  Csv.readRow line !! 2%nat = Some "11/2/2026" /\
  Csv.readRow line !! 3%nat = Some " 9:45:00 PM" /\
  Csv.readRow line <> fieldsOf h Sample.localeLog.
Proof.
  cbv zeta. repeat split; try reflexivity.
  intros H. apply (f_equal (@length string)) in H. vm_compute in H. discriminate.
Qed.

(** ** Climate bands *)

(** Decide the comparisons of a chain one at a time, dropping the branches
    the hypotheses rule out. *)
Ltac split_comparisons :=
  repeat match goal with
         | |- context [Qle_bool ?a ?b] =>
             let E := fresh "E" in
             destruct (Qle_bool a b) eqn:E;
             [ apply Qle_bool_iff in E
             | apply not_true_iff_false in E; rewrite Qle_bool_iff in E ];
             cbn [andb orb negb];
             try (exfalso; lra)
         end.

Lemma locationType_arctic (lat : Q) :
  133 # 2 <= lat -> Geo.locationType lat = "Arctic region".
Proof.
  intros H. unfold Geo.locationType, geb, leb. split_comparisons. reflexivity.
Qed.

Lemma locationType_antarctic (lat : Q) :
  lat <= - (133 # 2) -> Geo.locationType lat = "Antarctic region".
Proof.
  intros H. unfold Geo.locationType, geb, leb. split_comparisons. reflexivity.
Qed.

Lemma locationType_northern (lat : Q) :
  47 # 2 <= lat -> lat < 133 # 2 ->
  Geo.locationType lat = "Northern temperate zone".
Proof.
  intros H1 H2. unfold Geo.locationType, geb, leb. split_comparisons. reflexivity.
Qed.

(** The tropical band is closed at its southern end and open at its
    northern end. *)
Lemma locationType_tropical (lat : Q) :
  - (47 # 2) <= lat -> lat < 47 # 2 -> Geo.locationType lat = "Tropical zone".
Proof.
  intros H1 H2. unfold Geo.locationType, geb, leb. split_comparisons. reflexivity.
Qed.

Lemma locationType_southern (lat : Q) :
  - (133 # 2) < lat -> lat < - (47 # 2) ->
  Geo.locationType lat = "Southern temperate zone".
Proof.
  intros H1 H2. unfold Geo.locationType, geb, leb. split_comparisons. reflexivity.
Qed.

(** Away from the two tropics the band of the opposite latitude is the
    mirror image; this includes the polar circles. *)
Lemma locationType_mirror (lat : Q) :
  ~ lat == 47 # 2 -> ~ lat == - (47 # 2) ->
  Geo.bandOf (Geo.locationType (- lat)) =
    Geo.mirror (Geo.bandOf (Geo.locationType lat)).
Proof.
  intros Hn Hs.
  assert (Hn' : lat < 47 # 2 \/ 47 # 2 < lat)
    by (destruct (Q_dec lat (47 # 2)) as [[?|?]|?]; [left | right | contradiction]; assumption).
  assert (Hs' : lat < - (47 # 2) \/ - (47 # 2) < lat)
    by (destruct (Q_dec lat (- (47 # 2))) as [[?|?]|?]; [left | right | contradiction]; assumption).
  clear Hn Hs.
  destruct (Qlt_le_dec lat (133 # 2)) as [H1|H1].
  2:{ rewrite (locationType_arctic lat), (locationType_antarctic (- lat)) by lra.
      reflexivity. }
  destruct (Qlt_le_dec (- (133 # 2)) lat) as [H2|H2].
  2:{ rewrite (locationType_antarctic lat), (locationType_arctic (- lat)) by lra.
      reflexivity. }
  destruct Hn' as [Hn|Hn], Hs' as [Hs|Hs]; try (exfalso; lra).
  - rewrite (locationType_southern lat), (locationType_northern (- lat)) by lra.
    reflexivity.
  - rewrite (locationType_tropical lat), (locationType_tropical (- lat)) by lra.
    reflexivity.
  - rewrite (locationType_northern lat), (locationType_southern (- lat)) by lra.
    reflexivity.
Qed.

(** Away from the southern tropic the band is the one the absolute
    latitude selects. *)
Lemma locationType_by_absolute_latitude (lat : Q) :
  ~ lat == - (47 # 2) ->
  option_map fst (Geo.bandOf (Geo.locationType lat)) = Some (Geo.bandBySpec lat).
Proof.
  intros Hs.
  assert (Hs' : lat < - (47 # 2) \/ - (47 # 2) < lat)
    by (destruct (Q_dec lat (- (47 # 2))) as [[?|?]|?]; [left | right | contradiction]; assumption).
  clear Hs. unfold Geo.bandBySpec, geb.
  assert (Habs : (0 <= lat /\ Qabs lat == lat) \/ (lat <= 0 /\ Qabs lat == - lat)).
  { destruct (Qlt_le_dec lat 0) as [H|H].
    - right. split; [lra | apply Qabs_neg; lra].
    - left. split; [exact H | apply Qabs_pos; exact H]. }
  destruct (Qlt_le_dec lat (133 # 2)) as [H1|H1].
  2:{ rewrite (locationType_arctic lat) by lra. cbn.
      destruct Habs as [[? Ha]|[? Ha]]; split_comparisons; reflexivity. }
  destruct (Qlt_le_dec (- (133 # 2)) lat) as [H2|H2].
  2:{ rewrite (locationType_antarctic lat) by lra. cbn.
      destruct Habs as [[? Ha]|[? Ha]]; split_comparisons; reflexivity. }
  destruct (Qlt_le_dec lat (47 # 2)) as [H3|H3].
  2:{ rewrite (locationType_northern lat) by lra. cbn.
      destruct Habs as [[? Ha]|[? Ha]]; split_comparisons; reflexivity. }
  destruct Hs' as [Hs|Hs].
  - rewrite (locationType_southern lat) by lra. cbn.
    destruct Habs as [[? Ha]|[? Ha]]; split_comparisons; reflexivity.
  - rewrite (locationType_tropical lat) by lra. cbn.
    destruct Habs as [[? Ha]|[? Ha]]; split_comparisons; reflexivity.
Qed.

(** C7. The chain of comparisons puts latitude 23.5 in the northern
    temperate zone and latitude -23.5 in the tropical zone: at the tropic
    the southern band is not the mirror of the northern one, and -23.5,
    whose absolute value selects the temperate band, is classified
    tropical.  At the polar circles 66.5 and -66.5 the bands do mirror. *)
Theorem climate_band_at_the_tropic_is_not_mirrored :
  Geo.locationType (47 # 2) = "Northern temperate zone" /\
  Geo.locationType (- (47 # 2)) = "Tropical zone" /\
  Geo.bandBySpec (- (47 # 2)) = Geo.Temperate /\
  Geo.bandOf (Geo.locationType (- (47 # 2))) = Some (Geo.Tropical, Geo.Equatorial) /\
  Geo.bandOf (Geo.locationType (- (47 # 2))) <>
    Geo.mirror (Geo.bandOf (Geo.locationType (47 # 2))) /\
  Geo.bandOf (Geo.locationType (- (133 # 2))) =
    Geo.mirror (Geo.bandOf (Geo.locationType (133 # 2))).
Proof.
  repeat split; try reflexivity. vm_compute. discriminate.
Qed.

(** ** The geocode debounce *)

Local Open Scope Z_scope.

(** A fix that arrives while a lookup is pending replaces it: the pending
    timer is cancelled, nothing is sent, and the new timer is the only one
    left. *)
Lemma fixAt_supersedes (t : Z) (lat lng : Q) (l : Timers.Loop)
    (id : nat) (tgt : Q * Q) :
  Timers.pending l = [Timers.MkTimer id (Timers.clock l + Timers.geocodeDelay) tgt] ->
  Timers.geocodeTimeout l = Some id ->
  Timers.clock l <= t < Timers.clock l + Timers.geocodeDelay ->
  Timers.fixAt t lat lng l =
    Timers.MkLoop t (S (Timers.nextId l))
      [Timers.MkTimer (Timers.nextId l) (t + Timers.geocodeDelay) (lat, lng)]
      (Some (Timers.nextId l)) (Timers.requests l).
Proof.
  intros Hp Hg [H1 H2]. unfold Timers.geocodeDelay in *.
  unfold Timers.fixAt, Timers.reverseGeocode, Timers.advanceTo,
    Timers.setTimeout, Timers.clearTimeout, Timers.geocodeDelay.
  cbn -[Z.add Z.max Z.leb Z.ltb]. rewrite Hg, Hp.
  cbn -[Z.add Z.max Z.leb Z.ltb].
  rewrite (Z.max_r (Timers.clock l) t) by lia.
  destruct (Z.leb_spec (Timers.clock l + 1000) t); [lia|].
  destruct (Z.ltb_spec t (Timers.clock l + 1000)); [|lia].
  cbn -[Z.add]. rewrite Nat.eqb_refl. cbn -[Z.add].
  rewrite app_nil_r. reflexivity.
Qed.

(** The first fix of a session only schedules its lookup. *)
Lemma fixAt_idle (t : Z) (lat lng : Q) :
  0 <= t ->
  Timers.fixAt t lat lng Timers.idle =
    Timers.MkLoop t 2 [Timers.MkTimer 1 (t + Timers.geocodeDelay) (lat, lng)]
      (Some 1%nat) [].
Proof.
  intros H. unfold Timers.fixAt, Timers.reverseGeocode, Timers.advanceTo,
    Timers.setTimeout, Timers.clearTimeout, Timers.idle.
  cbn -[Z.add Z.max]. rewrite (Z.max_r 0 t) by lia. reflexivity.
Qed.

(** Once the clock passes the due time of the only pending timer, its
    lookup is sent; before that, nothing is. *)
Lemma advanceTo_single (T : Z) (l : Timers.Loop) (id : nat) (d : Z) (tgt : Q * Q) :
  Timers.pending l = [Timers.MkTimer id d tgt] ->
  (d <= T ->
   Timers.requests (Timers.advanceTo T l) = Timers.requests l ++ [tgt] /\
   Timers.pending (Timers.advanceTo T l) = []) /\
  (T < d ->
   Timers.requests (Timers.advanceTo T l) = Timers.requests l /\
   Timers.pending (Timers.advanceTo T l) = [Timers.MkTimer id d tgt]).
Proof.
  intros Hp. unfold Timers.advanceTo. cbn -[Z.leb Z.ltb Z.max]. rewrite Hp.
  cbn -[Z.leb Z.ltb Z.max].
  split; intros H.
  - destruct (Z.leb_spec d T); [|lia]. destruct (Z.ltb_spec T d); [lia|].
    split; reflexivity.
  - destruct (Z.leb_spec d T); [lia|]. destruct (Z.ltb_spec T d); [|lia].
    cbn. rewrite app_nil_r. split; reflexivity.
Qed.

(** A burst of fixes leaves one pending lookup, for the last fix of the
    burst. *)
Lemma fixesAt_burst (fs : list (Z * (Q * Q))) :
  forall (l : Timers.Loop) (id : nat) (tgt : Q * Q),
    Timers.pending l = [Timers.MkTimer id (Timers.clock l + Timers.geocodeDelay) tgt] ->
    Timers.geocodeTimeout l = Some id ->
    Timers.burst (Timers.clock l) fs ->
    let l' := Timers.fixesAt fs l in
    Timers.requests l' = Timers.requests l /\
    exists id',
      Timers.geocodeTimeout l' = Some id' /\
      Timers.clock l' = List.last (map fst fs) (Timers.clock l) /\
      Timers.pending l' =
        [Timers.MkTimer id' (Timers.clock l' + Timers.geocodeDelay)
           (List.last (map snd fs) tgt)].
Proof.
  induction fs as [|[t [lat lng]] rest IH]; intros l id tgt Hp Hg Hb.
  - cbn. split; [reflexivity|]. exists id. repeat split; assumption.
  - destruct Hb as [Ht Hb]. cbn [fst] in Ht, Hb.
    unfold Timers.fixesAt. cbn [fold_left fst snd].
    rewrite (fixAt_supersedes t lat lng l id tgt Hp Hg Ht).
    set (l1 := Timers.MkLoop _ _ _ _ _).
    destruct (IH l1 (Timers.nextId l) (lat, lng) eq_refl eq_refl Hb)
      as (Hr & id' & Hg' & Hc' & Hp').
    fold (Timers.fixesAt rest l1). cbv zeta. split; [exact Hr|].
    exists id'. split; [exact Hg'|].
    assert (Hlast : forall (A : Type) (x : A) (xs : list A) (d : A),
               List.last (x :: xs) d = List.last xs x).
    { intros A x xs. revert x. induction xs as [|y ys IHy]; intros x d.
      - reflexivity.
      - change (List.last (y :: ys) d = List.last (y :: ys) x).
        rewrite !IHy. reflexivity. }
    cbn [map fst snd]. rewrite !Hlast. split; [exact Hc' | exact Hp'].
Qed.

(** C9. Two fixes that arrive within one debounce delay of each other
    cause exactly one lookup: none is sent before the delay started by the
    second fix has run out, and once it has, the only lookup sent is for
    the coordinates of the second fix. *)
Theorem geocode_debounce_keeps_latest_fix
    (t1 t2 T : Z) (lat1 lng1 lat2 lng2 : Q) :
  0 <= t1 -> t1 <= t2 -> t2 < t1 + Timers.geocodeDelay ->
  let l := Timers.fixAt t2 lat2 lng2 (Timers.fixAt t1 lat1 lng1 Timers.idle) in
  Timers.requests l = [] /\
  (T < t2 + Timers.geocodeDelay -> Timers.requests (Timers.advanceTo T l) = []) /\
  (t2 + Timers.geocodeDelay <= T ->
   Timers.requests (Timers.advanceTo T l) = [(lat2, lng2)] /\
   Timers.pending (Timers.advanceTo T l) = []).
Proof.
  intros H0 H1 H2 l. subst l.
  rewrite (fixAt_idle t1 lat1 lng1 H0).
  rewrite (fixAt_supersedes t2 lat2 lng2
             (Timers.MkLoop t1 2
                [Timers.MkTimer 1 (t1 + Timers.geocodeDelay) (lat1, lng1)]
                (Some 1%nat) [])
             1%nat (lat1, lng1) eq_refl eq_refl)
    by (cbn [Timers.clock]; lia).
  cbn [Timers.nextId Timers.requests].
  set (l := Timers.MkLoop _ _ _ _ _).
  destruct (advanceTo_single T l 2%nat (t2 + Timers.geocodeDelay) (lat2, lng2) eq_refl)
    as [Hdue Hnot].
  split; [reflexivity|]. split.
  - intros H. exact (proj1 (Hnot H)).
  - intros H. exact (Hdue H).
Qed.

(** The scenario of the specification: fixes at 0 ms and 200 ms, observed
    at 1200 ms. *)
Lemma geocode_debounce_keeps_latest_fix_witness :
  0 <= 0 /\ 0 <= 200 /\ 200 < 0 + Timers.geocodeDelay /\
  Timers.requests
    (Timers.advanceTo 1200
       (Timers.fixAt 200 (12345679 # 1000000) (98765433 # 1000000)
          (Timers.fixAt 0 (12345678 # 1000000) (98765432 # 1000000) Timers.idle)))
  = [(12345679 # 1000000, 98765433 # 1000000)%Q].
Proof.
  assert (A : 0 <= 0) by lia.
  assert (B : 0 <= 200) by lia.
  assert (C : 200 < 0 + Timers.geocodeDelay) by (vm_compute; reflexivity).
  split; [exact A|]. split; [exact B|]. split; [exact C|].
  destruct (geocode_debounce_keeps_latest_fix 0 200 1200
              (12345678 # 1000000) (98765432 # 1000000)
              (12345679 # 1000000) (98765433 # 1000000) A B C)
    as (_ & _ & H).
  apply H. vm_compute. discriminate.
Defined.

(** A fix delivered to [updatePosition] goes through the debounce. *)
Lemma updatePosition_debounces (h : Host) (c : Coords) (w : World) :
  timers (updatePosition h c w) =
    Timers.reverseGeocode (latitude c) (longitude c) (timers w) /\
  position (app (updatePosition h c w)) = Some c.
Proof. split; reflexivity. Qed.

(** Without the timer, as in the first revision, every fix is looked
    up. *)
Lemma reverseGeocodeImmediate_sends_each (lat1 lng1 lat2 lng2 : Q) :
  Timers.requests
    (Timers.reverseGeocodeImmediate lat2 lng2
       (Timers.reverseGeocodeImmediate lat1 lng1 Timers.idle))
  = [(lat1, lng1); (lat2, lng2)].
Proof. reflexivity. Qed.

Local Close Scope Z_scope.

(** ** The frame compositor *)

(** Run the context operations of a composition, keeping only what each
    projection needs. *)
Ltac run_canvas :=
  lazy beta iota zeta delta
    [Canvas.setTextBaseline Canvas.setTextAlign Canvas.stroke Canvas.lineTo
     Canvas.moveTo Canvas.beginPath Canvas.setLineWidth Canvas.setStrokeStyle
     Canvas.fillText Canvas.setFillStyle Canvas.setFont Canvas.fillRect
     Canvas.setPath Canvas.paint Canvas.drawImage
     Canvas.ops Canvas.fillStyle Canvas.font Canvas.textAlign
     Canvas.textBaseline Canvas.strokeStyle Canvas.lineWidth Canvas.path].

(** With the watermark enabled, the overlay pass ends by painting the
    banner. *)
Lemma overlay_ends_with_banner (shot : Shot) (st : State) (width height : Q)
    (c0 : Canvas.Ctx) :
  watermarkEnabled (settings st) = true ->
  exists before,
    Canvas.ops (addMetadataOverlay shot st width height c0) =
      Canvas.ops c0 ++ before ++ banner width height.
Proof.
  intros Hw. unfold addMetadataOverlay. rewrite Hw.
  destruct (timestampOnImage (settings st));
    destruct (coordsOnImage (settings st)); destruct (position st) as [p|];
    run_canvas; rewrite <- ?app_assoc; unfold banner, metadataFontSize;
    cbv zeta; cbn [List.app];
    first [ eexists [_]; reflexivity
          | eexists [_; _]; reflexivity
          | eexists [_; _; _]; reflexivity
          | eexists [_; _; _; _]; reflexivity ].
Qed.

Lemma hasBanner_of_banner (width height : Q) (front : list Canvas.DrawOp) (c : Canvas.Ctx) :
  Canvas.ops c = front ++ banner width height ->
  hasBanner (Canvas.MkCanvas width height c) = true.
Proof.
  intros H. unfold hasBanner. cbn [Canvas.ctx]. rewrite H, !existsb_app.
  unfold banner. cbv zeta. cbn [existsb isBand isBrandText isAccentLine Canvas.bold].
  rewrite !orb_true_r. reflexivity.
Qed.

(** The canvas a capture leaves behind is the composed frame. *)
Lemma capture_canvas (h : Host) (shot : Shot) (w : World) (s : Stream) :
  stream (app w) = Some s ->
  canvas (snd (capturePhoto h shot w)) = compose shot s (app w).
Proof.
  intros Hs. unfold capturePhoto. rewrite Hs.
  set (cv := compose shot s (app w)).
  set (w1 := emit Flash (withCanvas cv w)).
  set (p := makePhoto h shot w1 cv).
  assert (Hsave : forall x, canvas (worldOf (savePhotos h x)) = canvas x).
  { intros x. unfold savePhotos, setItem.
    destruct (quotaPolicy h (localStorage x) PHOTOS_KEY _) as [e|]; [|reflexivity].
    destruct (String.eqb e "QuotaExceededError"); [|reflexivity].
    cbn. match goal with |- context [quotaPolicy h ?m ?k ?v] =>
           destruct (quotaPolicy h m k v) end; reflexivity. }
  assert (Hlog : forall x, canvas (addLog h p x) = canvas x).
  { intros x. unfold addLog, saveLogs, setItem.
    match goal with |- context [quotaPolicy h ?m ?k ?v] =>
      destruct (quotaPolicy h m k v) end; reflexivity. }
  pose proof (Hsave (withApp (withPhotos (p :: photos (app w1)) (app w1)) w1)) as Hc.
  fold (appendPhoto h p w1) in Hc.
  destruct (appendPhoto h p w1) as [w2|e w2]; cbn [worldOf] in Hc; cbn [snd].
  - transitivity (canvas (addLog h p w2)).
    + destruct (autoSave _), (canVibrate h); reflexivity.
    + rewrite Hlog. exact Hc.
  - exact Hc.
Qed.

Lemma mathMax_lower (a b : Q) : a <= mathMax a b.
Proof.
  unfold mathMax. destruct (Qle_bool a b) eqn:E.
  - apply Qle_bool_iff in E. exact E.
  - apply Qle_refl.
Qed.

(** C8, as the script has it.  With the watermark enabled, the composed
    frame carries the banner (the band across the top, the brand text in a
    bold font larger than the metadata font, the accent line) whenever the
    overlay pass runs, that is when the timestamp or the coordinates are
    to be drawn; when both are off, the frame is the bare video frame and
    carries no banner. *)
Theorem watermark_banner_when_overlay_runs
    (h : Host) (shot : Shot) (w : World) (s : Stream) :
  stream (app w) = Some s ->
  watermarkEnabled (settings (app w)) = true ->
  let cv := canvas (snd (capturePhoto h shot w)) in
  ((timestampOnImage (settings (app w)) || coordsOnImage (settings (app w)))%bool = true ->
   hasBanner cv = true /\
   (exists before,
      Canvas.ops (Canvas.ctx cv) =
        Canvas.DrawImage (frame shot) 0 0 (Canvas.width cv) (Canvas.height cv)
          :: before ++ banner (Canvas.width cv) (Canvas.height cv)) /\
   metadataFontSize (Canvas.height cv)
     < metadataFontSize (Canvas.height cv) * (25 # 10))
  /\
  ((timestampOnImage (settings (app w)) || coordsOnImage (settings (app w)))%bool = false ->
   Canvas.ops (Canvas.ctx cv) =
     [Canvas.DrawImage (frame shot) 0 0 (Canvas.width cv) (Canvas.height cv)] /\
   hasBanner cv = false).
Proof.
  intros Hs Hw cv. subst cv. rewrite (capture_canvas h shot w s Hs).
  unfold compose. split; intros Hflags; rewrite Hflags; cbn [Canvas.ctx Canvas.width Canvas.height].
  - set (width := numOr (trackWidth s) (qOr (videoWidth shot) 1920)).
    set (height := numOr (trackHeight s) (qOr (videoHeight shot) 1080)).
    destruct (overlay_ends_with_banner shot (app w) width height
                (Canvas.drawImage (frame shot) 0 0 width height Canvas.fresh) Hw)
      as [before Hops].
    split; [|split].
    + apply (hasBanner_of_banner width height
               (Canvas.DrawImage (frame shot) 0 0 width height :: before)).
      rewrite Hops. reflexivity.
    + exists before. rewrite Hops. reflexivity.
    + pose proof (mathMax_lower 14 (18 * (height / 1080))) as Hm.
      unfold metadataFontSize. lra.
  - split; reflexivity.
Qed.

(** The claim as worded, that the banner is there whatever the other two
    flags are, fails for the sample capture with the watermark on and both
    flags off. *)
Lemma watermark_alone_draws_no_banner :
  ~ (forall (h : Host) (shot : Shot) (w : World),
       stream (app w) <> None ->
       watermarkEnabled (settings (app w)) = true ->
       hasBanner (canvas (snd (capturePhoto h shot w))) = true).
Proof.
  intros H.
  specialize (H (Sample.host Sample.roomy) (Sample.shot 1) Sample.brandedOnly).
  assert (Hs : stream (app Sample.brandedOnly) <> None) by discriminate.
  specialize (H Hs eq_refl). vm_compute in H. discriminate.
Qed.

(** The sample capture with watermark, timestamp and coordinates on. *)
Lemma watermark_banner_when_overlay_runs_witness :
  stream (app Sample.branded) = Some Sample.camera /\
  watermarkEnabled (settings (app Sample.branded)) = true /\
  hasBanner
    (canvas (snd (capturePhoto (Sample.host Sample.roomy) (Sample.shot 1) Sample.branded)))
    = true.
Proof.
  assert (Hs : stream (app Sample.branded) = Some Sample.camera) by reflexivity.
  assert (Hw : watermarkEnabled (settings (app Sample.branded)) = true) by reflexivity.
  split; [exact Hs|]. split; [exact Hw|].
  destruct (watermark_banner_when_overlay_runs
              (Sample.host Sample.roomy) (Sample.shot 1) Sample.branded Sample.camera Hs Hw)
    as [Hon _].
  exact (proj1 (Hon eq_refl)).
Defined.

(** ** Degrees, minutes, seconds *)

Lemma floor_bounds (x : Q) :
  inject_Z (Qfloor x) <= x /\ x < inject_Z (Qfloor x) + 1.
Proof.
  split; [apply Qfloor_le|].
  pose proof (Qlt_floor x) as H. rewrite inject_Z_plus in H. exact H.
Qed.

(** [toFixed(2)] of a non-negative Number spells a value within half a
    hundredth of it. *)
Lemma toFixed2_bounds (s : Q) :
  0 <= s ->
  negative (toFixed 2 s) = false /\
  places (toFixed 2 s) = 2%nat /\
  - (5 # 1000) <= Fixed_value (toFixed 2 s) - s <= 5 # 1000.
Proof.
  intros Hs. unfold toFixed, ltb.
  assert (E : Qle_bool 0 s = true) by (apply Qle_bool_iff; exact Hs).
  rewrite E. cbn [negb]. split; [reflexivity|]. split; [reflexivity|].
  unfold Fixed_value. cbn [negative units places].
  change (inject_Z (pow10 2)) with 100. unfold roundHalfUp.
  destruct (floor_bounds (s * 100 + (1 # 2))) as [H1 H2].
  set (n := inject_Z (Qfloor (s * 100 + (1 # 2)))) in *.
  unfold Qdiv. change (/ 100) with (1 # 100). lra.
Qed.

Lemma toDMS_direction (fl : Q -> Q) (value : Q) (isLat : bool) :
  Geo.direction (Geo.toDMS fl value isLat) =
    if isLat
    then (if Qle_bool 0 value then "N" else "S")
    else (if Qle_bool 0 value then "E" else "W").
Proof. reflexivity. Qed.

(** *** The rounding of binary64 *)

Lemma pow2_pos (e : Z) : 0 < pow2 e.
Proof. apply Qpower_0_lt. reflexivity. Qed.

Lemma pow2_nat (a : Z) : (0 <= a)%Z -> pow2 a == inject_Z (2 ^ a).
Proof. intros H. unfold pow2. rewrite (Zpower_Qpower 2 a H). reflexivity. Qed.

(** The exponent found for a positive rational is not too large. *)
Lemma ilog2_lower (x : Q) : 0 < x -> pow2 (ilog2 x) <= x.
Proof.
  intros Hx. unfold ilog2.
  set (a := Z.log2 (Qnum x)). set (b := Z.log2 (Zpos (Qden x))).
  destruct (Qle_bool (pow2 (a - b)) x) eqn:E.
  - apply Qle_bool_iff. exact E.
  - clear E.
    assert (Hn : (0 < Qnum x)%Z).
    { destruct x as [n d]. unfold Qlt in Hx. cbn in *. lia. }
    destruct (Z.log2_spec (Qnum x) Hn) as [Ha _]. fold a in Ha.
    destruct (Z.log2_spec (Zpos (Qden x)) (Pos2Z.is_pos _)) as [_ Hb]. fold b in Hb.
    assert (Ha0 : (0 <= a)%Z) by apply Z.log2_nonneg.
    assert (Hb0 : (0 <= b)%Z) by apply Z.log2_nonneg.
    replace (a - b - 1)%Z with (a - (b + 1))%Z by lia.
    unfold pow2. rewrite Qpower_minus by discriminate.
    fold (pow2 a). fold (pow2 (b + 1)).
    rewrite (pow2_nat a Ha0), (pow2_nat (b + 1)) by lia.
    assert (Hxq : x == inject_Z (Qnum x) / inject_Z (Zpos (Qden x))).
    { destruct x as [n d]. cbn [Qnum Qden]. apply Qmake_Qdiv. }
    rewrite Hxq.
    assert (HA : inject_Z (2 ^ a) <= inject_Z (Qnum x))
      by (rewrite <- Zle_Qle; exact Ha).
    assert (HB : inject_Z (Zpos (Qden x)) < inject_Z (2 ^ (b + 1)))
      by (rewrite <- Zlt_Qlt; exact Hb).
    assert (HD : 0 < inject_Z (Zpos (Qden x)))
      by (change 0 with (inject_Z 0); rewrite <- Zlt_Qlt; lia).
    assert (HA0 : 0 < inject_Z (2 ^ a))
      by (change 0 with (inject_Z 0); rewrite <- Zlt_Qlt;
          apply Z.pow_pos_nonneg; lia).
    set (A := inject_Z (2 ^ a)) in *. set (B := inject_Z (2 ^ (b + 1))) in *.
    set (N := inject_Z (Qnum x)) in *. set (D := inject_Z (Zpos (Qden x))) in *.
    apply Qle_shift_div_r; [lra|].
    unfold Qdiv. rewrite <- Qmult_assoc, (Qmult_comm (/ D)), Qmult_assoc.
    apply Qle_shift_div_l; [exact HD|]. nra.
Qed.

Lemma roundEven_near (y : Q) :
  - (1 # 2) <= inject_Z (roundEven y) - y <= 1 # 2.
Proof.
  unfold roundEven. destruct (floor_bounds y) as [H1 H2].
  destruct (Qcompare_spec (y - inject_Z (Qfloor y)) (1 # 2)) as [E|E|E].
  - destruct (Z.even (Qfloor y)); rewrite ?inject_Z_plus;
      change (inject_Z 1) with 1; lra.
  - lra.
  - rewrite inject_Z_plus. change (inject_Z 1) with 1. lra.
Qed.

Lemma roundEven_nonneg (y : Q) : 0 <= y -> 0 <= inject_Z (roundEven y).
Proof.
  intros Hy. assert (Hf : (0 <= Qfloor y)%Z).
  { change 0%Z with (Qfloor 0). apply Qfloor_resp_le. exact Hy. }
  change 0 with (inject_Z 0). rewrite <- Zle_Qle. unfold roundEven.
  destruct (Qcompare _ _); [destruct (Z.even _)| |]; lia.
Qed.

(** Rounding to binary64 keeps a non-negative value non-negative and
    moves it by at most the unit roundoff times the value, or times one
    for the values the least exponent governs. *)
Lemma binary64_spec (x : Q) :
  0 <= x ->
  0 <= binary64 x /\
  - (Geo.unitRoundoff * (x + 1)) <= binary64 x - x <= Geo.unitRoundoff * (x + 1).
Proof.
  intros Hx. unfold binary64.
  destruct (Qeq_bool x 0) eqn:Ez.
  - apply Qeq_bool_iff in Ez. unfold Geo.unitRoundoff. split; [lra|]. split; lra.
  - assert (Hpos : 0 < x).
    { apply Qeq_bool_neq in Ez. lra. }
    assert (Habs : Qabs x = x).
    { destruct x as [n d]. unfold Qabs. f_equal. apply Z.abs_eq.
      unfold Qle in Hx. cbn in Hx. lia. }
    rewrite Habs.
    assert (E0 : Qle_bool 0 x = true) by (apply Qle_bool_iff; exact Hx).
    rewrite E0.
    pose proof (ilog2_lower x Hpos) as Hk.
    set (k := ilog2 x) in *.
    set (e := Z.max (k - 52) (-1074)).
    pose proof (pow2_pos e) as HP.
    assert (HPb : pow2 e <= (1 # 4503599627370496) * (x + 1)).
    { subst e. destruct (Z.max_spec (k - 52) (-1074)) as [[_ ->]|[_ ->]].
      - assert (H : pow2 (-1074) <= pow2 (-52))
          by (apply Qpower_le_compat_l; [lia | discriminate]).
        assert (H52 : pow2 (-52) == 1 # 4503599627370496) by reflexivity.
        rewrite H52 in H. generalize dependent (pow2 (-1074)). intros P H. lra.
      - unfold pow2. rewrite Qpower_minus by discriminate.
        fold (pow2 k). assert (H52 : 2 ^ 52 == 4503599627370496) by reflexivity.
        rewrite H52. unfold Qdiv.
        change (/ 4503599627370496) with (1 # 4503599627370496). lra. }
    generalize dependent (pow2 e). intros P HP HPb.
    pose proof (roundEven_near (x / P)) as [Hm1 Hm2].
    assert (Hy : 0 <= x / P) by (apply Qle_shift_div_l; [exact HP | lra]).
    pose proof (roundEven_nonneg (x / P) Hy) as Hm0.
    assert (Hxy : x / P * P == x).
    { rewrite Qmult_comm. apply Qmult_div_r. lra. }
    generalize dependent (inject_Z (roundEven (x / P))). intros m Hm1 Hm2 Hm0.
    generalize dependent (x / P). intros y Hy Hxy Hm1 Hm2.
    unfold Geo.unitRoundoff. split; [nra|]. split; nra.
Qed.

(** One tenth and one third round to the doubles every host prints. *)
Example binary64_tenth :
  binary64 (1 # 10) == 3602879701896397 # 36028797018963968 /\
  binary64 (1 # 3) == 6004799503160661 # 18014398509481984 /\
  binary64 (133 # 2) == 133 # 2.
Proof. repeat split; vm_compute; reflexivity. Qed.

Section DmsRoundTrip.

(** The rounding of the host arithmetic, on the range the conversion
    uses: it keeps non-negative results non-negative, and is off by at
    most the unit roundoff relative to the result, or absolutely for
    results below one. *)
Variable fl : Q -> Q.
Hypothesis fl_nonneg : forall x, 0 <= x <= 64 -> 0 <= fl x.
Hypothesis fl_error :
  forall x, 0 <= x <= 64 -> Qabs (fl x - x) <= Geo.unitRoundoff * (x + 1).

Lemma fl_bounds (x : Q) :
  0 <= x <= 64 ->
  0 <= fl x /\
  - (Geo.unitRoundoff * (x + 1)) <= fl x - x <= Geo.unitRoundoff * (x + 1).
Proof.
  intros H. split; [apply fl_nonneg, H|].
  apply Qabs_Qle_condition, fl_error, H.
Qed.

(** The magnitude read back from the three parts is within a hundredth of
    an arcsecond of the absolute value converted. *)
Lemma toDMS_magnitude (value : Q) (isLat : bool) :
  let d := Geo.toDMS fl value isLat in
  - Geo.centiArcsecond <=
    inject_Z (Geo.degrees d) + inject_Z (Geo.minutes d) / 60
      + Fixed_value (Geo.seconds d) / 3600 - Qabs value
    <= Geo.centiArcsecond.
Proof.
  intros d. subst d. unfold Geo.toDMS. cbn [Geo.degrees Geo.minutes Geo.seconds].
  pose proof (Qabs_nonneg value) as Ha. set (a := Qabs value) in *.
  destruct (floor_bounds a) as [D1 D2]. set (D := inject_Z (Qfloor a)) in *.
  assert (Hf : 0 <= a - D <= 64) by lra.
  destruct (fl_bounds _ Hf) as [F0 F1]. set (f1 := fl (a - D)) in *.
  unfold Geo.unitRoundoff in F1.
  assert (Hp : 0 <= f1 * 60 <= 64) by lra.
  destruct (fl_bounds _ Hp) as [P0 P1]. set (md := fl (f1 * 60)) in *.
  unfold Geo.unitRoundoff in P1.
  destruct (floor_bounds md) as [M1 M2]. set (m := inject_Z (Qfloor md)) in *.
  assert (Hg : 0 <= md - m <= 64) by lra.
  destruct (fl_bounds _ Hg) as [G0 G1]. set (g1 := fl (md - m)) in *.
  unfold Geo.unitRoundoff in G1.
  assert (Hq : 0 <= g1 * 60 <= 64) by lra.
  destruct (fl_bounds _ Hq) as [S0 S1]. set (s := fl (g1 * 60)) in *.
  unfold Geo.unitRoundoff in S1.
  destruct (toFixed2_bounds s S0) as (_ & _ & T1).
  set (sec := Fixed_value (toFixed 2 s)) in *.
  unfold Geo.centiArcsecond, Qdiv.
  change (/ 60) with (1 # 60). change (/ 3600) with (1 # 3600).
  lra.
Qed.

Lemma toDMS_round_trip (value : Q) (isLat : bool) :
  Qabs (Geo.dmsToDecimal (Geo.toDMS fl value isLat) - value) <= Geo.centiArcsecond.
Proof.
  pose proof (toDMS_magnitude value isLat) as H. cbv zeta in H.
  unfold Geo.dmsToDecimal. rewrite toDMS_direction.
  set (mag := inject_Z _ + _ / 60 + _ / 3600) in *.
  apply Qabs_Qle_condition.
  destruct (Qle_bool 0 value) eqn:E.
  - apply Qle_bool_iff in E. pose proof (Qabs_pos value E) as Ha.
    destruct isLat;
      [ replace (String.eqb "N" "S" || String.eqb "N" "W")%bool with false by reflexivity
      | replace (String.eqb "E" "S" || String.eqb "E" "W")%bool with false by reflexivity ];
      set (a := Qabs value) in *; lra.
  - apply not_true_iff_false in E. rewrite Qle_bool_iff in E.
    assert (E' : value <= 0) by lra. pose proof (Qabs_neg value E') as Ha.
    destruct isLat;
      [ replace (String.eqb "S" "S" || String.eqb "S" "W")%bool with true by reflexivity
      | replace (String.eqb "W" "S" || String.eqb "W" "W")%bool with true by reflexivity ];
      set (a := Qabs value) in *; lra.
Qed.

(** The parts of one converted coordinate. *)
Lemma toDMS_parts (value : Q) (isLat : bool) :
  let d := Geo.toDMS fl value isLat in
  let minutesDecimal := fl (fl (Qabs value - inject_Z (Qfloor (Qabs value))) * 60) in
  let secondsDecimal := fl (fl (minutesDecimal - inject_Z (Qfloor minutesDecimal)) * 60) in
  Geo.degrees d = Qfloor (Qabs value) /\
  Geo.minutes d = Qfloor minutesDecimal /\
  Geo.seconds d = toFixed 2 secondsDecimal /\
  places (Geo.seconds d) = 2%nat /\
  Qabs (Fixed_value (Geo.seconds d) - secondsDecimal) <= 5 # 1000 /\
  (0 <= value -> Geo.direction d = if isLat then "N" else "E") /\
  (value < 0 -> Geo.direction d = if isLat then "S" else "W").
Proof.
  intros d minutesDecimal secondsDecimal.
  split; [reflexivity|]. split; [reflexivity|]. split; [reflexivity|].
  assert (Hs : 0 <= secondsDecimal).
  { pose proof (Qabs_nonneg value) as Ha.
    destruct (floor_bounds (Qabs value)) as [D1 D2].
    assert (Hf : 0 <= Qabs value - inject_Z (Qfloor (Qabs value)) <= 64) by lra.
    destruct (fl_bounds _ Hf) as [F0 F1]. unfold Geo.unitRoundoff in F1.
    assert (Hp : 0 <= fl (Qabs value - inject_Z (Qfloor (Qabs value))) * 60 <= 64) by lra.
    destruct (fl_bounds _ Hp) as [P0 P1]. fold minutesDecimal in P0, P1.
    unfold Geo.unitRoundoff in P1.
    destruct (floor_bounds minutesDecimal) as [M1 M2].
    assert (Hg : 0 <= minutesDecimal - inject_Z (Qfloor minutesDecimal) <= 64) by lra.
    destruct (fl_bounds _ Hg) as [G0 G1]. unfold Geo.unitRoundoff in G1.
    apply fl_nonneg. lra. }
  destruct (toFixed2_bounds secondsDecimal Hs) as (_ & Hpl & Hv).
  split; [exact Hpl|]. split; [apply Qabs_Qle_condition; exact Hv|].
  subst d. rewrite toDMS_direction. split; intros H.
  - apply Qle_bool_iff in H. rewrite H. reflexivity.
  - assert (E : Qle_bool 0 value = false).
    { apply not_true_iff_false. rewrite Qle_bool_iff. lra. }
    rewrite E. reflexivity.
Qed.

(** C6. For a latitude and a longitude, [decimalToDMS] gives for each:
    degrees, the floor of the absolute value; minutes, the floor of sixty
    times the fractional degrees; seconds, sixty times the fractional
    minutes rounded to two decimal places; the direction letter, N or S by
    the sign of the latitude and E or W by the sign of the longitude; and
    the four parts read back as decimal degrees are within a hundredth of
    an arcsecond of the value converted. *)
Theorem decimalToDMS_parts_and_round_trip (lat lng : Q) :
  let d := Geo.decimalToDMS fl lat lng in
  let minutesOf v := fl (fl (Qabs v - inject_Z (Qfloor (Qabs v))) * 60) in
  let secondsOf v := fl (fl (minutesOf v - inject_Z (Qfloor (minutesOf v))) * 60) in
  (Geo.degrees (Geo.latitude d) = Qfloor (Qabs lat) /\
   Geo.minutes (Geo.latitude d) = Qfloor (minutesOf lat) /\
   Geo.seconds (Geo.latitude d) = toFixed 2 (secondsOf lat) /\
   Qabs (Fixed_value (Geo.seconds (Geo.latitude d)) - secondsOf lat) <= 5 # 1000 /\
   (0 <= lat -> Geo.direction (Geo.latitude d) = "N") /\
   (lat < 0 -> Geo.direction (Geo.latitude d) = "S") /\
   Qabs (Geo.dmsToDecimal (Geo.latitude d) - lat) <= Geo.centiArcsecond)
  /\
  (Geo.degrees (Geo.longitude d) = Qfloor (Qabs lng) /\
   Geo.minutes (Geo.longitude d) = Qfloor (minutesOf lng) /\
   Geo.seconds (Geo.longitude d) = toFixed 2 (secondsOf lng) /\
   Qabs (Fixed_value (Geo.seconds (Geo.longitude d)) - secondsOf lng) <= 5 # 1000 /\
   (0 <= lng -> Geo.direction (Geo.longitude d) = "E") /\
   (lng < 0 -> Geo.direction (Geo.longitude d) = "W") /\
   Qabs (Geo.dmsToDecimal (Geo.longitude d) - lng) <= Geo.centiArcsecond).
Proof.
  intros d minutesOf secondsOf. subst d. unfold Geo.decimalToDMS.
  cbn [Geo.latitude Geo.longitude]. split.
  - destruct (toDMS_parts lat true) as (H1 & H2 & H3 & _ & H5 & H6 & H7).
    repeat (split; [assumption|]). apply toDMS_round_trip.
  - destruct (toDMS_parts lng false) as (H1 & H2 & H3 & _ & H5 & H6 & H7).
    repeat (split; [assumption|]). apply toDMS_round_trip.
Qed.

End DmsRoundTrip.

(** With the arithmetic of binary64, and with exact arithmetic, the
    round trip holds outright. *)
Lemma toDMS_binary64_round_trip (value : Q) (isLat : bool) :
  Qabs (Geo.dmsToDecimal (Geo.toDMS binary64 value isLat) - value)
    <= Geo.centiArcsecond.
Proof.
  apply toDMS_round_trip.
  - intros x H. exact (proj1 (binary64_spec x (proj1 H))).
  - intros x H. apply Qabs_Qle_condition.
    exact (proj2 (binary64_spec x (proj1 H))).
Qed.

Lemma toDMS_exact_round_trip (value : Q) (isLat : bool) :
  Qabs (Geo.dmsToDecimal (Geo.toDMS (fun x => x) value isLat) - value)
    <= Geo.centiArcsecond.
Proof.
  apply toDMS_round_trip.
  - intros x H. exact (proj1 H).
  - intros x H. apply Qabs_Qle_condition. unfold Geo.unitRoundoff. split; lra.
Qed.

(** The arithmetic of binary64 meets the two assumptions; the sample fix
    of the specification, 12.345678 north and 98.765432 east. *)
Lemma decimalToDMS_parts_and_round_trip_witness :
  (forall x : Q, 0 <= x <= 64 -> 0 <= binary64 x) /\
  (forall x : Q, 0 <= x <= 64 ->
     Qabs (binary64 x - x) <= Geo.unitRoundoff * (x + 1)) /\
  Qabs (Geo.dmsToDecimal
          (Geo.latitude
             (Geo.decimalToDMS binary64 (12345678 # 1000000) (98765432 # 1000000)))
        - (12345678 # 1000000))
    <= Geo.centiArcsecond.
Proof.
  assert (A : forall x : Q, 0 <= x <= 64 -> 0 <= binary64 x)
    by (intros x H; exact (proj1 (binary64_spec x (proj1 H)))).
  assert (B : forall x : Q, 0 <= x <= 64 ->
            Qabs (binary64 x - x) <= Geo.unitRoundoff * (x + 1)).
  { intros x H. apply Qabs_Qle_condition.
    exact (proj2 (binary64_spec x (proj1 H))). }
  split; [exact A|]. split; [exact B|].
  destruct (decimalToDMS_parts_and_round_trip binary64 A B
              (12345678 # 1000000) (98765432 # 1000000)) as [Hlat _].
  exact (proj2 (proj2 (proj2 (proj2 (proj2 (proj2 Hlat)))))).
Defined.

(* ===================================================================== *)
(** * Further properties of the script *)
(* ===================================================================== *)

(** ** Identifiers *)

Local Open Scope N_scope.

Lemma digitValue_upper (c : ascii) :
  Ids.digitValue (Ids.upper c) = Ids.digitValue c.
Proof.
  destruct c as [[] [] [] [] [] [] [] []]; vm_compute; reflexivity.
Qed.

Lemma below_36 (k : N) (P : N -> Prop) :
  (k < 36)%N ->
  Forall P (map N.of_nat (seq 0 36)) ->
  P k.
Proof.
  intros Hk HP. rewrite List.Forall_forall in HP. apply HP.
  rewrite <- (N2Nat.id k). apply in_map. apply in_seq. lia.
Qed.

Lemma digit36_facts (k : N) :
  (k < 36)%N ->
  Ids.digitValue (Ids.digit36 k) = k /\
  Ascii.eqb (Ids.upper (Ids.digit36 k)) Ids.dash = false.
Proof.
  intros Hk. apply (below_36 k (fun k =>
    Ids.digitValue (Ids.digit36 k) = k /\
    Ascii.eqb (Ids.upper (Ids.digit36 k)) Ids.dash = false) Hk).
  repeat constructor.
Qed.

Lemma valueFrom_toUpperCase (s : string) :
  forall v, Ids.valueFrom v (Ids.toUpperCase s) = Ids.valueFrom v s.
Proof.
  induction s as [|c s IH]; intros v; [reflexivity|].
  cbn [Ids.toUpperCase Ids.valueFrom]. rewrite digitValue_upper. apply IH.
Qed.

(** The digits written for [n] spell [n]. *)
Lemma digits36_value (fuel : nat) :
  forall (n : N) (acc : string),
    (n < 2 ^ N.of_nat fuel)%N ->
    exists d : N,
      forall v, Ids.valueFrom v (Ids.digits36 fuel n acc) =
                Ids.valueFrom (v * 36 ^ d + n)%N acc.
Proof.
  induction fuel as [|f IH]; intros n acc Hn.
  - exists 0%N. intros v. cbn [Ids.digits36].
    assert (n = 0%N) by (cbn in Hn; lia). subst n.
    f_equal. cbn. lia.
  - cbn [Ids.digits36].
    assert (Hm : (n mod 36 < 36)%N) by (apply N.mod_lt; discriminate).
    destruct (digit36_facts _ Hm) as [Hd _].
    pose proof (N.div_mod' n 36) as Hdm.
    destruct (N.eqb_spec (n / 36) 0) as [E|E].
    + exists 1%N. intros v. cbn [Ids.valueFrom]. rewrite Hd. f_equal.
      rewrite E in Hdm. rewrite N.pow_1_r. lia.
    + assert (Hq : (n / 36 < 2 ^ N.of_nat f)%N).
      { apply N.Div0.div_lt_upper_bound.
        rewrite Nat2N.inj_succ, N.pow_succ_r' in Hn. lia. }
      destruct (IH (n / 36)%N (String (Ids.digit36 (n mod 36)) acc) Hq) as [d Hdv].
      exists (d + 1)%N. intros v. rewrite Hdv. cbn [Ids.valueFrom]. rewrite Hd.
      f_equal. rewrite N.pow_add_r, N.pow_1_r. lia.
Qed.

(** The stamp of a clock reading spells that reading: it can be read back
    from an id. *)
Lemma stampOf_value (now : N) : Ids.valueFrom 0 (Ids.stampOf now) = now.
Proof.
  unfold Ids.stampOf, Ids.toString36. rewrite valueFrom_toUpperCase.
  destruct (digits36_value (S (N.to_nat (N.log2 now))) now EmptyString) as [d Hd].
  - rewrite Nat2N.inj_succ, N2Nat.id.
    destruct (N.eq_dec now 0) as [->|Hpos]; [reflexivity|].
    apply N.log2_spec. lia.
  - rewrite Hd. cbn [Ids.valueFrom]. lia.
Qed.

Lemma digits36_dashFree (fuel : nat) :
  forall (n : N) (acc : string),
    Ids.dashFree (Ids.toUpperCase acc) = true ->
    Ids.dashFree (Ids.toUpperCase (Ids.digits36 fuel n acc)) = true.
Proof.
  induction fuel as [|f IH]; intros n acc Hacc; [exact Hacc|].
  cbn [Ids.digits36].
  assert (Hm : (n mod 36 < 36)%N) by (apply N.mod_lt; discriminate).
  destruct (digit36_facts _ Hm) as [_ Hdash].
  assert (Hacc' : Ids.dashFree
            (Ids.toUpperCase (String (Ids.digit36 (n mod 36)) acc)) = true).
  { cbn [Ids.toUpperCase Ids.dashFree]. rewrite Hdash, Hacc. reflexivity. }
  destruct (n / 36 =? 0)%N; [exact Hacc' | apply IH, Hacc'].
Qed.

Lemma stampOf_dashFree (now : N) : Ids.dashFree (Ids.stampOf now) = true.
Proof. apply digits36_dashFree. reflexivity. Qed.

(** Two texts without dash, each followed by a dash and a tail: equal
    wholes have equal parts. *)
Lemma dash_split (t1 : string) :
  forall t2 r1 r2,
    Ids.dashFree t1 = true -> Ids.dashFree t2 = true ->
    (t1 +:+ String Ids.dash r1 = t2 +:+ String Ids.dash r2)%string ->
    t1 = t2 /\ r1 = r2.
Proof.
  induction t1 as [|c t1 IH]; intros t2 r1 r2 H1 H2 E.
  - destruct t2 as [|c2 t2].
    + rewrite !text_app_nil_l in E. injection E as ->. split; reflexivity.
    + rewrite text_app_nil_l, text_app_cons in E. injection E as <- _.
      cbn in H2. rewrite Ascii.eqb_refl in H2. discriminate.
  - destruct t2 as [|c2 t2].
    + rewrite text_app_nil_l, text_app_cons in E. injection E as -> _.
      cbn in H1. rewrite Ascii.eqb_refl in H1. discriminate.
    + rewrite !text_app_cons in E. injection E as -> E.
      cbn in H1, H2. apply andb_prop in H1 as [_ H1]. apply andb_prop in H2 as [_ H2].
      destruct (IH t2 r1 r2 H1 H2 E) as [-> ->]. split; reflexivity.
Qed.

Lemma stamped_ids_differ (prefix : string) (now1 now2 : N) (r1 r2 : string) :
  now1 <> now2 ->
  (prefix +:+ Ids.stampOf now1 +:+ "-" +:+ r1 <>
   prefix +:+ Ids.stampOf now2 +:+ "-" +:+ r2)%string.
Proof.
  intros Hne E. apply String.app_inj in E.
  change ("-" +:+ r1)%string with (String Ids.dash r1) in E.
  change ("-" +:+ r2)%string with (String Ids.dash r2) in E.
  destruct (dash_split _ _ _ _ (stampOf_dashFree now1) (stampOf_dashFree now2) E)
    as [Hs _].
  apply Hne. rewrite <- (stampOf_value now1), <- (stampOf_value now2), Hs.
  reflexivity.
Qed.

(** X1. Ids made at different readings of the clock differ, whatever the
    random parts are: two captures whose stamps come from different
    milliseconds get different photo ids, and two page loads at different
    milliseconds get different session ids. *)
Theorem ids_of_different_instants_differ
    (shot1 shot2 : Shot) (now1 now2 : N) (random1 random2 : string) :
  idTimestamp shot1 = Ids.stampOf now1 ->
  idTimestamp shot2 = Ids.stampOf now2 ->
  now1 <> now2 ->
  generatePhotoId shot1 <> generatePhotoId shot2 /\
  Ids.generatePhotoId now1 random1 <> Ids.generatePhotoId now2 random2 /\
  Ids.generateSessionId now1 random1 <> Ids.generateSessionId now2 random2.
Proof.
  intros H1 H2 Hne. unfold generatePhotoId, Ids.generatePhotoId, Ids.generateSessionId.
  rewrite H1, H2. repeat split; apply stamped_ids_differ; exact Hne.
Qed.

Lemma ids_of_different_instants_differ_witness :
  idTimestamp (Sample.shot 1) = Ids.stampOf 1762170065064 /\
  generatePhotoId (Sample.shot 1) <>
    generatePhotoId
      (MkShot 2 1920 1080 "" "" "" "" "UTC" (Ids.stampOf 1762170065065) "1" "Linux").
Proof.
  assert (H1 : idTimestamp (Sample.shot 1) = Ids.stampOf 1762170065064)
    by (vm_compute; reflexivity).
  split; [exact H1|].
  refine (proj1 (ids_of_different_instants_differ (Sample.shot 1)
                   (MkShot 2 1920 1080 "" "" "" "" "UTC"
                      (Ids.stampOf 1762170065065) "1" "Linux")
                   1762170065064 1762170065065 "0.abcdef" "0.abcdef" H1 eq_refl _)).
  discriminate.
Defined.

Local Close Scope N_scope.

(** ** Handing photos to the device *)

Lemma downloadPhotoDirect_effects (p : Photo) (w : World) :
  effects (Device.downloadPhotoDirect p w) = effects w ++ Device.downloadTrace p /\
  app (Device.downloadPhotoDirect p w) = app w /\
  localStorage (Device.downloadPhotoDirect p w) = localStorage w /\
  attempts (Device.downloadPhotoDirect p w) = attempts w.
Proof.
  unfold Device.downloadPhotoDirect, Device.downloadTrace, showToast, emit.
  cbn. rewrite <- app_assoc. repeat split.
Qed.

(** X2. [saveToDevice] never raises and leaves the state and the store as
    they are.  On every path it shows exactly one toast, the last thing it
    does, and always of kind success: also when the picker or the share
    failed and nothing was delivered.  What is delivered is named after
    the photo id, with the suffix .jpg.  The direct download is the
    fallback only when there is no file picker and no sharing of files: a
    picker or a share that fails is not followed by another attempt. *)
Theorem saveToDevice_one_success_toast (pf : Device.Platform) (photo : Photo) (w : World) :
  let r := Device.saveToDevice pf photo w in
  app (snd r) = app w /\
  localStorage (snd r) = localStorage w /\
  attempts (snd r) = attempts w /\
  (exists front message,
     effects (snd r) = effects w ++ front ++ [Toast message "success"] /\
     Forall Device.notToast front /\
     (In (Download (Device.jpgName photo) (imageData photo)) front <->
      fst r = Device.Downloaded (Device.jpgName photo) (imageData photo))) /\
  match fst r with
  | Device.Written name data =>
      name = (photoId photo +:+ ".jpg")%string /\ data = imageData photo /\
      Device.hasSaveFilePicker pf = true
  | Device.Shared name _ data =>
      name = (photoId photo +:+ ".jpg")%string /\ data = imageData photo /\
      Device.hasSaveFilePicker pf = false
  | Device.Downloaded name data =>
      name = (photoId photo +:+ ".jpg")%string /\ data = imageData photo /\
      Device.hasSaveFilePicker pf = false /\
      (Device.hasShare pf && Device.canShareFiles pf)%bool = false
  | Device.Undelivered e =>
      (Device.hasSaveFilePicker pf = true /\ Device.pickerError pf = Some e) \/
      (Device.hasSaveFilePicker pf = false /\ Device.shareError pf = Some e)
  end.
Proof.
  unfold Device.saveToDevice, Device.saveFailed.
  destruct pf as [picker perr share can serr]. cbn [Device.hasSaveFilePicker
    Device.pickerError Device.hasShare Device.canShareFiles Device.shareError].
  destruct picker; [destruct perr as [e|] | destruct (share && can)%bool eqn:Es;
    [destruct serr as [e|] |]];
    try destruct (String.eqb e "AbortError");
    cbn [fst snd]; (split; [reflexivity|]); (split; [reflexivity|]);
    (split; [reflexivity|]); split;
    try (left; split; reflexivity); try (right; split; reflexivity);
    try (repeat split; reflexivity).
  all: try (exists []; eexists; cbn; split; [reflexivity|]; split; [constructor|];
            split; [intros [] | discriminate]).
  all: try (exists [ConsoleError "Save error:"]; eexists; cbn; rewrite <- app_assoc;
            split; [reflexivity|]; split; [repeat constructor|];
            split; [intros [H|[]]; discriminate | discriminate]).
  exists [Download (Device.jpgName photo) (imageData photo)]; eexists.
  unfold Device.downloadPhotoDirect, showToast, emit. cbn. rewrite <- app_assoc.
  split; [reflexivity|]. split; [repeat constructor|].
  split; [reflexivity | left; reflexivity].
Qed.

(** The turns of [saveAllPhotos] from an index on, when nothing else
    runs in the pauses. *)
Lemma saveAllResume_from (h : Host) (rest : list Photo) :
  forall (done : list Photo) (w : World),
    photos (app w) = done ++ rest ->
    exists w',
      Device.saveAllResume h (S (length rest)) (Device.Running (length done), w)
        = (Device.Finished, w') /\
      app w' = app w /\
      effects w' =
        effects w ++ flat_map Device.downloadTrace rest
          ++ [Toast ("Saved " +:+ Device.countText h w +:+ " photos! 📥")%string "success"].
Proof.
  induction rest as [|p rest IH]; intros done w Hps.
  - cbn [Device.saveAllResume length]. unfold Device.saveAllTurn.
    rewrite Hps, app_nil_r, lookup_ge_None_2 by lia.
    eexists. split; [reflexivity|]. split; [reflexivity|]. reflexivity.
  - cbn [Device.saveAllResume length]. unfold Device.saveAllTurn at 1.
    assert (Hi : photos (app w) !! length done = Some p).
    { rewrite Hps. rewrite lookup_app_r by lia. rewrite Nat.sub_diag. reflexivity. }
    rewrite Hi.
    destruct (downloadPhotoDirect_effects p w) as (He & Ha & _ & _).
    destruct (IH (done ++ [p]) (Device.downloadPhotoDirect p w)) as (w' & E & Ha' & He').
    { rewrite Ha, Hps, <- app_assoc. reflexivity. }
    rewrite length_app in E. cbn [length] in E.
    replace (length done + 1)%nat with (S (length done)) in E by lia.
    exists w'. split; [exact E|]. split; [now rewrite Ha', Ha|].
    rewrite He', He. cbn [flat_map]. unfold Device.countText. rewrite Ha.
    rewrite <- !app_assoc. reflexivity.
Qed.

(** X3. [saveAllPhotos] on an empty collection only reports No photos to
    save.  Otherwise, when nothing else runs during its pauses, it returns
    after one turn per photo: it announces the count, downloads every
    photo of the collection exactly once, in the order of the collection
    (newest first), each under its id with the suffix .jpg and each
    followed by its own toast, and ends with the toast of the count; the
    state is not changed. *)
Theorem saveAllPhotos_downloads_each_once (h : Host) (w : World) :
  exists w',
    Device.saveAllResume h (length (photos (app w))) (Device.saveAllPhotos h w)
      = (Device.Finished, w') /\
    app w' = app w /\
    effects w' =
      effects w ++
      match photos (app w) with
      | [] => [Toast "No photos to save" "error"]
      | ps =>
          Toast ("Saving " +:+ Device.countText h w +:+ " photos...")%string "info"
            :: flat_map Device.downloadTrace ps
            ++ [Toast ("Saved " +:+ Device.countText h w +:+ " photos! 📥")%string
                  "success"]
      end.
Proof.
  unfold Device.saveAllPhotos. destruct (photos (app w)) as [|p ps] eqn:Hps.
  - eexists. cbn [Device.saveAllResume length]. split; [reflexivity|].
    split; reflexivity.
  - set (w0 := showToast _ "info" w).
    assert (Hp0 : photos (app w0) = p :: ps) by exact Hps.
    unfold Device.saveAllTurn. rewrite Hp0. cbn [lookup list_lookup].
    destruct (downloadPhotoDirect_effects p w0) as (He & Ha & _ & _).
    destruct (saveAllResume_from h ps [p] (Device.downloadPhotoDirect p w0))
      as (w' & E & Ha' & He').
    { rewrite Ha. exact Hp0. }
    cbn [length] in E |- *. exists w'. split; [exact E|].
    split; [rewrite Ha', Ha; reflexivity|].
    assert (Hc : Device.countText h (Device.downloadPhotoDirect p w0)
                 = Device.countText h w)
      by (unfold Device.countText; rewrite Ha; reflexivity).
    rewrite He', He, Hc. subst w0.
    cbn [flat_map]. unfold showToast, emit. cbn [effects app].
    rewrite <- !app_assoc. reflexivity.
Qed.

(** Below twenty photos, a recorded capture puts its photo in front of
    the collection, whatever the store answered. *)
Lemma capture_prepends (h : Host) (shot : Shot) (w w' : World) (photo : Photo) :
  capturePhoto h shot w = (Recorded photo, w') ->
  (length (photos (app w)) < 20)%nat ->
  photos (app w') = photo :: photos (app w).
Proof.
  unfold capturePhoto. destruct (stream (app w)) as [s|]; [|discriminate].
  set (cv := compose shot s (app w)).
  set (w1 := emit Flash (withCanvas cv w)).
  set (p := makePhoto h shot w1 cv).
  unfold appendPhoto.
  set (w0 := withApp (withPhotos (p :: photos (app w1)) (app w1)) w1).
  pose proof (savePhotos_frame h w0) as Hframe.
  destruct (savePhotos h w0) as [w2|e w2]; [|discriminate].
  cbn [worldOf] in Hframe. destruct Hframe as (_ & _ & _ & Hp).
  intros H Hlen. injection H as <- <-.
  destruct (addLog_spec h p w2) as (Hp3 & _).
  transitivity (photos (app (addLog h p w2))).
  { destruct (canVibrate h), (autoSave (settings (app (addLog h p w2))));
      reflexivity. }
  rewrite Hp3. destruct Hp as [-> | ->]; [reflexivity|].
  change (photos (app w0)) with (p :: photos (app w)).
  change (take 20 (p :: photos (app w))) with (p :: take 19 (photos (app w))).
  rewrite take_ge by lia. reflexivity.
Qed.

(** X4. The loop of [saveAllPhotos] reads the collection anew at every
    turn.  When a capture is recorded during one of its pauses, the
    collection has shifted by one: the next turn downloads again the photo
    the previous turn downloaded, and the turns that remain never reach
    the new photo, which sits at index 0. *)
Theorem saveAllPhotos_repeats_after_capture
    (h : Host) (shot : Shot) (i : nat) (w w' : World) (q photo : Photo) :
  photos (app w) !! i = Some q ->
  capturePhoto h shot w = (Recorded photo, w') ->
  (length (photos (app w)) < 20)%nat ->
  Device.saveAllTurn h i w = (Device.Running (S i), Device.downloadPhotoDirect q w) /\
  Device.saveAllTurn h (S i) w' = (Device.Running (S (S i)), Device.downloadPhotoDirect q w') /\
  photos (app w') !! 0%nat = Some photo /\
  forall j, photos (app w') !! S j = photos (app w) !! j.
Proof.
  intros Hq Hc Hlen. pose proof (capture_prepends h shot w w' photo Hc Hlen) as Hp.
  unfold Device.saveAllTurn. rewrite Hq, Hp.
  change ((photo :: photos (app w)) !! S i) with (photos (app w) !! i).
  rewrite Hq. repeat split.
Qed.

(** ** Gallery preview *)

(** A recorded capture leaves its photo at the head of the collection. *)
Lemma capture_head (h : Host) (shot : Shot) (w w' : World) (photo : Photo) :
  capturePhoto h shot w = (Recorded photo, w') ->
  exists older, photos (app w') = photo :: older.
Proof.
  unfold capturePhoto. destruct (stream (app w)) as [s|]; [|discriminate].
  set (cv := compose shot s (app w)).
  set (w1 := emit Flash (withCanvas cv w)).
  set (p := makePhoto h shot w1 cv).
  pose proof (appendPhoto_frame h p w1) as Hframe.
  destruct (appendPhoto h p w1) as [w2|e w2]; [|discriminate].
  cbn [worldOf] in Hframe. destruct Hframe as (_ & _ & _ & older & Hp).
  intros H. injection H as <- <-. exists older. rewrite <- Hp.
  destruct (addLog_spec h p w2) as (Hp3 & _). rewrite <- Hp3.
  destruct (canVibrate h), (autoSave (settings (app (addLog h p w2))));
    reflexivity.
Qed.

(** X5. Opening the preview by the id of a photo just recorded selects
    that very photo, also when an older photo carries the same id; the
    download button then hands out its image under its id with the suffix
    .jpg, and the collections are not touched. *)
Theorem preview_finds_recorded_photo
    (h : Host) (shot : Shot) (w w' : World) (photo : Photo) :
  capturePhoto h shot w = (Recorded photo, w') ->
  let w1 := Gallery.previewPhoto (photoId photo) w' in
  currentPreview (app w1) = Some photo /\
  photos (app w1) = photos (app w') /\
  logs (app w1) = logs (app w') /\
  effects (Gallery.downloadPhoto w1) =
    effects w' ++ [Download (photoId photo +:+ ".jpg")%string (imageData photo);
                   Toast "Photo downloaded! 📥" "success"].
Proof.
  intros Hc. destruct (capture_head h shot w w' photo Hc) as [older Hp].
  cbv zeta. unfold Gallery.previewPhoto, Gallery.findPhoto. rewrite Hp.
  cbn [find]. rewrite String.eqb_refl.
  unfold Gallery.downloadPhoto. cbn [currentPreview app Gallery.withPreview withApp].
  split; [reflexivity|]. split; [exact Hp|]. split; [reflexivity|].
  unfold Device.downloadPhotoDirect, showToast, emit, Device.jpgName. cbn.
  rewrite <- app_assoc. reflexivity.
Qed.

Lemma findPhoto_first_match (id : string) (ps : list Photo) (p : Photo) :
  In p ps -> photoId p = id ->
  exists q before after,
    Gallery.findPhoto id ps = Some q /\ photoId q = id /\
    ps = before ++ q :: after /\
    forall r, In r before -> photoId r <> id.
Proof.
  unfold Gallery.findPhoto. induction ps as [|x xs IH]; intros Hin Hid; [contradiction|].
  cbn [find]. destruct (String.eqb (photoId x) id) eqn:E.
  - apply String.eqb_eq in E. exists x, [], xs. repeat split; [exact E|].
    intros r [].
  - apply String.eqb_neq in E. destruct Hin as [->|Hin]; [contradiction|].
    destruct (IH Hin Hid) as (q & before & after & Hq & Hqid & Hxs & Hbefore).
    exists q, (x :: before), after. repeat split; try assumption.
    + rewrite Hxs. reflexivity.
    + intros r [<-|Hr]; [exact E | exact (Hbefore r Hr)].
Qed.

(** X6. [previewPhoto] with an id that no photo of the collection carries
    changes nothing.  With an id that occurs, it selects the newest photo
    carrying it: a photo of the collection with that id, before which no
    photo has that id.  In both cases the collections stay as they are,
    and after [closePreview] the download button does nothing. *)
Theorem previewPhoto_selects_newest_match (id : string) (w : World) :
  let w1 := Gallery.previewPhoto id w in
  photos (app w1) = photos (app w) /\
  logs (app w1) = logs (app w) /\
  ((forall p, In p (photos (app w)) -> photoId p <> id) -> w1 = w) /\
  (forall p, In p (photos (app w)) -> photoId p = id ->
     exists q before after,
       currentPreview (app w1) = Some q /\ photoId q = id /\
       photos (app w) = before ++ q :: after /\
       forall r, In r before -> photoId r <> id) /\
  Gallery.downloadPhoto (Gallery.closePreview w1) = Gallery.closePreview w1.
Proof.
  cbv zeta. unfold Gallery.previewPhoto.
  split; [|split; [|split; [|split]]].
  - destruct (Gallery.findPhoto _ _); reflexivity.
  - destruct (Gallery.findPhoto _ _); reflexivity.
  - intros Hnone. destruct (Gallery.findPhoto _ _) as [q|] eqn:E; [|reflexivity].
    apply find_some in E as [Hin Heq]. apply String.eqb_eq in Heq.
    exfalso. exact (Hnone q Hin Heq).
  - intros p Hin Hid.
    destruct (findPhoto_first_match id _ p Hin Hid)
      as (q & before & after & Hq & Hqid & Hps & Hbefore).
    rewrite Hq. exists q, before, after. repeat split; assumption.
  - reflexivity.
Qed.

(** ** Clearing the logs *)

(** X7. A confirmed [clearLogs] empties the log collection and leaves the
    photos in place, so photos remain without log; an export that follows
    is refused with No logs to export and downloads nothing.  A declined
    [clearLogs] changes nothing. *)
Theorem clearLogs_then_export_is_refused (h : Host) (today : string) (w : World) :
  let w1 := Gallery.clearLogs true h w in
  logs (app w1) = [] /\
  photos (app w1) = photos (app w) /\
  effects (exportLogs h today w1) = effects w1 ++ [Toast "No logs to export" "error"] /\
  Gallery.clearLogs false h w = w.
Proof.
  cbv zeta. unfold Gallery.clearLogs.
  set (w0 := withApp (withLogs [] (app w)) w).
  destruct (saveLogs_spec h w0) as (Ha & _).
  assert (Hl : logs (app (showToast "Logs cleared" "success" (saveLogs h w0))) = []).
  { change (logs (app (saveLogs h w0)) = []). rewrite Ha. reflexivity. }
  split; [exact Hl|]. split.
  - change (photos (app (saveLogs h w0)) = photos (app w)). rewrite Ha. reflexivity.
  - split; [|reflexivity]. unfold exportLogs. rewrite Hl. reflexivity.
Qed.

(** X8. What a reload shows after [clearLogs] depends on the store.  When
    it accepts the write, the stored logs are the empty collection and
    [loadLogs] yields no logs.  When it rejects the write, the error is
    swallowed: memory is empty but the store keeps what it held, and
    [loadLogs] brings the logs it held back. *)
Theorem clearLogs_survives_reload_only_if_stored (h : Host) (w : World) :
  let w1 := Gallery.clearLogs true h w in
  match quotaPolicy h (localStorage w) LOGS_KEY (StoredLogs []) with
  | None =>
      localStorage w1 !! LOGS_KEY = Some (StoredLogs []) /\
      logs (app (loadLogs w1)) = []
  | Some _ =>
      localStorage w1 = localStorage w /\
      logs (app w1) = [] /\
      forall stored,
        localStorage w !! LOGS_KEY = Some (StoredLogs stored) ->
        logs (app (loadLogs w1)) = stored
  end.
Proof.
  cbv zeta. unfold Gallery.clearLogs, saveLogs, setItem.
  cbn [localStorage app withApp withLogs logs].
  destruct (quotaPolicy h (localStorage w) LOGS_KEY (StoredLogs [])) as [e|].
  - split; [reflexivity|]. split; [reflexivity|]. intros stored Hs.
    unfold loadLogs. cbn [localStorage showToast emit withStorage].
    rewrite Hs. reflexivity.
  - assert (Hs : localStorage
                   (showToast "Logs cleared" "success"
                      (withStorage (<[LOGS_KEY := StoredLogs []]> (localStorage w))
                         (MkAttempt LOGS_KEY (StoredLogs []) None)
                         (withApp (withLogs [] (app w)) w))) !! LOGS_KEY
                 = Some (StoredLogs [])) by apply lookup_insert_eq.
    split; [exact Hs|]. unfold loadLogs. rewrite Hs. reflexivity.
Qed.

(** ** Settings *)

Section SettingsProperties.

Variable trim : string -> string.

(** X9. Settings come back as they were saved.  When the store accepts
    the write of [saveSettings], the settings in memory are the ones read
    off the form (names trimmed, a missing checkbox counted as ticked), the
    toast Settings saved is shown, and a later [loadSettings] on that
    store, from whatever settings, restores exactly these settings and
    shows them in the form. *)
Theorem settings_round_trip
    (f page : Prefs.Form) (h : Host) (w w1 later : World) :
  Prefs.saveSettings trim f h w = Normal w1 ->
  localStorage later = localStorage w1 ->
  settings (app w1) = Prefs.readForm trim f /\
  effects w1 = effects w ++ [Toast "Settings saved" "success"] /\
  settings (app (fst (Prefs.loadSettings page later))) = Prefs.readForm trim f /\
  photos (app (fst (Prefs.loadSettings page later))) = photos (app later) /\
  snd (Prefs.loadSettings page later) = Prefs.showForm (Prefs.readForm trim f) page.
Proof.
  unfold Prefs.saveSettings, setItem.
  cbn [localStorage app withApp Prefs.withSettings settings].
  destruct (quotaPolicy h (localStorage w) SETTINGS_KEY _) as [e|]; [discriminate|].
  intros H Hl. injection H as <-.
  assert (Hs : localStorage later !! SETTINGS_KEY
               = Some (StoredSettings (Prefs.readForm trim f))).
  { rewrite Hl. apply lookup_insert_eq. }
  unfold Prefs.loadSettings. rewrite Hs. repeat split.
Qed.

(** X10. The write of [saveSettings] is not guarded.  When the store
    rejects it, the function ends with that error: the settings in memory
    have already been replaced by the form, no toast is shown, and the
    store still holds what it held, so a reload brings the previous
    stored settings back. *)
Theorem saveSettings_rejected_keeps_memory_change
    (f page : Prefs.Form) (h : Host) (w : World) (e : string) :
  quotaPolicy h (localStorage w) SETTINGS_KEY (StoredSettings (Prefs.readForm trim f))
    = Some e ->
  exists w1,
    Prefs.saveSettings trim f h w = Thrown e w1 /\
    settings (app w1) = Prefs.readForm trim f /\
    effects w1 = effects w /\
    localStorage w1 = localStorage w /\
    forall old,
      localStorage w !! SETTINGS_KEY = Some (StoredSettings old) ->
      settings (app (fst (Prefs.loadSettings page w1))) = old.
Proof.
  intros Hq. unfold Prefs.saveSettings, setItem.
  cbn [localStorage app withApp Prefs.withSettings settings]. rewrite Hq.
  eexists. split; [reflexivity|]. repeat split.
  intros old Hold. unfold Prefs.loadSettings.
  cbn [localStorage withStorage]. rewrite Hold. reflexivity.
Qed.

End SettingsProperties.

(** ** The camera *)

(** X11. A refused camera request leaves [state.stream] as it was.  On
    the first start there is no stream and a capture is refused; but when
    a stream was held, as on a failed switch, its tracks have been stopped
    and it is still held, so the guard of [capturePhoto] lets the capture
    through.  The status reads Camera unavailable, the fallback panel is
    shown, and the toast names the cause: permission denied, no camera
    found, or the message of the error. *)
Theorem refused_camera_keeps_old_stream
    (name message : string) (pg : Camera.Page) (h : Host) (shot : Shot) :
  let pg1 := Camera.initCamera (Camera.Refused name message) pg in
  stream (app (Camera.world pg1)) = stream (app (Camera.world pg)) /\
  Camera.statusText pg1 = "Camera unavailable" /\
  Camera.dotClass (Camera.statusType pg1) = "bg-red-500" /\
  Camera.fallbackHidden pg1 = false /\
  (exists text,
     effects (Camera.world pg1) =
       effects (Camera.world pg) ++ [ConsoleError "Camera error:"; Toast text "error"] /\
     (name = "NotAllowedError" -> text = "Camera permission denied") /\
     (name = "NotFoundError" -> text = "No camera found") /\
     (name <> "NotAllowedError" -> name <> "NotFoundError" ->
      text = ("Camera error: " +:+ message)%string)) /\
  (stream (app (Camera.world pg)) = None ->
   fst (capturePhoto h shot (Camera.world pg1)) = NotReady) /\
  (forall s,
     stream (app (Camera.world pg)) = Some s ->
     In s (Camera.stopped pg1) /\
     fst (capturePhoto h shot (Camera.world pg1)) <> NotReady).
Proof.
  cbv zeta. unfold Camera.initCamera.
  set (pg0 := Camera.stopTracks (Camera.updateStatus "Starting camera..." "loading" pg)).
  assert (Hw : Camera.world pg0 = Camera.world pg).
  { subst pg0. unfold Camera.stopTracks, Camera.updateStatus. cbn [Camera.world].
    destruct (stream (app (Camera.world pg))); reflexivity. }
  cbn [Camera.world Camera.withWorld Camera.showFallback Camera.updateStatus
       Camera.statusText Camera.statusType Camera.fallbackHidden Camera.stopped].
  rewrite Hw. split; [reflexivity|]. split; [reflexivity|]. split; [reflexivity|].
  split; [reflexivity|]. split; [|split].
  - eexists. split.
    + unfold showToast, emit. cbn [effects]. rewrite <- app_assoc. reflexivity.
    + split; [intros ->; reflexivity|]. split.
      * intros ->. reflexivity.
      * intros H1 H2. apply String.eqb_neq in H1, H2. rewrite H1, H2. reflexivity.
  - intros Hs. unfold capturePhoto.
    cbn [app showToast emit stream]. rewrite Hs. reflexivity.
  - intros s Hs. split.
    + subst pg0. unfold Camera.stopTracks, Camera.updateStatus.
      cbn [Camera.world]. rewrite Hs. cbn [Camera.stopped].
      apply in_or_app. right. left. reflexivity.
    + unfold capturePhoto. cbn [app showToast emit stream]. rewrite Hs.
      destruct (appendPhoto _ _ _); cbn [fst]; discriminate.
Qed.

(** What [initCamera] changes. *)
Lemma initCamera_frame (r : Camera.MediaResult) (pg : Camera.Page) :
  let pg1 := Camera.initCamera r pg in
  facingMode (app (Camera.world pg1)) = facingMode (app (Camera.world pg)) /\
  match r with
  | Camera.Granted s =>
      effects (Camera.world pg1) = effects (Camera.world pg) /\
      stream (app (Camera.world pg1)) = Some s
  | Camera.Refused _ _ =>
      (exists text,
         effects (Camera.world pg1) =
           effects (Camera.world pg) ++ [ConsoleError "Camera error:"; Toast text "error"]) /\
      stream (app (Camera.world pg1)) = stream (app (Camera.world pg))
  end.
Proof.
  cbv zeta. unfold Camera.initCamera.
  set (pg0 := Camera.stopTracks (Camera.updateStatus "Starting camera..." "loading" pg)).
  assert (Hw : Camera.world pg0 = Camera.world pg).
  { subst pg0. unfold Camera.stopTracks, Camera.updateStatus. cbn [Camera.world].
    destruct (stream (app (Camera.world pg))); reflexivity. }
  destruct r as [s|name message];
    cbn [Camera.world Camera.withWorld Camera.showFallback Camera.updateStatus];
    rewrite Hw.
  - repeat split.
  - split; [reflexivity|]. split; [|reflexivity].
    eexists. unfold showToast, emit. cbn [effects]. rewrite <- app_assoc. reflexivity.
Qed.

(** X12. [switchCamera] flips the facing mode between the two cameras
    before it asks for the stream, and reports the switch afterwards
    whether or not the request was granted: after a refused request the
    mode names a camera that is not the one of the stream still held, and
    the toast still says Switched.  Two switches restore the mode. *)
Theorem switchCamera_flips_and_reports (r r' : Camera.MediaResult) (pg : Camera.Page) :
  let before := facingMode (app (Camera.world pg)) in
  let pg1 := Camera.switchCamera r pg in
  let after := facingMode (app (Camera.world pg1)) in
  (after = "user" \/ after = "environment") /\
  after <> before /\
  (before = "environment" \/ before = "user" ->
   facingMode (app (Camera.world (Camera.switchCamera r' pg1))) = before) /\
  exists front,
    effects (Camera.world pg1) =
      effects (Camera.world pg) ++ front
        ++ [Toast (if String.eqb before "environment"
                   then "Switched to front camera"
                   else "Switched to back camera") "info"] /\
    match r with
    | Camera.Granted s =>
        front = [] /\ stream (app (Camera.world pg1)) = Some s
    | Camera.Refused _ _ =>
        stream (app (Camera.world pg1)) = stream (app (Camera.world pg))
    end.
Proof.
  cbv zeta.
  assert (Hsw : forall r0 pg0,
             let pgf := Camera.withWorld
                          (withApp (Camera.withFacing
                                      (Camera.toggled (facingMode (app (Camera.world pg0))))
                                      (app (Camera.world pg0))) (Camera.world pg0)) pg0 in
             facingMode (app (Camera.world (Camera.switchCamera r0 pg0)))
               = Camera.toggled (facingMode (app (Camera.world pg0))) /\
             stream (app (Camera.world (Camera.switchCamera r0 pg0)))
               = stream (app (Camera.world (Camera.initCamera r0 pgf))) /\
             effects (Camera.world (Camera.switchCamera r0 pg0))
               = effects (Camera.world (Camera.initCamera r0 pgf))
                   ++ [Toast ("Switched to " +:+
                              (if String.eqb (Camera.toggled (facingMode (app (Camera.world pg0))))
                                   "environment" then "back" else "front")
                              +:+ " camera")%string "info"]).
  { intros r0 pg0 pgf. unfold Camera.switchCamera. fold pgf.
    destruct (initCamera_frame r0 pgf) as [Hfm _]. cbv zeta in Hfm.
    cbn [Camera.world Camera.withWorld]. unfold showToast, emit.
    cbn [app effects]. rewrite Hfm. repeat split. }
  destruct (Hsw r pg) as (Hf & Hs & He). cbv zeta in Hs, He.
  destruct (Hsw r' (Camera.switchCamera r pg)) as (Hf' & _ & _).
  rewrite Hf', Hf, Hs, He. clear Hsw Hf Hf' Hs He.
  set (mode := facingMode (app (Camera.world pg))).
  set (pgf := Camera.withWorld _ pg).
  pose proof (initCamera_frame r pgf) as [_ Hr]. cbv zeta in Hr.
  unfold Camera.toggled.
  split; [destruct (String.eqb mode "environment"); [left | right]; reflexivity|].
  split.
  { destruct (String.eqb mode "environment") eqn:E.
    - apply String.eqb_eq in E. rewrite E. discriminate.
    - apply String.eqb_neq in E. intros H. apply E. symmetry. exact H. }
  split.
  { intros [-> | ->]; reflexivity. }
  assert (Htoast : ("Switched to " +:+
                    (if String.eqb (if String.eqb mode "environment"
                                    then "user" else "environment") "environment"
                     then "back" else "front") +:+ " camera")%string
                   = if String.eqb mode "environment"
                     then "Switched to front camera" else "Switched to back camera").
  { destruct (String.eqb mode "environment"); reflexivity. }
  rewrite Htoast.
  destruct r as [s|name message].
  - destruct Hr as [He Hs]. exists []. rewrite He. split; [reflexivity|].
    split; [reflexivity | exact Hs].
  - destruct Hr as [[text He] Hs]. eexists. rewrite He, <- app_assoc.
    split; [reflexivity | exact Hs].
Qed.

(** ** Sample runs of the properties above *)

(** A second capture after the first sample capture: the photo that was at
    index 0 is at index 1, where a running save-all looks next. *)
Lemma saveAllPhotos_repeats_after_capture_witness :
  photos (app Cases.afterFirst) !! 0%nat = Some Sample.firstPhoto /\
  Device.saveAllTurn (Sample.host Sample.roomy) 1 (snd Cases.secondCapture) =
    (Device.Running 2,
     Device.downloadPhotoDirect Sample.firstPhoto (snd Cases.secondCapture)).
Proof.
  assert (H0 : photos (app Cases.afterFirst) !! 0%nat = Some Sample.firstPhoto)
    by (vm_compute; reflexivity).
  assert (H1 : capturePhoto (Sample.host Sample.roomy) (Sample.shot 2) Cases.afterFirst =
               (Recorded Cases.secondPhoto, snd Cases.secondCapture))
    by (vm_compute; reflexivity).
  assert (H2 : (length (photos (app Cases.afterFirst)) < 20)%nat)
    by (vm_compute; lia).
  split; [exact H0|].
  exact (proj1 (proj2 (saveAllPhotos_repeats_after_capture
                         (Sample.host Sample.roomy) (Sample.shot 2) 0
                         Cases.afterFirst (snd Cases.secondCapture)
                         Sample.firstPhoto Cases.secondPhoto H0 H1 H2))).
Defined.

(** The first sample capture, opened in the preview by its id. *)
Lemma preview_finds_recorded_photo_witness :
  Sample.firstCapture = (Recorded Sample.firstPhoto, snd Sample.firstCapture) /\
  currentPreview
    (app (Gallery.previewPhoto (photoId Sample.firstPhoto) (snd Sample.firstCapture)))
    = Some Sample.firstPhoto.
Proof.
  assert (H1 : Sample.firstCapture = (Recorded Sample.firstPhoto, snd Sample.firstCapture))
    by (vm_compute; reflexivity).
  split; [exact H1|].
  exact (proj1 (preview_finds_recorded_photo
                  (Sample.host Sample.roomy) (Sample.shot 1) Sample.ready
                  (snd Sample.firstCapture) Sample.firstPhoto H1)).
Defined.

(** The sample form, saved into an accepting store and loaded again. *)
Lemma settings_round_trip_witness :
  Prefs.saveSettings (fun s => s) Cases.sampleForm (Sample.host Sample.roomy) Sample.ready =
    Normal (worldOf (Prefs.saveSettings (fun s => s) Cases.sampleForm
                       (Sample.host Sample.roomy) Sample.ready)) /\
  projectName
    (settings
       (app (fst (Prefs.loadSettings Cases.sampleForm
                    (worldOf (Prefs.saveSettings (fun s => s) Cases.sampleForm
                                (Sample.host Sample.roomy) Sample.ready))))))
    = " Bridge 12 ".
Proof.
  assert (H1 : Prefs.saveSettings (fun s => s) Cases.sampleForm
                 (Sample.host Sample.roomy) Sample.ready =
               Normal (worldOf (Prefs.saveSettings (fun s => s) Cases.sampleForm
                                  (Sample.host Sample.roomy) Sample.ready)))
    by reflexivity.
  split; [exact H1|].
  destruct (settings_round_trip (fun s => s) Cases.sampleForm Cases.sampleForm
              (Sample.host Sample.roomy) Sample.ready _ _ H1 eq_refl)
    as (_ & _ & H & _).
  rewrite H. reflexivity.
Defined.

(** The sample form, saved into a store that is full. *)
Lemma saveSettings_rejected_keeps_memory_change_witness :
  quotaPolicy (Sample.host Cases.full) (localStorage Sample.ready) SETTINGS_KEY
    (StoredSettings (Prefs.readForm (fun s => s) Cases.sampleForm))
    = Some "QuotaExceededError" /\
  exists w1,
    Prefs.saveSettings (fun s => s) Cases.sampleForm (Sample.host Cases.full) Sample.ready
      = Thrown "QuotaExceededError" w1 /\
    effects w1 = effects Sample.ready.
Proof.
  assert (H1 : quotaPolicy (Sample.host Cases.full) (localStorage Sample.ready) SETTINGS_KEY
                 (StoredSettings (Prefs.readForm (fun s => s) Cases.sampleForm))
               = Some "QuotaExceededError") by reflexivity.
  split; [exact H1|].
  destruct (saveSettings_rejected_keeps_memory_change (fun s => s) Cases.sampleForm
              Cases.sampleForm (Sample.host Cases.full) Sample.ready _ H1)
    as (w1 & Hs & _ & He & _).
  exists w1. split; [exact Hs | exact He].
Defined.

(** ** A capture between a fix and its address *)

(** What the store's writes leave alone, and the only trace they can
    add. *)
Lemma setItem_frame (h : Host) (k : string) (v : Stored) (w : World) :
  let w' := worldOf (setItem h k v w) in
  app w' = app w /\ effects w' = effects w /\ timers w' = timers w /\
  addressText w' = addressText w /\ canvas w' = canvas w.
Proof.
  unfold setItem. destruct (quotaPolicy h (localStorage w) k v);
    cbn; repeat split; reflexivity.
Qed.

Lemma savePhotos_trace (h : Host) (w : World) :
  let w' := worldOf (savePhotos h w) in
  (effects w' = effects w \/
   effects w' = effects w ++ [ConsoleError "Failed to save photos:"]) /\
  timers w' = timers w /\ addressText w' = addressText w /\ canvas w' = canvas w.
Proof.
  unfold savePhotos, setItem.
  destruct (quotaPolicy h (localStorage w) PHOTOS_KEY _) as [e|].
  - destruct (String.eqb e "QuotaExceededError").
    + match goal with
      | |- context [quotaPolicy h ?m ?k ?v] => destruct (quotaPolicy h m k v)
      end; cbn; (split; [right; reflexivity|]); repeat split; reflexivity.
    + cbn. (split; [right; reflexivity|]); repeat split; reflexivity.
  - cbn. (split; [left; reflexivity|]); repeat split; reflexivity.
Qed.

Lemma saveLogs_trace (h : Host) (w : World) :
  (effects (saveLogs h w) = effects w \/
   effects (saveLogs h w) = effects w ++ [ConsoleError "Failed to save logs:"]) /\
  timers (saveLogs h w) = timers w /\ addressText (saveLogs h w) = addressText w /\
  canvas (saveLogs h w) = canvas w.
Proof.
  unfold saveLogs, setItem.
  destruct (quotaPolicy h (localStorage w) LOGS_KEY _) as [e|]; cbn.
  - (split; [right; reflexivity|]); repeat split; reflexivity.
  - (split; [left; reflexivity|]); repeat split; reflexivity.
Qed.

(** A recorded capture, step by step. *)
Lemma capture_recorded_inv (h : Host) (shot : Shot) (w w' : World) (photo : Photo) :
  capturePhoto h shot w = (Recorded photo, w') ->
  exists s w2,
    stream (app w) = Some s /\
    photo = Trace.photoOf h shot s w /\
    appendPhoto h photo (Trace.composed shot s w) = Normal w2 /\
    let w3 := addLog h photo w2 in
    let w4 :=
      if autoSave (settings (app w3))
      then emit (SaveToDevice photo) w3
      else showToast ("Photo captured! 📸 ("
                        +:+ (numberToString h (imageWidth photo) +:+ "×"
                               +:+ numberToString h (imageHeight photo))
                        +:+ ")")%string "success" w3 in
    w' = (if canVibrate h then emit Vibrate w4 else w4).
Proof.
  unfold capturePhoto. destruct (stream (app w)) as [s|]; [|discriminate].
  fold (Trace.composed shot s w). fold (Trace.photoOf h shot s w).
  destruct (appendPhoto h (Trace.photoOf h shot s w) (Trace.composed shot s w))
    as [w2|e w2] eqn:Ha; [|discriminate].
  intros H. injection H as <- <-.
  exists s, w2. split; [reflexivity|]. split; [reflexivity|].
  split; [exact Ha|]. reflexivity.
Qed.

Lemma capture_logs (h : Host) (shot : Shot) (w w' : World) (photo : Photo) :
  capturePhoto h shot w = (Recorded photo, w') ->
  logs (app w') = logOf photo :: logs (app w) /\
  timers w' = timers w /\
  addressText w' = addressText w.
Proof.
  intros H. destruct (capture_recorded_inv h shot w w' photo H)
    as (s & w2 & Hs & Hp & Ha & Hw).
  cbv zeta in Hw.
  pose proof (appendPhoto_frame h photo (Trace.composed shot s w)) as Hf.
  unfold appendPhoto in Ha, Hf.
  pose proof (savePhotos_trace h
                (withApp (withPhotos (photo :: photos (app (Trace.composed shot s w)))
                            (app (Trace.composed shot s w))) (Trace.composed shot s w)))
    as Ht.
  rewrite Ha in Hf, Ht. cbn [worldOf] in Hf, Ht.
  destruct Hf as (Hl & _). destruct Ht as (_ & Htm & Had & _).
  destruct (addLog_spec h photo w2) as (_ & Hl3 & _).
  pose proof (saveLogs_trace h
                (withApp (withLogs (logOf photo :: logs (app w2)) (app w2)) w2))
    as (_ & Htm3 & Had3 & _).
  fold (addLog h photo w2) in Htm3, Had3.
  assert (E : logs (app w') = logs (app (addLog h photo w2)) /\
              timers w' = timers (addLog h photo w2) /\
              addressText w' = addressText (addLog h photo w2)).
  { rewrite Hw.
    destruct (canVibrate h), (autoSave (settings (app (addLog h photo w2))));
      repeat split; reflexivity. }
  destruct E as (E1 & E2 & E3).
  split; [rewrite E1, Hl3, Hl; reflexivity|].
  split; [rewrite E2, Htm3; exact Htm | rewrite E3, Had3; exact Had].
Qed.

(** X13. A capture made after a fix arrives and before the lookup it
    started has answered records the coordinates of the new fix together
    with the address text that was on the page before that fix: the
    photo and its log can pair a position with the address of an earlier
    one.  The lookup stays pending through the capture. *)
Theorem capture_between_fix_and_reply_keeps_old_address
    (h : Host) (shot : Shot) (c : Coords) (w w' : World) (photo : Photo) :
  capturePhoto h shot (updatePosition h c w) = (Recorded photo, w') ->
  photoAddress photo = addressText w /\
  location photo =
    Some (MkPhotoLocation (latitude c) (longitude c) (accuracy c) (altitude c)
            (heading c) (speed c)
            (Some (Geo.decimalToDMS (fl h) (latitude c) (longitude c)))) /\
  (exists log,
     logs (app w') = log :: logs (app w) /\
     logLatitude log = Num (latitude c) /\
     logLongitude log = Num (longitude c) /\
     logAddress log = addressText w) /\
  timers w' = Timers.reverseGeocode (latitude c) (longitude c) (timers w).
Proof.
  intros H.
  destruct (capture_recorded_inv _ _ _ _ _ H) as (s & w2 & Hs & Hp & _).
  destruct (capture_logs _ _ _ _ _ H) as (Hl & Ht & _).
  assert (Ha : photoAddress photo = addressText w) by (rewrite Hp; reflexivity).
  assert (Hloc : location photo =
            Some (MkPhotoLocation (latitude c) (longitude c) (accuracy c) (altitude c)
                    (heading c) (speed c)
                    (Some (Geo.decimalToDMS (fl h) (latitude c) (longitude c)))))
    by (rewrite Hp; reflexivity).
  split; [exact Ha|]. split; [exact Hloc|]. split.
  - exists (logOf photo). split; [exact Hl|].
    unfold logOf, locationField. rewrite Hloc. cbn.
    split; [reflexivity|]. split; [reflexivity|]. exact Ha.
  - rewrite Ht. reflexivity.
Qed.

(** X14. What a capture records as the address follows the last outcome
    of a lookup: after a failed request it is the text
    [Address unavailable], in the photo, in its log and, quoted, in the
    exported row, whatever address was shown before; a reply that carries
    no display name leaves the text that was there. *)
Theorem capture_records_last_lookup_outcome
    (h : Host) (shot : Shot) (r : GeocodeReply) (w w' : World) (photo : Photo) :
  capturePhoto h shot (onGeocodeReply r w) = (Recorded photo, w') ->
  logs (app w') = logOf photo :: logs (app w) /\
  logAddress (logOf photo) = photoAddress photo /\
  (r = Failed ->
   photoAddress photo = "Address unavailable" /\
   row (logOf photo) !! 8%nat = Some (CStr (quoted "Address unavailable"))) /\
  (r = Reply None \/ r = Reply (Some EmptyString) ->
   photoAddress photo = addressText w) /\
  (forall name, name <> EmptyString -> r = Reply (Some name) ->
   photoAddress photo = name).
Proof.
  intros H.
  destruct (capture_recorded_inv _ _ _ _ _ H) as (s & w2 & Hs & Hp & _).
  destruct (capture_logs _ _ _ _ _ H) as (Hl & _).
  assert (Ha : photoAddress photo = addressText (onGeocodeReply r w))
    by (rewrite Hp; reflexivity).
  split.
  { rewrite Hl. f_equal. destruct r as [[[|]|]|]; reflexivity. }
  split; [reflexivity|]. split; [|split].
  - intros ->. split; [exact Ha|].
    cbn [row lookup list_lookup]. unfold logOf. cbn [logAddress].
    rewrite Ha. reflexivity.
  - intros [-> | ->]; exact Ha.
  - intros name Hn ->. rewrite Ha. destruct name; [congruence | reflexivity].
Qed.

(** The sample camera, a fix in Bangkok, and a capture before any
    reply. *)
Lemma capture_between_fix_and_reply_keeps_old_address_witness :
  exists photo w',
    capturePhoto (Sample.host Sample.roomy) (Sample.shot 1)
      (updatePosition (Sample.host Sample.roomy) Cases.bangkok Sample.ready)
      = (Recorded photo, w') /\
    photoAddress photo = addressText Sample.ready /\
    Timers.pending (timers w') =
      [Timers.MkTimer 1 1000 (latitude Cases.bangkok, longitude Cases.bangkok)].
Proof.
  eexists. eexists.
  assert (H : capturePhoto (Sample.host Sample.roomy) (Sample.shot 1)
                (updatePosition (Sample.host Sample.roomy) Cases.bangkok Sample.ready)
              = (Recorded
                   (Trace.photoOf (Sample.host Sample.roomy) (Sample.shot 1) Sample.camera
                      (updatePosition (Sample.host Sample.roomy) Cases.bangkok Sample.ready)),
                 snd (capturePhoto (Sample.host Sample.roomy) (Sample.shot 1)
                        (updatePosition (Sample.host Sample.roomy) Cases.bangkok
                           Sample.ready))))
    by (vm_compute; reflexivity).
  split; [exact H|].
  destruct (capture_between_fix_and_reply_keeps_old_address _ _ _ _ _ _ H)
    as (Ha & _ & _ & Ht).
  split; [exact Ha|]. rewrite Ht. reflexivity.
Defined.

(** The sample camera after a lookup that failed. *)
Lemma capture_records_last_lookup_outcome_witness :
  exists photo w',
    capturePhoto (Sample.host Sample.roomy) (Sample.shot 1)
      (onGeocodeReply Failed Sample.ready) = (Recorded photo, w') /\
    photoAddress photo = "Address unavailable".
Proof.
  eexists. eexists.
  assert (H : capturePhoto (Sample.host Sample.roomy) (Sample.shot 1)
                (onGeocodeReply Failed Sample.ready)
              = (Recorded
                   (Trace.photoOf (Sample.host Sample.roomy) (Sample.shot 1) Sample.camera
                      (onGeocodeReply Failed Sample.ready)),
                 snd (capturePhoto (Sample.host Sample.roomy) (Sample.shot 1)
                        (onGeocodeReply Failed Sample.ready))))
    by (vm_compute; reflexivity).
  split; [exact H|].
  destruct (capture_records_last_lookup_outcome _ _ _ _ _ _ H) as (_ & _ & Hf & _).
  exact (proj1 (Hf eq_refl)).
Defined.

(** ** The location descriptor *)

(** X15. Every latitude falls in exactly one of the five bands, so the
    closing [Unknown area] branch of the chain is never taken.  The bands
    are: from 66.5 up, Arctic; down from -66.5, Antarctic; from 23.5 up to
    below 66.5, northern temperate; from -23.5 up to below 23.5, tropical;
    strictly between -66.5 and -23.5, southern temperate. *)
Theorem locationType_covers_every_latitude (lat : Q) :
  Geo.locationType lat <> "Unknown area" /\
  Geo.bandOf (Geo.locationType lat) <> None /\
  ((133 # 2 <= lat /\ Geo.locationType lat = "Arctic region") \/
   (lat <= - (133 # 2) /\ Geo.locationType lat = "Antarctic region") \/
   (47 # 2 <= lat /\ lat < 133 # 2 /\
    Geo.locationType lat = "Northern temperate zone") \/
   (- (47 # 2) <= lat /\ lat < 47 # 2 /\ Geo.locationType lat = "Tropical zone") \/
   (- (133 # 2) < lat /\ lat < - (47 # 2) /\
    Geo.locationType lat = "Southern temperate zone")).
Proof.
  assert (H : (133 # 2 <= lat /\ Geo.locationType lat = "Arctic region") \/
   (lat <= - (133 # 2) /\ Geo.locationType lat = "Antarctic region") \/
   (47 # 2 <= lat /\ lat < 133 # 2 /\
    Geo.locationType lat = "Northern temperate zone") \/
   (- (47 # 2) <= lat /\ lat < 47 # 2 /\ Geo.locationType lat = "Tropical zone") \/
   (- (133 # 2) < lat /\ lat < - (47 # 2) /\
    Geo.locationType lat = "Southern temperate zone")).
  { destruct (Qlt_le_dec lat (133 # 2)) as [A|A].
    2:{ left. split; [exact A | apply locationType_arctic; exact A]. }
    destruct (Qlt_le_dec (- (133 # 2)) lat) as [B|B].
    2:{ right; left. split; [exact B | apply locationType_antarctic; exact B]. }
    destruct (Qlt_le_dec lat (47 # 2)) as [C|C].
    2:{ right; right; left. split; [exact C|]. split; [exact A|].
        apply locationType_northern; assumption. }
    destruct (Qlt_le_dec lat (- (47 # 2))) as [D|D].
    - right; right; right; right. split; [exact B|]. split; [exact D|].
      apply locationType_southern; assumption.
    - right; right; right; left. split; [exact D|]. split; [exact C|].
      apply locationType_tropical; assumption. }
  split; [|split; [|exact H]];
    destruct H as [[_ E]|[[_ E]|[(_ & _ & E)|[(_ & _ & E)|(_ & _ & E)]]]];
    rewrite E; discriminate.
Qed.

(** X16. The parts of a location descriptor agree on the side of the
    equator and of the prime meridian: the hemisphere labels, the
    direction letters of the DMS pair and the prefix of the season hint
    all come from the sign of the coordinate, with the equator counted as
    north and the prime meridian as east.  The season is read from the
    month alone, by the index [getMonth] gives it, January being 0: the
    indices 3 to 8, April to September, are summer in the north and
    winter in the south; March, index 2, is still winter in the north and
    September, index 8, still summer. *)
Theorem decipherLocation_sides_agree
    (fl : Q -> Q) (numberToString : Q -> string) (month : nat) (lat lng : Q) :
  let info := Geo.decipherLocation fl numberToString month lat lng in
  (0 <= lat ->
   Geo.hemiLat (Geo.hemisphere info) = "North" /\
   Geo.direction (Geo.latitude (Geo.dms info)) = "N" /\
   Geo.season info =
     (if Trace.summerMonth month then "Northern hemisphere (summer)"
      else "Northern hemisphere (winter)")) /\
  (lat < 0 ->
   Geo.hemiLat (Geo.hemisphere info) = "South" /\
   Geo.direction (Geo.latitude (Geo.dms info)) = "S" /\
   Geo.season info =
     (if Trace.summerMonth month then "Southern hemisphere (winter)"
      else "Southern hemisphere (summer)")) /\
  (0 <= lng ->
   Geo.hemiLng (Geo.hemisphere info) = "East" /\
   Geo.direction (Geo.longitude (Geo.dms info)) = "E") /\
  (lng < 0 ->
   Geo.hemiLng (Geo.hemisphere info) = "West" /\
   Geo.direction (Geo.longitude (Geo.dms info)) = "W") /\
  Geo.locType info = Geo.locationType lat /\
  Geo.decimal info = (lat, lng) /\
  (Trace.summerMonth month = true <-> (3 <= month /\ month <= 8)%nat) /\
  Geo.seasonHint 1 2 = "Northern hemisphere (winter)" /\
  Geo.seasonHint 1 3 = "Northern hemisphere (summer)" /\
  Geo.seasonHint 1 8 = "Northern hemisphere (summer)" /\
  Geo.seasonHint 1 9 = "Northern hemisphere (winter)".
Proof.
  cbv zeta.
  assert (M : Trace.summerMonth month = true <-> (3 <= month /\ month <= 8)%nat).
  { unfold Trace.summerMonth. rewrite andb_true_iff, !Nat.leb_le. reflexivity. }
  unfold Geo.decipherLocation, Geo.decimalToDMS, Geo.toDMS, Geo.seasonHint, geb.
  fold (Trace.summerMonth month).
  cbn [Geo.hemisphere Geo.hemiLat Geo.hemiLng Geo.dms Geo.latitude Geo.longitude
       Geo.direction Geo.season Geo.locType Geo.decimal].
  split; [|split; [|split; [|split;
    [|split; [reflexivity|split; [reflexivity|split; [exact M|repeat split]]]]]]];
    intros H.
  - assert (E : Qle_bool 0 lat = true) by (apply Qle_bool_iff; exact H).
    rewrite E. repeat split; reflexivity.
  - assert (E : Qle_bool 0 lat = false).
    { apply not_true_iff_false. rewrite Qle_bool_iff. lra. }
    rewrite E. repeat split; reflexivity.
  - assert (E : Qle_bool 0 lng = true) by (apply Qle_bool_iff; exact H).
    rewrite E. split; reflexivity.
  - assert (E : Qle_bool 0 lng = false).
    { apply not_true_iff_false. rewrite Qle_bool_iff. lra. }
    rewrite E. split; reflexivity.
Qed.

(** ** The debounced lookup over whole runs of fixes *)

Local Open Scope Z_scope.

(** A fix that arrives after the pending delay has run out: the pending
    lookup is sent first, then the new one is scheduled. *)
Lemma fixAt_after (t : Z) (lat lng : Q) (l : Timers.Loop) (id : nat) (tgt : Q * Q) :
  Timers.pending l = [Timers.MkTimer id (Timers.clock l + Timers.geocodeDelay) tgt] ->
  Timers.clock l + Timers.geocodeDelay < t ->
  Timers.fixAt t lat lng l =
    Timers.MkLoop t (S (Timers.nextId l))
      [Timers.MkTimer (Timers.nextId l) (t + Timers.geocodeDelay) (lat, lng)]
      (Some (Timers.nextId l)) (Timers.requests l ++ [tgt]).
Proof.
  intros Hp Ht.
  unfold Timers.fixAt, Timers.reverseGeocode, Timers.advanceTo, Timers.setTimeout,
    Timers.clearTimeout.
  rewrite Hp. cbn -[Z.leb Z.ltb Z.max Z.add].
  unfold Timers.geocodeDelay in *.
  destruct (Z.leb_spec (Timers.clock l + 1000) t); [|lia].
  destruct (Z.ltb_spec t (Timers.clock l + 1000)); [lia|].
  cbn -[Z.max Z.add].
  destruct (Timers.geocodeTimeout l); cbn -[Z.max Z.add];
    rewrite Z.max_r by lia; reflexivity.
Qed.

Lemma last_cons {A : Type} (x : A) (xs : list A) (d : A) :
  List.last (x :: xs) d = List.last xs x.
Proof.
  revert x d. induction xs as [|y ys IH]; intros x d; [reflexivity|].
  change (List.last (x :: y :: ys) d) with (List.last (y :: ys) d).
  rewrite (IH y d), (IH y x). reflexivity.
Qed.

Lemma fixesAt_spaced (fs : list (Z * (Q * Q))) :
  forall (l : Timers.Loop) (id : nat) (tgt : Q * Q),
    Timers.pending l = [Timers.MkTimer id (Timers.clock l + Timers.geocodeDelay) tgt] ->
    Trace.spaced (Timers.clock l) fs ->
    let l' := Timers.fixesAt fs l in
    exists id',
      Timers.clock l' = List.last (map fst fs) (Timers.clock l) /\
      Timers.pending l' =
        [Timers.MkTimer id' (Timers.clock l' + Timers.geocodeDelay)
           (List.last (map snd fs) tgt)] /\
      Timers.requests l' ++ [List.last (map snd fs) tgt] =
        Timers.requests l ++ tgt :: map snd fs.
Proof.
  induction fs as [|[t [lat lng]] rest IH]; intros l id tgt Hp Hs.
  - exists id. cbn. split; [reflexivity|]. split; [exact Hp | reflexivity].
  - cbn [Trace.spaced fst] in Hs. destruct Hs as [Ht Hrest].
    cbv zeta. unfold Timers.fixesAt. cbn [fold_left fst snd].
    fold (Timers.fixesAt rest (Timers.fixAt t lat lng l)).
    rewrite (fixAt_after t lat lng l id tgt Hp Ht).
    set (l1 := Timers.MkLoop _ _ _ _ _).
    destruct (IH l1 (Timers.nextId l) (lat, lng) eq_refl Hrest)
      as (id' & Hc & Hp' & Hr).
    exists id'. cbn [map fst snd].
    rewrite (last_cons t (map fst rest) (Timers.clock l)).
    rewrite (last_cons (lat, lng) (map snd rest) tgt).
    split; [exact Hc|]. split; [exact Hp'|].
    rewrite Hr. cbn [Timers.requests l1]. subst l1. cbn [Timers.requests].
    rewrite <- app_assoc. reflexivity.
Qed.

(** X17. Debouncing over a burst of any length: when every fix of a run
    arrives less than the delay after the one before it, no lookup is sent
    during the run, none until the delay after the last fix has run out,
    and then exactly one, for the coordinates of the last fix. *)
Theorem geocode_burst_looks_up_only_the_last_fix
    (t0 T : Z) (lat0 lng0 : Q) (fs : list (Z * (Q * Q))) :
  0 <= t0 ->
  Timers.burst t0 fs ->
  let l := Timers.fixesAt fs (Timers.fixAt t0 lat0 lng0 Timers.idle) in
  let tl := List.last (map fst fs) t0 in
  Timers.requests l = [] /\
  (T < tl + Timers.geocodeDelay -> Timers.requests (Timers.advanceTo T l) = []) /\
  (tl + Timers.geocodeDelay <= T ->
   Timers.requests (Timers.advanceTo T l) = [List.last (map snd fs) (lat0, lng0)] /\
   Timers.pending (Timers.advanceTo T l) = []).
Proof.
  intros H0 Hb. cbv zeta.
  rewrite (fixAt_idle t0 lat0 lng0 H0).
  set (l0 := Timers.MkLoop _ _ _ _ _).
  destruct (fixesAt_burst fs l0 1%nat (lat0, lng0) eq_refl eq_refl Hb)
    as (Hr & id' & _ & Hc & Hp).
  cbn [Timers.clock Timers.requests l0] in Hr, Hc. subst l0.
  cbn [Timers.clock Timers.requests] in Hr, Hc.
  rewrite Hc in Hp.
  destruct (advanceTo_single T _ _ _ _ Hp) as [Hdue Hnot].
  rewrite Hr in Hdue, Hnot.
  split; [exact Hr|]. split.
  - intros H. exact (proj1 (Hnot H)).
  - intros H. exact (Hdue H).
Qed.

(** X18. Fixes that arrive more than the delay apart are each looked up,
    in the order they arrived: once the delay after the last one has run
    out, the lookups sent are those of the first fix and of every fix of
    the run, and nothing is pending. *)
Theorem geocode_spaced_fixes_are_each_looked_up
    (t0 T : Z) (lat0 lng0 : Q) (fs : list (Z * (Q * Q))) :
  0 <= t0 ->
  Trace.spaced t0 fs ->
  List.last (map fst fs) t0 + Timers.geocodeDelay <= T ->
  let l := Timers.fixesAt fs (Timers.fixAt t0 lat0 lng0 Timers.idle) in
  Timers.requests (Timers.advanceTo T l) = (lat0, lng0) :: map snd fs /\
  Timers.pending (Timers.advanceTo T l) = [] /\
  length (Timers.requests (Timers.advanceTo T l)) = S (length fs).
Proof.
  intros H0 Hs HT. cbv zeta.
  rewrite (fixAt_idle t0 lat0 lng0 H0).
  set (l0 := Timers.MkLoop _ _ _ _ _).
  destruct (fixesAt_spaced fs l0 1%nat (lat0, lng0) eq_refl Hs)
    as (id' & Hc & Hp & Hr).
  subst l0. cbn [Timers.clock Timers.requests] in Hc, Hr.
  rewrite Hc in Hp.
  destruct (advanceTo_single T _ _ _ _ Hp) as [Hdue _].
  destruct (Hdue HT) as [Hq Hpend].
  rewrite Hq, Hr. cbn [app].
  split; [reflexivity|]. split; [exact Hpend|].
  change (S (length (map snd fs)) = S (length fs)). rewrite length_map. reflexivity.
Qed.

(** Three fixes 200 ms apart, then silence. *)
Lemma geocode_burst_looks_up_only_the_last_fix_witness :
  Timers.burst 0 [(200, (1 # 1, 2 # 1)%Q); (400, (3 # 1, 4 # 1)%Q)] /\
  Timers.requests
    (Timers.advanceTo 1400
       (Timers.fixesAt [(200, (1 # 1, 2 # 1)%Q); (400, (3 # 1, 4 # 1)%Q)]
          (Timers.fixAt 0 (5 # 1) (6 # 1) Timers.idle)))
    = [(3 # 1, 4 # 1)%Q].
Proof.
  assert (Hb : Timers.burst 0 [(200, (1 # 1, 2 # 1)%Q); (400, (3 # 1, 4 # 1)%Q)])
    by (cbn; unfold Timers.geocodeDelay; lia).
  split; [exact Hb|].
  destruct (geocode_burst_looks_up_only_the_last_fix 0 1400 (5 # 1) (6 # 1)
              [(200, (1 # 1, 2 # 1)%Q); (400, (3 # 1, 4 # 1)%Q)]
              ltac:(lia) Hb) as (_ & _ & H).
  exact (proj1 (H ltac:(cbn; unfold Timers.geocodeDelay; lia))).
Defined.

(** Three fixes two seconds apart. *)
Lemma geocode_spaced_fixes_are_each_looked_up_witness :
  Trace.spaced 0 [(2000, (1 # 1, 2 # 1)%Q); (4000, (3 # 1, 4 # 1)%Q)] /\
  Timers.requests
    (Timers.advanceTo 5000
       (Timers.fixesAt [(2000, (1 # 1, 2 # 1)%Q); (4000, (3 # 1, 4 # 1)%Q)]
          (Timers.fixAt 0 (5 # 1) (6 # 1) Timers.idle)))
    = [(5 # 1, 6 # 1)%Q; (1 # 1, 2 # 1)%Q; (3 # 1, 4 # 1)%Q].
Proof.
  assert (Hs : Trace.spaced 0 [(2000, (1 # 1, 2 # 1)%Q); (4000, (3 # 1, 4 # 1)%Q)])
    by (cbn; unfold Timers.geocodeDelay; lia).
  split; [exact Hs|].
  exact (proj1 (geocode_spaced_fixes_are_each_looked_up 0 5000 (5 # 1) (6 # 1)
                  [(2000, (1 # 1, 2 # 1)%Q); (4000, (3 # 1, 4 # 1)%Q)]
                  ltac:(lia) Hs ltac:(cbn; unfold Timers.geocodeDelay; lia))).
Defined.

Local Close Scope Z_scope.

(** ** Captures and the store *)

Lemma capture_storage (h : Host) (shot : Shot) (w w' : World) (photo : Photo) :
  capturePhoto h shot w = (Recorded photo, w') ->
  exists s w2,
    stream (app w) = Some s /\
    photo = Trace.photoOf h shot s w /\
    appendPhoto h photo (Trace.composed shot s w) = Normal w2 /\
    localStorage w' = localStorage (addLog h photo w2) /\
    app w' = app (addLog h photo w2).
Proof.
  intros H. destruct (capture_recorded_inv h shot w w' photo H)
    as (s & w2 & Hs & Hp & Ha & Hw).
  exists s, w2. split; [exact Hs|]. split; [exact Hp|]. split; [exact Ha|].
  cbv zeta in Hw. rewrite Hw.
  destruct (canVibrate h), (autoSave (settings (app (addLog h photo w2))));
    split; reflexivity.
Qed.

(** X19. What a reload brings back after a capture on a store that
    accepts every write: every log, however many there are, and the
    newest fifty photos.  The photo collection that comes back is never
    longer than fifty, the log collection is one longer than before the
    capture. *)
Theorem reload_after_capture_restores_logs_and_newest_photos
    (h : Host) (shot : Shot) (w w' later : World) (photo : Photo) :
  accepting h ->
  capturePhoto h shot w = (Recorded photo, w') ->
  localStorage later = localStorage w' ->
  let reloaded := loadLogs (loadPhotos later) in
  photos (app reloaded) = take 50 (photo :: photos (app w)) /\
  logs (app reloaded) = logOf photo :: logs (app w) /\
  (length (photos (app reloaded)) <= 50)%nat /\
  length (logs (app reloaded)) = S (length (logs (app w))).
Proof.
  intros Hacc H Hl.
  destruct (capture_storage h shot w w' photo H) as (s & w2 & Hs & Hp & Ha & Hst & _).
  destruct (appendPhoto_accepting h photo (Trace.composed shot s w) Hacc)
    as (w2' & Ha' & Hph & Hsto).
  rewrite Ha in Ha'. injection Ha' as <-.
  pose proof (appendPhoto_frame h photo (Trace.composed shot s w)) as Hf.
  rewrite Ha in Hf. cbn [worldOf] in Hf. destruct Hf as (Hlg & _).
  assert (Hst3 : localStorage (addLog h photo w2) =
                 <[LOGS_KEY := StoredLogs (logOf photo :: logs (app w2))]>
                   (localStorage w2)).
  { unfold addLog, saveLogs, setItem. rewrite Hacc. reflexivity. }
  assert (Kp : localStorage later !! PHOTOS_KEY =
               Some (StoredPhotos (take 50 (photo :: photos (app w))))).
  { rewrite Hl, Hst, Hst3, lookup_insert_ne by discriminate. exact Hsto. }
  assert (Kl : localStorage later !! LOGS_KEY =
               Some (StoredLogs (logOf photo :: logs (app w)))).
  { rewrite Hl, Hst, Hst3, lookup_insert_eq, Hlg. reflexivity. }
  cbv zeta.
  assert (P : photos (app (loadLogs (loadPhotos later))) =
              take 50 (photo :: photos (app w))).
  { unfold loadLogs, loadPhotos. rewrite Kp. cbn [localStorage withApp].
    rewrite Kl. reflexivity. }
  assert (L : logs (app (loadLogs (loadPhotos later))) =
              logOf photo :: logs (app w)).
  { unfold loadLogs, loadPhotos. rewrite Kp. cbn [localStorage withApp].
    rewrite Kl. reflexivity. }
  split; [exact P|]. split; [exact L|]. split.
  - rewrite P, length_take. lia.
  - rewrite L. reflexivity.
Qed.

(** X20. A capture ends with the error of the store when the
    first write of the photos is rejected for quota and the retry with the
    newest twenty is rejected too.  By then the frame has flashed and the
    photo is in memory, among at most twenty; nothing was stored, no log
    was added, and neither a toast nor the hand-over to the device save
    nor the vibration follows. *)
Theorem capture_ends_in_error_when_retry_is_rejected
    (h : Host) (shot : Shot) (w : World) (s : Stream) (e : string) :
  stream (app w) = Some s ->
  let photo := Trace.photoOf h shot s w in
  let ps := photo :: photos (app w) in
  quotaPolicy h (localStorage w) PHOTOS_KEY (StoredPhotos (take 50 ps))
    = Some "QuotaExceededError" ->
  quotaPolicy h (localStorage w) PHOTOS_KEY (StoredPhotos (take 20 ps)) = Some e ->
  exists w',
    capturePhoto h shot w = (Aborted photo e, w') /\
    photos (app w') = take 20 ps /\
    logs (app w') = logs (app w) /\
    localStorage w' = localStorage w /\
    effects w' = effects w ++ [Flash; ConsoleError "Failed to save photos:"] /\
    attempts w' =
      attempts w
        ++ [MkAttempt PHOTOS_KEY (StoredPhotos (take 50 ps)) (Some "QuotaExceededError");
            MkAttempt PHOTOS_KEY (StoredPhotos (take 20 ps)) (Some e)].
Proof.
  intros Hs photo ps H1 H2.
  unfold capturePhoto. rewrite Hs.
  fold (Trace.composed shot s w). fold (Trace.photoOf h shot s w). fold photo.
  unfold appendPhoto, savePhotos, setItem.
  change (photos (app (withApp (withPhotos (photo :: photos (app (Trace.composed shot s w)))
                                  (app (Trace.composed shot s w)))
                         (Trace.composed shot s w)))) with ps.
  change (localStorage (withApp (withPhotos (photo :: photos (app (Trace.composed shot s w)))
                                  (app (Trace.composed shot s w)))
                         (Trace.composed shot s w))) with (localStorage w).
  rewrite H1. cbn [String.eqb Ascii.eqb Bool.eqb].
  match goal with
  | |- context [quotaPolicy h ?m ?k ?v] =>
      change (quotaPolicy h m k v)
        with (quotaPolicy h (localStorage w) PHOTOS_KEY (StoredPhotos (take 20 ps)))
  end.
  rewrite H2.
  eexists. split; [reflexivity|].
  cbn. rewrite <- !app_assoc. repeat split; reflexivity.
Qed.

(** X21. An error of the store that is not the quota error is only
    written to the console: the capture goes on, the photo stays in
    memory, its log is added and the success path runs, the only trace of
    the failure being the console line.  The photos that were stored are
    what they were before, so a page opened afterwards on that store
    loads the photos stored earlier, or none, whatever the capture took,
    while its log is there when the store accepted the logs. *)
Theorem capture_goes_on_after_a_storage_error
    (h : Host) (shot : Shot) (w : World) (s : Stream) (e : string) :
  stream (app w) = Some s ->
  let photo := Trace.photoOf h shot s w in
  quotaPolicy h (localStorage w) PHOTOS_KEY
    (StoredPhotos (take 50 (photo :: photos (app w)))) = Some e ->
  String.eqb e "QuotaExceededError" = false ->
  exists w' r,
    capturePhoto h shot w = (Recorded photo, w') /\
    photos (app w') = photo :: photos (app w) /\
    logs (app w') = logOf photo :: logs (app w) /\
    localStorage w' !! PHOTOS_KEY = localStorage w !! PHOTOS_KEY /\
    attempts w' =
      attempts w
        ++ [MkAttempt PHOTOS_KEY (StoredPhotos (take 50 (photo :: photos (app w))))
              (Some e);
            MkAttempt LOGS_KEY (StoredLogs (logOf photo :: logs (app w))) r] /\
    effects w' =
      effects w
        ++ [Flash; ConsoleError "Failed to save photos:"]
        ++ (match r with
            | Some _ => [ConsoleError "Failed to save logs:"]
            | None => []
            end)
        ++ [if autoSave (settings (app w))
            then SaveToDevice photo
            else Toast ("Photo captured! 📸 ("
                          +:+ (numberToString h (imageWidth photo) +:+ "×"
                                 +:+ numberToString h (imageHeight photo))
                          +:+ ")")%string "success"]
        ++ (if canVibrate h then [Vibrate] else []) /\
    (r = None ->
     localStorage w' !! LOGS_KEY = Some (StoredLogs (logOf photo :: logs (app w)))) /\
    forall later,
      localStorage later = localStorage w' ->
      photos (app (loadPhotos later)) =
        match localStorage w !! PHOTOS_KEY with
        | Some (StoredPhotos old) => old
        | _ => photos (app later)
        end.
Proof.
  intros Hs photo H1 H2.
  set (w0 := withApp (withPhotos (photo :: photos (app (Trace.composed shot s w)))
                        (app (Trace.composed shot s w))) (Trace.composed shot s w)).
  destruct (savePhotos_other_error h w0 e H1 H2) as (w2 & Hsave & Happ & Hsto & Hatt).
  assert (Heff : effects w2 = effects w ++ [Flash; ConsoleError "Failed to save photos:"]).
  { unfold savePhotos, setItem in Hsave.
    change (quotaPolicy h (localStorage w0) PHOTOS_KEY
              (StoredPhotos (take 50 (photos (app w0)))))
      with (quotaPolicy h (localStorage w) PHOTOS_KEY
              (StoredPhotos (take 50 (photo :: photos (app w))))) in Hsave.
    rewrite H1, H2 in Hsave. injection Hsave as <-.
    cbn [effects emit withStorage withApp w0 Trace.composed withCanvas].
    rewrite <- app_assoc. reflexivity. }
  set (w2l := withApp (withLogs (logOf photo :: logs (app w2)) (app w2)) w2).
  assert (Hlog : exists r,
             attempts (addLog h photo w2) =
               attempts w2 ++ [MkAttempt LOGS_KEY (StoredLogs (logOf photo :: logs (app w2))) r] /\
             effects (addLog h photo w2) =
               effects w2 ++ match r with
                             | Some _ => [ConsoleError "Failed to save logs:"]
                             | None => []
                             end /\
             app (addLog h photo w2) = app w2l /\
             localStorage (addLog h photo w2) !! PHOTOS_KEY = localStorage w2 !! PHOTOS_KEY /\
             (r = None ->
              localStorage (addLog h photo w2) !! LOGS_KEY =
                Some (StoredLogs (logOf photo :: logs (app w2))))).
  { unfold addLog, saveLogs, setItem. fold w2l.
    destruct (quotaPolicy h (localStorage w2l) LOGS_KEY (StoredLogs (logs (app w2l))))
      as [e'|].
    - exists (Some e'). cbn [attempts effects app localStorage emit withStorage].
      split; [reflexivity|]. split; [reflexivity|]. split; [reflexivity|].
      split; [reflexivity|]. discriminate.
    - exists None. cbn [attempts effects app localStorage emit withStorage].
      split; [reflexivity|]. split; [rewrite app_nil_r; reflexivity|].
      split; [reflexivity|].
      split; [rewrite lookup_insert_ne by discriminate; reflexivity|].
      intros _. apply lookup_insert_eq. }
  destruct Hlog as (r & Ha3 & He3 & Happ3 & Hst3 & Hlg3).
  assert (Hset : settings (app (addLog h photo w2)) = settings (app w))
    by (rewrite Happ3; cbn [app withApp w2l withLogs settings]; rewrite Happ; reflexivity).
  assert (Hcap : capturePhoto h shot w =
            (Recorded photo,
             let w3 := addLog h photo w2 in
             let w4 :=
               if autoSave (settings (app w3))
               then emit (SaveToDevice photo) w3
               else showToast ("Photo captured! 📸 ("
                                 +:+ (numberToString h (imageWidth photo) +:+ "×"
                                        +:+ numberToString h (imageHeight photo))
                                 +:+ ")")%string "success" w3 in
             if canVibrate h then emit Vibrate w4 else w4)).
  { unfold capturePhoto. rewrite Hs.
    fold (Trace.composed shot s w). fold (Trace.photoOf h shot s w). fold photo.
    unfold appendPhoto. fold w0. rewrite Hsave. reflexivity. }
  cbv zeta in Hcap. rewrite Hset in Hcap.
  eexists. exists r. split; [exact Hcap|].
  assert (Eapp : forall x : World,
            app (if canVibrate h then emit Vibrate x else x) = app x)
    by (intros x; destruct (canVibrate h); reflexivity).
  assert (Esto : forall x : World,
            localStorage (if canVibrate h then emit Vibrate x else x) = localStorage x)
    by (intros x; destruct (canVibrate h); reflexivity).
  assert (Eatt : forall x : World,
            attempts (if canVibrate h then emit Vibrate x else x) = attempts x)
    by (intros x; destruct (canVibrate h); reflexivity).
  assert (Eeff : forall x : World,
            effects (if canVibrate h then emit Vibrate x else x) =
              effects x ++ (if canVibrate h then [Vibrate] else []))
    by (intros x; destruct (canVibrate h); cbn [effects emit];
        rewrite ?app_nil_r; reflexivity).
  rewrite Eapp, Esto, Eatt, Eeff.
  assert (K : localStorage
                (if autoSave (settings (app w))
                 then emit (SaveToDevice photo) (addLog h photo w2)
                 else showToast ("Photo captured! 📸 ("
                                   +:+ (numberToString h (imageWidth photo) +:+ "×"
                                          +:+ numberToString h (imageHeight photo))
                                   +:+ ")")%string "success" (addLog h photo w2))
              = localStorage (addLog h photo w2))
    by (destruct (autoSave (settings (app w))); reflexivity).
  assert (A : app
                (if autoSave (settings (app w))
                 then emit (SaveToDevice photo) (addLog h photo w2)
                 else showToast ("Photo captured! 📸 ("
                                   +:+ (numberToString h (imageWidth photo) +:+ "×"
                                          +:+ numberToString h (imageHeight photo))
                                   +:+ ")")%string "success" (addLog h photo w2))
              = app w2l)
    by (destruct (autoSave (settings (app w))); exact Happ3).
  rewrite K, A.
  assert (P : localStorage (addLog h photo w2) !! PHOTOS_KEY = localStorage w !! PHOTOS_KEY)
    by (rewrite Hst3, Hsto; reflexivity).
  split; [cbn [app withApp w2l withLogs photos]; rewrite Happ; reflexivity|].
  split; [cbn [app withApp w2l withLogs logs]; rewrite Happ; reflexivity|].
  split; [exact P|]. split.
  { destruct (autoSave (settings (app w))); cbn [attempts emit showToast];
      rewrite Ha3, Hatt, Happ, <- app_assoc; reflexivity. }
  split.
  { destruct (autoSave (settings (app w))); cbn [effects emit showToast];
      rewrite He3, Heff, <- !app_assoc; reflexivity. }
  split.
  { intros Hr. rewrite (Hlg3 Hr), Happ. reflexivity. }
  intros later Hl. unfold loadPhotos. rewrite Hl, P.
  destruct (localStorage w !! PHOTOS_KEY) as [[old| |]|]; reflexivity.
Qed.

(** The first sample capture, then the page opened again on the same
    store. *)
Lemma reload_after_capture_restores_logs_and_newest_photos_witness :
  accepting (Sample.host Sample.roomy) /\
  photos (app (loadLogs (loadPhotos Cases.reopened))) = [Sample.firstPhoto] /\
  logs (app (loadLogs (loadPhotos Cases.reopened))) = [logOf Sample.firstPhoto].
Proof.
  assert (Ha : accepting (Sample.host Sample.roomy)) by (intros m k v; reflexivity).
  assert (H1 : Sample.firstCapture = (Recorded Sample.firstPhoto, Cases.afterFirst))
    by (vm_compute; reflexivity).
  split; [exact Ha|].
  destruct (reload_after_capture_restores_logs_and_newest_photos
              (Sample.host Sample.roomy) (Sample.shot 1) Sample.ready Cases.afterFirst
              Cases.reopened Sample.firstPhoto Ha H1 eq_refl) as (Hp & Hl & _).
  split; [exact Hp | exact Hl].
Defined.

(** The sample camera on a store that is full. *)
Lemma capture_ends_in_error_when_retry_is_rejected_witness :
  exists w',
    capturePhoto (Sample.host Cases.full) (Sample.shot 1) Sample.ready =
      (Aborted (Trace.photoOf (Sample.host Cases.full) (Sample.shot 1) Sample.camera
                  Sample.ready) "QuotaExceededError", w') /\
    logs (app w') = [] /\
    effects w' = [Flash; ConsoleError "Failed to save photos:"].
Proof.
  destruct (capture_ends_in_error_when_retry_is_rejected
              (Sample.host Cases.full) (Sample.shot 1) Sample.ready Sample.camera
              "QuotaExceededError" eq_refl eq_refl eq_refl)
    as (w' & Hc & _ & Hl & _ & He & _).
  exists w'. split; [exact Hc|]. split; [exact Hl | exact He].
Defined.

(** The sample camera on a store that refuses photos with another
    error; then a page opened on that store. *)
Lemma capture_goes_on_after_a_storage_error_witness :
  exists w',
    capturePhoto (Sample.host Cases.broken) (Sample.shot 1) Sample.ready =
      (Recorded (Trace.photoOf (Sample.host Cases.broken) (Sample.shot 1) Sample.camera
                   Sample.ready), w') /\
    length (logs (app w')) = 1%nat /\
    photos (app (loadPhotos (Cases.freshOn (localStorage w')))) = [].
Proof.
  destruct (capture_goes_on_after_a_storage_error
              (Sample.host Cases.broken) (Sample.shot 1) Sample.ready Sample.camera
              "SecurityError" eq_refl eq_refl eq_refl)
    as (w' & r & Hc & _ & Hl & _ & _ & _ & _ & Hre).
  exists w'. split; [exact Hc|]. split; [rewrite Hl; reflexivity|].
  rewrite (Hre (Cases.freshOn (localStorage w')) eq_refl). reflexivity.
Defined.

(** ** Reading an exported file back *)

(** X22. The exported file reads back, record by record: when the texts a
    row writes without quotes hold neither a comma nor a quote, and no row
    holds a line break, splitting the file into lines and each line into
    fields gives the header names and then, for every log in order, its
    twelve fields, the address as it was before quoting, whatever commas
    and quotes it holds. *)
Theorem exported_file_reads_back (h : Host) (ls : list Log) :
  forallb (fun l => (forallb Csv.plain (unquotedTexts h l)
                     && Csv.oneLine (joinRow h (row l)))%bool) ls = true ->
  map Csv.readRow (Csv.lines (csvOf h ls)) = headers :: map (fieldsOf h) ls.
Proof.
  intros H.
  assert (Hone : forallb Csv.oneLine (csvLines h ls) = true).
  { unfold csvLines. cbn [forallb]. apply andb_true_intro. split; [reflexivity|].
    induction ls as [|l rest IH]; [reflexivity|].
    cbn [forallb map] in *. apply andb_prop in H as [Hl Hrest].
    apply andb_prop in Hl as [_ Hl]. rewrite Hl. exact (IH Hrest). }
  unfold csvOf. rewrite lines_concat; [|unfold csvLines; discriminate|exact Hone].
  unfold csvLines. cbn [map]. f_equal.
  induction ls as [|l rest IH]; [reflexivity|].
  cbn [forallb map] in *. apply andb_prop in H as [Hl Hrest].
  apply andb_prop in Hl as [Hl _].
  rewrite (export_row_reads_back h l Hl).
  apply andb_prop in Hone as [_ Hone]. cbn [forallb] in Hone.
  apply andb_prop in Hone as [_ Hone].
  f_equal. apply IH; [exact Hrest|].
  cbn [forallb]. exact Hone.
Qed.

(** Two sample logs in a file, the first with a comma in its address. *)
Lemma exported_file_reads_back_witness :
  map Csv.readRow
    (Csv.lines (csvOf (Sample.host Sample.roomy) [Cases.surveyed; Sample.nullIsland])) =
    [headers;
     ["IMG-MHJ2K4A0-3"; "2026-11-03T02:45:00.000Z"; "2026-11-03 02:45"; "UTC";
      "13"; "100"; "12"; ""; "Main St, Springfield"; "TC-MHJ2K4A0-7F3K"; "Bridge"; "Ada"];
     fieldsOf (Sample.host Sample.roomy) Sample.nullIsland].
Proof.
  exact (exported_file_reads_back (Sample.host Sample.roomy)
           [Cases.surveyed; Sample.nullIsland] eq_refl).
Defined.

(** ** The composed frame *)

(** What the overlay pass leaves on the canvas, read as texts and as
    filled rectangles. *)
Lemma compose_paints (shot : Shot) (s : Stream) (st : State) :
  (timestampOnImage (settings st) || coordsOnImage (settings st))%bool = true ->
  let cv := compose shot s st in
  Trace.textsOf (Canvas.ops (Canvas.ctx cv)) =
    (if timestampOnImage (settings st)
     then [Trace.localLine shot; Trace.utcLine shot] else [])
    ++ match coordsOnImage (settings st), position st with
       | true, Some p => [Trace.coordsLine p]
       | _, _ => []
       end
    ++ (if watermarkEnabled (settings st) then ["📍 TraceCam"] else []) /\
  exists more,
    Trace.rectsOf (Canvas.ops (Canvas.ctx cv)) =
      ("rgba(0, 0, 0, 0.6)",
       metadataFontSize (Canvas.height cv) * (16 # 10) * 4) :: more.
Proof.
  intros Hflags. cbv zeta. unfold compose. cbn [Canvas.ctx Canvas.height].
  set (width := numOr (trackWidth s) (qOr (videoWidth shot) 1920)).
  set (height := numOr (trackHeight s) (qOr (videoHeight shot) 1080)).
  rewrite Hflags. clear Hflags.
  unfold addMetadataOverlay, Trace.localLine, Trace.utcLine,
    Trace.coordsLine, metadataFontSize.
  destruct (timestampOnImage (settings st));
    destruct (coordsOnImage (settings st)); destruct (position st) as [p|];
    destruct (watermarkEnabled (settings st));
    run_canvas; unfold Trace.textsOf, Trace.rectsOf;
    rewrite ?flat_map_app; cbn [flat_map List.app];
    (split; [reflexivity | eexists; reflexivity]).
Qed.

(** X23. The text painted on a captured frame.  When the timestamp or the
    coordinates are to be drawn, the overlay first paints its backing
    band, four metadata lines high whatever is written on it, and then, in
    this order: the local time with the time zone and the UTC time, when
    the timestamp is on; the coordinate line, when the coordinates are on
    and a fix is known; the brand text, when the watermark is on.  With
    the coordinates on and no fix the band is painted and the coordinate
    line is not.  When both are off nothing at all is written or
    filled. *)
Theorem overlay_writes_only_the_enabled_lines (shot : Shot) (s : Stream) (st : State) :
  let cv := compose shot s st in
  let painted := Canvas.ops (Canvas.ctx cv) in
  ((timestampOnImage (settings st) || coordsOnImage (settings st))%bool = true ->
   Trace.textsOf painted =
     (if timestampOnImage (settings st)
      then [Trace.localLine shot; Trace.utcLine shot] else [])
     ++ match coordsOnImage (settings st), position st with
        | true, Some p => [Trace.coordsLine p]
        | _, _ => []
        end
     ++ (if watermarkEnabled (settings st) then ["📍 TraceCam"] else []) /\
   exists more,
     Trace.rectsOf painted =
       ("rgba(0, 0, 0, 0.6)",
        metadataFontSize (Canvas.height cv) * (16 # 10) * 4) :: more)
  /\
  ((timestampOnImage (settings st) || coordsOnImage (settings st))%bool = false ->
   Trace.textsOf painted = [] /\ Trace.rectsOf painted = []).
Proof.
  cbv zeta. split.
  - intros Hflags. exact (compose_paints shot s st Hflags).
  - intros Hflags. unfold compose. rewrite Hflags. split; reflexivity.
Qed.

Lemma numOr_cases (v : OptNum) (d : Q) :
  (exists q, v = Num q /\ ~ q == 0 /\ numOr v d = q) \/
  (truthyNum v = false /\ numOr v d = d).
Proof.
  destruct v as [| |q]; [right; split; reflexivity .. |].
  unfold numOr. destruct (truthyNum (Num q)) eqn:E.
  - left. exists q. split; [reflexivity|]. split; [|reflexivity].
    unfold truthyNum in E. intros H. apply Qeq_bool_iff in H.
    rewrite H in E. discriminate.
  - right. split; reflexivity.
Qed.

(** X24. The size of the captured frame.  Each side is taken from the
    settings of the video track when that number is there and not zero,
    otherwise from the video element when that number is not zero,
    otherwise it is 1920 wide or 1080 high; the two sides fall back
    independently of each other.  So neither side of the canvas is ever
    zero, the frame is drawn over the whole canvas, and the photo records
    the size of the canvas. *)
Theorem captured_frame_is_never_empty
    (h : Host) (shot : Shot) (s : Stream) (w : World) :
  let cv := compose shot s (app w) in
  ~ Canvas.width cv == 0 /\
  ~ Canvas.height cv == 0 /\
  (forall q, trackWidth s = Num q -> ~ q == 0 -> Canvas.width cv = q) /\
  (forall q, trackHeight s = Num q -> ~ q == 0 -> Canvas.height cv = q) /\
  (truthyNum (trackWidth s) = false ->
   Canvas.width cv = if Qeq_bool (videoWidth shot) 0 then 1920 else videoWidth shot) /\
  (truthyNum (trackHeight s) = false ->
   Canvas.height cv = if Qeq_bool (videoHeight shot) 0 then 1080 else videoHeight shot) /\
  (exists more,
     Canvas.ops (Canvas.ctx cv) =
       Canvas.DrawImage (frame shot) 0 0 (Canvas.width cv) (Canvas.height cv) :: more) /\
  imageWidth (Trace.photoOf h shot s w) = Canvas.width cv /\
  imageHeight (Trace.photoOf h shot s w) = Canvas.height cv.
Proof.
  cbv zeta. unfold compose. cbn [Canvas.width Canvas.height Canvas.ctx].
  set (width := numOr (trackWidth s) (qOr (videoWidth shot) 1920)).
  set (height := numOr (trackHeight s) (qOr (videoHeight shot) 1080)).
  assert (Hq : forall a d, ~ d == 0 -> ~ qOr a d == 0).
  { intros a d Hd. unfold qOr. destruct (Qeq_bool a 0) eqn:E; [exact Hd|].
    intros H. apply Qeq_bool_iff in H. rewrite H in E. discriminate. }
  assert (Hn : forall v d, ~ d == 0 -> ~ numOr v d == 0).
  { intros v d Hd. destruct (numOr_cases v d) as [(q & _ & Hq0 & ->)|[_ ->]];
      assumption. }
  split; [apply Hn, Hq; discriminate|].
  split; [apply Hn, Hq; discriminate|].
  split.
  { intros q Hv Hq0. subst width. rewrite Hv. unfold numOr, truthyNum.
    destruct (Qeq_bool q 0) eqn:E; [|reflexivity].
    apply Qeq_bool_iff in E. contradiction. }
  split.
  { intros q Hv Hq0. subst height. rewrite Hv. unfold numOr, truthyNum.
    destruct (Qeq_bool q 0) eqn:E; [|reflexivity].
    apply Qeq_bool_iff in E. contradiction. }
  split.
  { intros Hv. subst width. unfold numOr. rewrite Hv.
    destruct (trackWidth s); reflexivity. }
  split.
  { intros Hv. subst height. unfold numOr. rewrite Hv.
    destruct (trackHeight s); reflexivity. }
  split; [|split; reflexivity].
  destruct (timestampOnImage (settings (app w)) || coordsOnImage (settings (app w)))%bool.
  - unfold addMetadataOverlay.
    destruct (timestampOnImage (settings (app w)));
      destruct (coordsOnImage (settings (app w)));
      destruct (position (app w)) as [p|];
      destruct (watermarkEnabled (settings (app w)));
      run_canvas; cbn [List.app]; eexists; reflexivity.
  - exists []. reflexivity.
Qed.

(** ** What the user is told after a capture *)

Lemma filter_toast_console (es : list Effect) (m : string) :
  List.filter Trace.isToast (es ++ [ConsoleError m]) = List.filter Trace.isToast es /\
  List.filter Trace.isHandOver (es ++ [ConsoleError m]) = List.filter Trace.isHandOver es.
Proof. rewrite !List.filter_app. cbn. rewrite !app_nil_r. split; reflexivity. Qed.

Lemma savePhotos_quiet (h : Host) (w : World) :
  let w' := worldOf (savePhotos h w) in
  List.filter Trace.isToast (effects w') = List.filter Trace.isToast (effects w) /\
  List.filter Trace.isHandOver (effects w') = List.filter Trace.isHandOver (effects w).
Proof.
  cbv zeta. destruct (savePhotos_trace h w) as ([-> | ->] & _).
  - split; reflexivity.
  - apply filter_toast_console.
Qed.

Lemma saveLogs_quiet (h : Host) (w : World) :
  List.filter Trace.isToast (effects (saveLogs h w)) =
    List.filter Trace.isToast (effects w) /\
  List.filter Trace.isHandOver (effects (saveLogs h w)) =
    List.filter Trace.isHandOver (effects w).
Proof.
  destruct (saveLogs_trace h w) as ([-> | ->] & _).
  - split; reflexivity.
  - apply filter_toast_console.
Qed.

(** X25. A recorded capture confirms itself exactly once.  With the
    hand-over to the device save switched off it shows one toast, of kind
    success, that names the size of the frame, and hands nothing over;
    with it switched on it shows no toast of its own and hands the photo
    over once, and the device save then adds exactly one toast, again of
    kind success.  This is so whether or not the writes to the store were
    accepted: a rejected write only reaches the console. *)
Theorem recorded_capture_confirms_once
    (h : Host) (pf : Device.Platform) (shot : Shot) (w w' : World) (photo : Photo) :
  capturePhoto h shot w = (Recorded photo, w') ->
  let toasts := fun x : World => List.filter Trace.isToast (effects x) in
  let handed := fun x : World => List.filter Trace.isHandOver (effects x) in
  (autoSave (settings (app w)) = false ->
   toasts w' =
     toasts w
       ++ [Toast ("Photo captured! 📸 ("
                    +:+ (numberToString h (imageWidth photo) +:+ "×"
                           +:+ numberToString h (imageHeight photo))
                    +:+ ")")%string "success"] /\
   handed w' = handed w) /\
  (autoSave (settings (app w)) = true ->
   toasts w' = toasts w /\
   handed w' = handed w ++ [SaveToDevice photo] /\
   exists message,
     toasts (snd (Device.saveToDevice pf photo w')) =
       toasts w ++ [Toast message "success"]).
Proof.
  intros H. cbv zeta.
  destruct (capture_recorded_inv h shot w w' photo H)
    as (s & w2 & Hs & Hp & Ha & Hw).
  cbv zeta in Hw.
  pose proof (appendPhoto_frame h photo (Trace.composed shot s w)) as Hf.
  unfold appendPhoto in Ha, Hf.
  pose proof (savePhotos_quiet h
                (withApp (withPhotos (photo :: photos (app (Trace.composed shot s w)))
                            (app (Trace.composed shot s w))) (Trace.composed shot s w)))
    as Hq.
  rewrite Ha in Hf, Hq. cbn [worldOf] in Hf, Hq.
  destruct Hf as (_ & Hset & _). destruct Hq as (Hq1 & Hq2).
  destruct (addLog_spec h photo w2) as (_ & _ & Hset3 & _).
  destruct (saveLogs_quiet h
              (withApp (withLogs (logOf photo :: logs (app w2)) (app w2)) w2))
    as (Hl1 & Hl2).
  fold (addLog h photo w2) in Hl1, Hl2.
  assert (T2 : List.filter Trace.isToast (effects (addLog h photo w2)) =
               List.filter Trace.isToast (effects w)).
  { rewrite Hl1. etransitivity; [exact Hq1|].
    cbn [effects withApp Trace.composed emit withCanvas].
    rewrite List.filter_app. cbn. apply app_nil_r. }
  assert (H2 : List.filter Trace.isHandOver (effects (addLog h photo w2)) =
               List.filter Trace.isHandOver (effects w)).
  { rewrite Hl2. etransitivity; [exact Hq2|].
    cbn [effects withApp Trace.composed emit withCanvas].
    rewrite List.filter_app. cbn. apply app_nil_r. }
  assert (Hauto : autoSave (settings (app (addLog h photo w2))) =
                  autoSave (settings (app w))).
  { rewrite Hset3, Hset. reflexivity. }
  rewrite Hauto in Hw.
  split; intros Hflag; rewrite Hflag in Hw.
  - assert (E : effects w' =
                effects (addLog h photo w2)
                  ++ [Toast ("Photo captured! 📸 ("
                               +:+ (numberToString h (imageWidth photo) +:+ "×"
                                      +:+ numberToString h (imageHeight photo))
                               +:+ ")")%string "success"]
                  ++ (if canVibrate h then [Vibrate] else [])).
    { rewrite Hw. destruct (canVibrate h); cbn [effects emit showToast];
        rewrite <- ?app_assoc; reflexivity. }
    rewrite E, !List.filter_app, T2, H2.
    destruct (canVibrate h); cbn; rewrite ?app_nil_r; split; reflexivity.
  - assert (E : effects w' =
                effects (addLog h photo w2) ++ [SaveToDevice photo]
                  ++ (if canVibrate h then [Vibrate] else [])).
    { rewrite Hw. destruct (canVibrate h); cbn [effects emit];
        rewrite <- ?app_assoc; reflexivity. }
    assert (T : List.filter Trace.isToast (effects w') =
                List.filter Trace.isToast (effects w)).
    { rewrite E, !List.filter_app, T2.
      destruct (canVibrate h); cbn; rewrite ?app_nil_r; reflexivity. }
    split; [exact T|]. split.
    { rewrite E, !List.filter_app, H2.
      destruct (canVibrate h); cbn; reflexivity. }
    unfold Device.saveToDevice, Device.saveFailed, Device.downloadPhotoDirect.
    destruct (Device.hasSaveFilePicker pf).
    + destruct (Device.pickerError pf) as [e|].
      * destruct (String.eqb e "AbortError"); eexists;
          cbn [snd effects showToast emit];
          rewrite ?List.filter_app, T; cbn; rewrite ?app_nil_r; reflexivity.
      * eexists. cbn [snd effects showToast emit].
        rewrite List.filter_app, T. reflexivity.
    + destruct (Device.hasShare pf && Device.canShareFiles pf)%bool.
      * destruct (Device.shareError pf) as [e|].
        -- destruct (String.eqb e "AbortError"); eexists;
             cbn [snd effects showToast emit];
             rewrite ?List.filter_app, T; cbn; rewrite ?app_nil_r; reflexivity.
        -- eexists. cbn [snd effects showToast emit].
           rewrite List.filter_app, T. reflexivity.
      * eexists. cbn [snd effects showToast emit].
        rewrite !List.filter_app, T. cbn. rewrite ?app_nil_r. reflexivity.
Qed.

(** The sample camera with the hand-over switched off. *)
Lemma recorded_capture_confirms_once_witness :
  exists photo w',
    capturePhoto (Sample.host Sample.roomy) (Sample.shot 1) Cases.manual
      = (Recorded photo, w') /\
    List.filter Trace.isToast (effects w') =
      [Toast "Photo captured! 📸 (1920×1080)" "success"].
Proof.
  eexists. eexists.
  assert (H : capturePhoto (Sample.host Sample.roomy) (Sample.shot 1) Cases.manual
              = (Recorded
                   (Trace.photoOf (Sample.host Sample.roomy) (Sample.shot 1) Sample.camera
                      Cases.manual),
                 snd (capturePhoto (Sample.host Sample.roomy) (Sample.shot 1)
                        Cases.manual)))
    by (vm_compute; reflexivity).
  split; [exact H|].
  destruct (recorded_capture_confirms_once (Sample.host Sample.roomy)
              (Device.MkPlatform false None false false None) _ _ _ _ H)
    as (Hoff & _).
  destruct (Hoff eq_refl) as (Ht & _).
  rewrite Ht. vm_compute. reflexivity.
Defined.

(** ** Sharing the previewed photo *)

(** X26. [sharePhoto] on the previewed photo never changes the state or
    the store.  It shows a toast, Copied to clipboard, exactly when the
    text went to the clipboard, which is when there is no share sheet or
    the share failed with anything but an abort; a share that went through
    and a share the user cancelled show nothing; a clipboard that refuses
    is the only way the call ends in an error.  For a photo that was
    taken without a fix the text that is shared or copied ends with the
    words undefined, undefined. *)
Theorem sharePhoto_tells_only_when_copied
    (ch : Sharing.Channel) (w : World) (photo : Photo) :
  currentPreview (app w) = Some photo ->
  (location photo = None ->
   Sharing.shareText photo =
     ("TraceCam Photo" +:+ newline +:+ photoId photo +:+ newline
        +:+ photoTimestampLocal photo +:+ newline +:+ "undefined, undefined")%string) /\
  match Sharing.sharePhoto ch w with
  | (acts, Normal w') =>
      app w' = app w /\ localStorage w' = localStorage w /\
      ((acts = [Sharing.Copied (Sharing.shareText photo)] /\
        effects w' = effects w ++ [Toast "Copied to clipboard" "success"] /\
        Sharing.clipboardError ch = None /\
        (Sharing.hasShare ch = true ->
         exists e, Sharing.shareError ch = Some e /\ e <> "AbortError")) \/
       (acts = [Sharing.Offered "TraceCam Photo" (Sharing.shareText photo)
                  (photoId photo +:+ ".jpg")%string (imageData photo)] /\
        w' = w /\ Sharing.hasShare ch = true /\ Sharing.shareError ch = None) \/
       (acts = [] /\ w' = w /\ Sharing.hasShare ch = true /\
        Sharing.shareError ch = Some "AbortError"))
  | (acts, Thrown e w') =>
      acts = [] /\ w' = w /\ Sharing.clipboardError ch = Some e
  end.
Proof.
  intros Hp. split.
  { intros Hl. unfold Sharing.shareText, Sharing.coordText. rewrite Hl. reflexivity. }
  unfold Sharing.sharePhoto, Sharing.copyText. rewrite Hp.
  destruct (Sharing.hasShare ch) eqn:Hs.
  - destruct (Sharing.shareError ch) as [e|] eqn:He.
    + destruct (String.eqb e "AbortError") eqn:Ee; cbn [negb].
      * apply String.eqb_eq in Ee. subst e.
        split; [reflexivity|]. split; [reflexivity|]. right; right.
        repeat split; reflexivity.
      * apply String.eqb_neq in Ee.
        destruct (Sharing.clipboardError ch) as [e'|] eqn:Hc.
        -- repeat split; reflexivity.
        -- split; [reflexivity|]. split; [reflexivity|]. left.
           split; [reflexivity|]. split; [reflexivity|]. split; [reflexivity|].
           intros _. exists e. split; [reflexivity | exact Ee].
    + split; [reflexivity|]. split; [reflexivity|]. right; left.
      repeat split; reflexivity.
  - destruct (Sharing.clipboardError ch) as [e'|] eqn:Hc.
    + repeat split; reflexivity.
    + split; [reflexivity|]. split; [reflexivity|]. left.
      split; [reflexivity|]. split; [reflexivity|]. split; [reflexivity|].
      intros Habs. discriminate.
Qed.

(** The first sample photo, taken without a fix, shared where there is no
    share sheet. *)
Lemma sharePhoto_tells_only_when_copied_witness :
  currentPreview (app Cases.previewing) = Some Sample.firstPhoto /\
  Sharing.shareText Sample.firstPhoto =
    ("TraceCam Photo" +:+ newline +:+ "IMG-MHJ2K4A0-1" +:+ newline
       +:+ "11/2/2026, 9:45:00 PM" +:+ newline +:+ "undefined, undefined")%string.
Proof.
  assert (H : currentPreview (app Cases.previewing) = Some Sample.firstPhoto)
    by (vm_compute; reflexivity).
  split; [exact H|].
  exact (proj1 (sharePhoto_tells_only_when_copied Cases.clipboardOnly Cases.previewing
                  Sample.firstPhoto H) eq_refl).
Defined.

(** ** The time zone badge *)

Lemma lastSegment_no_slash (s : string) :
  forall cur,
    Clock.count Clock.slash cur = 0%nat ->
    Clock.count Clock.slash (Clock.lastSegment cur s) = 0%nat.
Proof.
  induction s as [|c s IH]; intros cur Hc; [exact Hc|].
  cbn [Clock.lastSegment]. destruct (Ascii.eqb c Clock.slash) eqn:E.
  - apply IH. reflexivity.
  - apply IH. clear IH. induction cur as [|d cur IHc].
    + rewrite text_app_nil_l. cbn [Clock.count]. rewrite E. reflexivity.
    + rewrite text_app_cons. cbn [Clock.count] in *.
      destruct (Ascii.eqb d Clock.slash); [discriminate|]. apply IHc. exact Hc.
Qed.

Lemma lastSegment_plain (s : string) :
  Clock.count Clock.slash s = 0%nat ->
  forall cur, Clock.lastSegment cur s = (cur +:+ s)%string.
Proof.
  induction s as [|c s IH]; intros Hc cur.
  - rewrite text_app_nil_r. reflexivity.
  - cbn [Clock.count] in Hc. cbn [Clock.lastSegment].
    destruct (Ascii.eqb c Clock.slash); [discriminate|].
    rewrite (IH Hc), text_app_assoc. reflexivity.
Qed.

Lemma lastSegment_after_slash (front seg : string) :
  Clock.count Clock.slash seg = 0%nat ->
  forall cur,
    Clock.lastSegment cur (front +:+ String Clock.slash seg) = seg.
Proof.
  intros Hseg. induction front as [|c front IH]; intros cur.
  - rewrite text_app_nil_l. cbn [Clock.lastSegment]. rewrite Ascii.eqb_refl.
    rewrite (lastSegment_plain seg Hseg). reflexivity.
  - rewrite text_app_cons. cbn [Clock.lastSegment].
    destruct (Ascii.eqb c Clock.slash); apply IH.
Qed.

Lemma replaceFirst_facts (s : string) :
  String.length (Clock.replaceFirst Clock.underscore Clock.blank s) = String.length s /\
  Clock.count Clock.underscore (Clock.replaceFirst Clock.underscore Clock.blank s) =
    Nat.pred (Clock.count Clock.underscore s) /\
  Clock.count Clock.slash (Clock.replaceFirst Clock.underscore Clock.blank s) =
    Clock.count Clock.slash s.
Proof.
  induction s as [|c s (IH1 & IH2 & IH3)]; [repeat split; reflexivity|].
  cbn [Clock.replaceFirst]. destruct (Ascii.eqb c Clock.underscore) eqn:E.
  - apply Ascii.eqb_eq in E. subst c. repeat split; reflexivity.
  - cbn [String.length Clock.count]. rewrite E, IH1, IH2, IH3.
    repeat split; reflexivity.
Qed.

(** X27. The time zone badge shows the part of the zone name after its
    last slash, with the first underscore of that part turned into a
    blank and every later underscore left in place: the badge is as long
    as that part, holds no slash, and holds one underscore less than that
    part when it had any.  A zone name without a slash is shown whole. *)
Theorem timezoneBadge_replaces_first_underscore_only (timezone : string) :
  let segment := Clock.lastSegment EmptyString timezone in
  Clock.timezoneBadge timezone = Clock.replaceFirst Clock.underscore Clock.blank segment /\
  String.length (Clock.timezoneBadge timezone) = String.length segment /\
  Clock.count Clock.slash (Clock.timezoneBadge timezone) = 0%nat /\
  Clock.count Clock.underscore (Clock.timezoneBadge timezone) =
    Nat.pred (Clock.count Clock.underscore segment) /\
  (Clock.count Clock.slash timezone = 0%nat -> segment = timezone) /\
  (forall front rest,
     Clock.count Clock.slash rest = 0%nat ->
     timezone = (front +:+ String Clock.slash rest)%string ->
     segment = rest) /\
  Clock.timezoneBadge "America/Port_of_Spain" = "Port of_Spain" /\
  Clock.timezoneBadge "America/Argentina/Buenos_Aires" = "Buenos Aires".
Proof.
  cbv zeta. unfold Clock.timezoneBadge.
  destruct (replaceFirst_facts (Clock.lastSegment EmptyString timezone))
    as (H1 & H2 & H3).
  split; [reflexivity|]. split; [exact H1|]. split.
  { rewrite H3. apply lastSegment_no_slash. reflexivity. }
  split; [exact H2|]. split.
  { intros H. rewrite (lastSegment_plain timezone H). reflexivity. }
  split.
  { intros front rest Hr ->. apply lastSegment_after_slash. exact Hr. }
  split; reflexivity.
Qed.

(** ** After the location source fails *)

(** X28. An error of the location source blanks the location panel and
    leaves the last fix in the state.  A capture made after a fix and
    then an error therefore still records that fix, in the photo and in
    its log, and writes its coordinate line on the frame when the
    coordinates are to be drawn, while the panel says that the location
    is unavailable. *)
Theorem capture_after_location_error_records_last_fix
    (h : Host) (e : Gps.GeoError) (c : Coords) (pn : Gps.Panel) (shot : Shot)
    (w w' : World) (photo : Photo) :
  let v := Gps.handleGeoError e (Gps.onPosition h c (pn, w)) in
  capturePhoto h shot (snd v) = (Recorded photo, w') ->
  Gps.coordsText (fst v) = "Location unavailable" /\
  Gps.latitudeText (fst v) = Gps.dash /\
  Gps.longitudeText (fst v) = Gps.dash /\
  position (app (snd v)) = Some c /\
  location photo =
    Some (MkPhotoLocation (latitude c) (longitude c) (accuracy c) (altitude c)
            (heading c) (speed c)
            (Some (Geo.decimalToDMS (fl h) (latitude c) (longitude c)))) /\
  logLatitude (logOf photo) = Num (latitude c) /\
  logLongitude (logOf photo) = Num (longitude c) /\
  (coordsOnImage (settings (app w)) = true ->
   In (Trace.coordsLine c) (Trace.textsOf (Canvas.ops (Canvas.ctx (canvas w'))))).
Proof.
  cbv zeta. intros H.
  destruct (capture_recorded_inv _ _ _ _ _ H) as (s & w2 & Hs & Hp & _).
  assert (Hloc : location photo =
            Some (MkPhotoLocation (latitude c) (longitude c) (accuracy c) (altitude c)
                    (heading c) (speed c)
                    (Some (Geo.decimalToDMS (fl h) (latitude c) (longitude c)))))
    by (rewrite Hp; reflexivity).
  split; [reflexivity|]. split; [reflexivity|]. split; [reflexivity|].
  split; [reflexivity|]. split; [exact Hloc|].
  split; [unfold logOf, locationField; rewrite Hloc; reflexivity|].
  split; [unfold logOf, locationField; rewrite Hloc; reflexivity|].
  intros Hc.
  pose proof (capture_canvas h shot _ s Hs) as Hcv. rewrite H in Hcv.
  cbn [snd] in Hcv. rewrite Hcv.
  set (st := app (snd (Gps.handleGeoError e (Gps.onPosition h c (pn, w))))).
  assert (Hc' : coordsOnImage (settings st) = true) by exact Hc.
  assert (Hflags : (timestampOnImage (settings st) || coordsOnImage (settings st))%bool
                   = true) by (rewrite Hc'; apply orb_true_r).
  destruct (compose_paints shot s st Hflags) as (Ht & _).
  rewrite Ht, Hc'.
  change (position st) with (Some c).
  apply in_or_app. right. apply in_or_app. left. left. reflexivity.
Qed.

(** A fix in Bangkok, then the location source times out, then a
    capture. *)
Lemma capture_after_location_error_records_last_fix_witness :
  exists photo w',
    capturePhoto (Sample.host Sample.roomy) (Sample.shot 1)
      (snd (Gps.handleGeoError Gps.GpsTimeout
              (Gps.onPosition (Sample.host Sample.roomy) Cases.bangkok
                 (Cases.blankPanel, Sample.ready))))
      = (Recorded photo, w') /\
    logLatitude (logOf photo) = Num (latitude Cases.bangkok).
Proof.
  eexists. eexists.
  assert (H : capturePhoto (Sample.host Sample.roomy) (Sample.shot 1)
                (snd (Gps.handleGeoError Gps.GpsTimeout
                        (Gps.onPosition (Sample.host Sample.roomy) Cases.bangkok
                           (Cases.blankPanel, Sample.ready))))
              = (Recorded
                   (Trace.photoOf (Sample.host Sample.roomy) (Sample.shot 1) Sample.camera
                      (snd (Gps.handleGeoError Gps.GpsTimeout
                              (Gps.onPosition (Sample.host Sample.roomy) Cases.bangkok
                                 (Cases.blankPanel, Sample.ready))))),
                 snd (capturePhoto (Sample.host Sample.roomy) (Sample.shot 1)
                        (snd (Gps.handleGeoError Gps.GpsTimeout
                                (Gps.onPosition (Sample.host Sample.roomy) Cases.bangkok
                                   (Cases.blankPanel, Sample.ready)))))))
    by (vm_compute; reflexivity).
  split; [exact H|].
  destruct (capture_after_location_error_records_last_fix
              (Sample.host Sample.roomy) Gps.GpsTimeout Cases.bangkok Cases.blankPanel
              (Sample.shot 1) Sample.ready _ _ H)
    as (_ & _ & _ & _ & _ & Hlat & _).
  exact Hlat.
Defined.

(** ** The logs panel *)

Lemma entryOf_logOf (photo : Photo) :
  exists e,
    LogsPanel.entryOf (logOf photo) = Some e /\
    LogsPanel.entryId e = photoId photo /\
    LogsPanel.entryTime e = photoTimestampLocal photo /\
    (LogsPanel.entryLocation e = None <->
     location photo = None \/
     exists l, location photo = Some l /\ locLatitude l == 0).
Proof.
  unfold LogsPanel.entryOf, logOf, locationField.
  cbn [logLatitude logLongitude logId logTimestampLocal logTimezone logProjectName
       logOperatorName logAccuracy].
  destruct (location photo) as [l|].
  - cbn [truthyNum]. destruct (Qeq_bool (locLatitude l) 0) eqn:E; cbn [negb].
    + eexists. split; [reflexivity|]. split; [reflexivity|]. split; [reflexivity|].
      cbn [LogsPanel.entryLocation]. split; [|reflexivity].
      intros _. right. exists l. split; [reflexivity|].
      apply Qeq_bool_iff. exact E.
    + eexists. split; [reflexivity|]. split; [reflexivity|]. split; [reflexivity|].
      cbn [LogsPanel.entryLocation]. split; [discriminate|].
      intros [Hn | (l' & Hl & Hz)]; [discriminate|].
      injection Hl as <-. apply Qeq_bool_iff in Hz. rewrite Hz in E. discriminate.
  - eexists. split; [reflexivity|]. split; [reflexivity|]. split; [reflexivity|].
    cbn [LogsPanel.entryLocation]. split; [|reflexivity]. intros _. left. reflexivity.
Qed.

(** X29. The logs panel can always be built from logs that captures
    wrote: building a card never fails on such a log, because its
    longitude is a number whenever its latitude is.  There is one card
    per log, in the order of the collection, under the id and the local
    time of the photo; and the card says No location exactly when the
    photo had no fix or its latitude was zero, so a capture on the equator
    is listed as having no location. *)
Theorem showLogs_lists_every_captured_log (ps : list Photo) :
  exists es,
    LogsPanel.cards (map logOf ps) = Some es /\
    length es = length ps /\
    forall i photo,
      ps !! i = Some photo ->
      exists e,
        es !! i = Some e /\
        LogsPanel.entryId e = photoId photo /\
        LogsPanel.entryTime e = photoTimestampLocal photo /\
        (LogsPanel.entryLocation e = None <->
         location photo = None \/
         exists l, location photo = Some l /\ locLatitude l == 0).
Proof.
  induction ps as [|p rest (es & Hc & Hlen & Hall)].
  - exists []. split; [reflexivity|]. split; [reflexivity|].
    intros i photo H. destruct i; discriminate.
  - destruct (entryOf_logOf p) as (e & He & Hfacts).
    exists (e :: es). cbn [map LogsPanel.cards]. rewrite He, Hc.
    split; [reflexivity|]. split; [cbn [length]; rewrite Hlen; reflexivity|].
    intros [|i] photo H.
    + injection H as <-. exists e. split; [reflexivity | exact Hfacts].
    + exact (Hall i photo H).
Qed.

(** ** From a capture to the exported file *)

(** X30. An export that follows a recorded capture always has something
    to write, and lists that capture first: the file is downloaded under
    the name of the day, its first line after the header is the row of
    the new photo, with the id of the photo in front and its address
    between quotes, and the rows of the logs that were there before
    follow in their order. *)
Theorem export_after_capture_lists_it_first
    (h : Host) (shot : Shot) (today : string) (w w' : World) (photo : Photo) :
  capturePhoto h shot w = (Recorded photo, w') ->
  effects (exportLogs h today w') =
    effects w'
      ++ [Download ("tracecam-logs-" +:+ today +:+ ".csv")%string
            (csvOf h (logOf photo :: logs (app w)));
          Toast "Logs exported!" "success"] /\
  csvLines h (logs (app w')) !! 1%nat = Some (joinRow h (row (logOf photo))) /\
  (forall i, csvLines h (logs (app w')) !! S (S i) = csvLines h (logs (app w)) !! S i) /\
  length (csvLines h (logs (app w'))) = S (S (length (logs (app w)))) /\
  row (logOf photo) !! 0%nat = Some (CStr (photoId photo)) /\
  row (logOf photo) !! 8%nat = Some (CStr (quoted (photoAddress photo))).
Proof.
  intros H. destruct (capture_logs h shot w w' photo H) as (Hl & _).
  unfold exportLogs. rewrite Hl.
  split; [cbn [effects showToast emit]; rewrite <- app_assoc; reflexivity|].
  split; [reflexivity|]. split; [intros i; reflexivity|].
  split; [unfold csvLines; cbn [length map]; rewrite !length_map; reflexivity|].
  split; [reflexivity|].
  cbn [row lookup list_lookup]. unfold logOf. cbn [logAddress].
  rewrite strOrEmpty_id. reflexivity.
Qed.

(** The first sample capture, then an export. *)
Lemma export_after_capture_lists_it_first_witness :
  Sample.firstCapture = (Recorded Sample.firstPhoto, Cases.afterFirst) /\
  csvLines (Sample.host Sample.roomy) (logs (app Cases.afterFirst)) !! 1%nat =
    Some (joinRow (Sample.host Sample.roomy) (row (logOf Sample.firstPhoto))).
Proof.
  assert (H1 : Sample.firstCapture = (Recorded Sample.firstPhoto, Cases.afterFirst))
    by (vm_compute; reflexivity).
  split; [exact H1|].
  exact (proj1 (proj2 (export_after_capture_lists_it_first
                         (Sample.host Sample.roomy) (Sample.shot 1) "2026-11-03"
                         Sample.ready Cases.afterFirst Sample.firstPhoto H1))).
Defined.
